(** * rpe-math: a shallow embedding of the linear-algebra library

    The library computes on [f64] values.  Every function below is
    written once, over an abstract number type [F] carrying the operations
    the TypeScript source uses ([+ - * /], unary minus, [Math.sqrt], the
    comparisons, numeric literals).  Two interpretations are provided:

    - [float] (IEEE 754 binary64, the kernel's primitive floats): what the
      code computes, rounding, overflow, infinities and NaN included;
    - [R] (the real numbers): the same code under exact arithmetic, used to
      state what the algorithms compute when no rounding or overflow occurs. *)

From Stdlib Require Import ZArith Bool List Lia.
From Stdlib Require Import Floats.
From Stdlib Require Import Reals Lra Psatz RNsatz Btauto.
Import ListNotations.

Set Implicit Arguments.

(** ** Numbers *)

(** Arithmetic and comparisons of the number type.  [fofZ] reads an integer
    literal; [a > b] is [flt b a] and [a >= b] is [fle b a]. *)
Class Arith (F : Type) : Type := {
  fadd : F -> F -> F;
  fsub : F -> F -> F;
  fmul : F -> F -> F;
  fdiv : F -> F -> F;
  fneg : F -> F;
  fsqrt : F -> F;
  flt : F -> F -> bool;
  fle : F -> F -> bool;
  feq : F -> F -> bool;
  fofZ : Z -> F
}.

(** [Math.sin], [Math.cos], [Math.atan2]. *)
Class Trig (F : Type) : Type := {
  fsin : F -> F;
  fcos : F -> F;
  fatan2 : F -> F -> F
}.

(** The remainder operator [%]. *)
Class Rem (F : Type) : Type := {
  frem : F -> F -> F
}.

(** The literal [Infinity]. *)
Class Inf (F : Type) : Type := {
  Infinity : F
}.

Declare Scope f64_scope.
Delimit Scope f64_scope with f64.
Infix "+" := fadd : f64_scope.
Infix "-" := fsub : f64_scope.
Infix "*" := fmul : f64_scope.
Infix "/" := fdiv : f64_scope.
Notation "- x" := (fneg x) : f64_scope.
Infix "<?" := flt (at level 70, no associativity) : f64_scope.
Infix "<=?" := fle (at level 70, no associativity) : f64_scope.
Infix "=?" := feq (at level 70, no associativity) : f64_scope.
Notation "x >? y" := (flt y x) (at level 70, no associativity) : f64_scope.
Notation "x >=? y" := (fle y x) (at level 70, no associativity) : f64_scope.
Notation "# n" := (fofZ n%Z) (at level 1, n at level 0, format "# n") : f64_scope.

(** A decimal literal [m / 10^k], e.g. [0.5 = dec 5 1], [1e-6 = dec 1 6].
    Both operands are exactly representable, so on [float] the quotient is
    the double nearest to the decimal, which is how the literal is read. *)
Definition dec {F} `{Arith F} (m : Z) (k : nat) : F :=
  fdiv (fofZ m) (fofZ (10 ^ Z.of_nat k)).

(** *** IEEE 754 binary64 *)

Module F64.

Definition of_Z (z : Z) : float :=
  match z with
  | Z0 => PrimFloat.zero
  | Zpos _ => PrimFloat.of_uint63 (Uint63.of_Z z)
  | Zneg p => PrimFloat.opp (PrimFloat.of_uint63 (Uint63.of_Z (Zpos p)))
  end.

(** The remainder [n % d] of ECMAScript (C's [fmod]): NaN when an operand
    is NaN, when [n] is infinite or when [d] is zero; [n] itself when [d]
    is infinite or [n] is zero; otherwise [n - d * trunc (n / d)], which is
    computed exactly on the integer mantissas and takes the sign of [n]. *)
Definition rem (n d : float) : float :=
  if PrimFloat.is_nan n || PrimFloat.is_nan d then PrimFloat.nan
  else if PrimFloat.is_infinity n then PrimFloat.nan
  else if PrimFloat.is_infinity d then n
  else if PrimFloat.is_zero d then PrimFloat.nan
  else if PrimFloat.is_zero n then n
  else
    match Prim2SF n, Prim2SF d with
    | S754_finite sn mn en, S754_finite _ md ed =>
        let e := Z.min en ed in
        let a := (Zpos mn * 2 ^ (en - e))%Z in
        let b := (Zpos md * 2 ^ (ed - e))%Z in
        let r := Z.rem a b in
        let q := Z.ldexp (PrimFloat.of_uint63 (Uint63.of_Z r)) e in
        if sn then PrimFloat.opp q else q
    | _, _ => PrimFloat.nan
    end.

#[global] Instance arith : Arith float := {
  fadd := PrimFloat.add;
  fsub := PrimFloat.sub;
  fmul := PrimFloat.mul;
  fdiv := PrimFloat.div;
  fneg := PrimFloat.opp;
  fsqrt := PrimFloat.sqrt;
  flt := PrimFloat.ltb;
  fle := PrimFloat.leb;
  feq := PrimFloat.eqb;
  fofZ := of_Z
}.

#[global] Instance has_rem : Rem float := { frem := rem }.

#[global] Instance has_inf : Inf float := { Infinity := PrimFloat.infinity }.

End F64.

(** *** Exact arithmetic on the reals *)

Module Exact.

Definition ltb (a b : R) : bool := if Rlt_dec a b then true else false.
Definition leb (a b : R) : bool := if Rle_dec a b then true else false.
Definition eqb (a b : R) : bool := if Req_dec_T a b then true else false.

(** [Math.atan2 y x] on the reals. *)
Definition atan2 (y x : R) : R :=
  if Rlt_dec 0 x then atan (y / x)
  else if Rlt_dec x 0 then
    if Rle_dec 0 y then atan (y / x) + PI else atan (y / x) - PI
  else if Rlt_dec 0 y then PI / 2
  else if Rlt_dec y 0 then - (PI / 2)
  else 0.

#[global] Instance arith : Arith R := {
  fadd := Rplus;
  fsub := Rminus;
  fmul := Rmult;
  fdiv := Rdiv;
  fneg := Ropp;
  fsqrt := sqrt;
  flt := ltb;
  fle := leb;
  feq := eqb;
  fofZ := IZR
}.

#[global] Instance trig : Trig R := {
  fsin := sin;
  fcos := cos;
  fatan2 := atan2
}.

End Exact.

(** ** Objects passed by reference

    A store maps the references of the live objects of one class to their
    current field values.  An assignment [o.f = v] rewrites the object at
    [o]; two parameters alias when they hold the same reference. *)

Module Store.

Definition ref : Type := nat.

Definition t (T : Type) : Type := ref -> T.

Definition write {T : Type} (h : t T) (r : ref) (f : T -> T) : t T :=
  fun r' => if Nat.eqb r' r then f (h r) else h r'.

End Store.

(** ** constants.ts *)

Module Constants.
Section Defs.
  Context {F : Type} `{Arith F}.
  Local Open Scope f64_scope.

Definition EPSILON : F := dec 1 6.

Definition inverseLerp (a b value : F) : F :=
  let denom := b - a in
  if denom =? #0 then #0
  else (value - a) / denom.

Definition mod_ `{Rem F} (a b : F) : F :=
  frem (frem a b + b) b.


(** [-e < d < e], the way [Mat4.invert] tests that the magnitude of [d]
    is below [e]. *)
Definition magnitude_below (d e : F) : bool :=
  (d <? e) && (d >? - e).

Definition clamp (value minVal maxVal : F) : F :=
  if value <? minVal then minVal
  else if value >? maxVal then maxVal
  else value.

Definition clamp01 (value : F) : F :=
  if value <? #0 then #0
  else if value >? #1 then #1
  else value.

Definition lerp (a b t : F) : F := a + (b - a) * t.

Definition remap (value fromMin fromMax toMin toMax : F) : F :=
  let t := inverseLerp fromMin fromMax value in
  lerp toMin toMax t.

Definition smoothstep (edge0 edge1 x : F) : F :=
  let t := clamp01 ((x - edge0) / (edge1 - edge0)) in
  t * t * (#3 - #2 * t).

Definition minF64 (a b : F) : F := if a <? b then a else b.

Definition maxF64 (a b : F) : F := if a >? b then a else b.

End Defs.

(** *** 32-bit integer helpers

    The operands of [|], [&] and [>>] are converted to 32-bit signed
    integers ([ToInt32]); [-] and [+] are computed on numbers as they
    are, so the final [v + 1] is not wrapped. *)

Local Open Scope Z_scope.

Definition to_int32 (z : Z) : Z := (z + 2 ^ 31) mod 2 ^ 32 - 2 ^ 31.

Definition nextPowerOfTwo (value : Z) : Z :=
  let v := value - 1 in
  let v := Z.lor (to_int32 v) (to_int32 (Z.shiftr (to_int32 v) 1)) in
  let v := Z.lor (to_int32 v) (to_int32 (Z.shiftr (to_int32 v) 2)) in
  let v := Z.lor (to_int32 v) (to_int32 (Z.shiftr (to_int32 v) 4)) in
  let v := Z.lor (to_int32 v) (to_int32 (Z.shiftr (to_int32 v) 8)) in
  let v := Z.lor (to_int32 v) (to_int32 (Z.shiftr (to_int32 v) 16)) in
  v + 1.

Definition isPowerOfTwo (value : Z) : bool :=
  (0 <? value)
  && (Z.land (to_int32 value) (to_int32 (value - 1)) =? 0).

End Constants.

(** ** Vec3.ts *)

Module Vec3.

Record t (F : Type) : Type := mk { x : F; y : F; z : F }.
Arguments mk {F}.

Section Defs.
  Context {F : Type} `{Arith F}.
  Local Open Scope f64_scope.
  Import Constants.

Definition set (_ : t F) (x' y' z' : F) : t F := mk x' y' z'.

Definition copy (_ v : t F) : t F := mk (x v) (y v) (z v).

Definition add (a v : t F) : t F :=
  mk (x a + x v) (y a + y v) (z a + z v).

Definition mulScalar (a : t F) (s : F) : t F :=
  mk (x a * s) (y a * s) (z a * s).

Definition lerp (a v : t F) (t' : F) : t F :=
  mk (x a + (x v - x a) * t')
     (y a + (y v - y a) * t')
     (z a + (z v - z a) * t').

Definition length (a : t F) : F :=
  fsqrt (x a * x a + y a * y a + z a * z a).

(** [v.normalize()]: the receiver after the call. *)
Definition normalize (a : t F) : t F :=
  let len := length a in
  if len >? EPSILON then
    let invLen := #1 / len in
    mk (x a * invLen) (y a * invLen) (z a * invLen)
  else a.

(** [Vec3.normalize(v, out)]: the output object after the call; every
    field of [out] is overwritten, so its prior content is irrelevant. *)
Definition normalize_static (v : t F) : t F :=
  let len := fsqrt (x v * x v + y v * y v + z v * z v) in
  if len >? EPSILON then
    let invLen := #1 / len in
    mk (x v * invLen) (y v * invLen) (z v * invLen)
  else
    mk #0 #0 #0.

Definition exactEquals (a v : t F) : bool :=
  (x a =? x v) && (y a =? y v) && (z a =? z v).

(** [Vec3.lerp(a, b, t, out)]. *)
Definition lerp_static (a b : t F) (t' : F) : t F :=
  mk (x a + (x b - x a) * t')
     (y a + (y b - y a) * t')
     (z a + (z b - z a) * t').

Definition clone (a : t F) : t F := mk (x a) (y a) (z a).

Definition sub (a v : t F) : t F :=
  mk (x a - x v) (y a - y v) (z a - z v).

Definition negate (a : t F) : t F := mk (- x a) (- y a) (- z a).

Definition dot (a v : t F) : F := x a * x v + y a * y v + z a * z v.

Definition lengthSq (a : t F) : F := x a * x a + y a * y a + z a * z a.

(** [this.crossVectors(a, b)]: the receiver after the call; [a] and [b]
    are read into locals before the receiver is written. *)
Definition crossVectors (_ a b : t F) : t F :=
  let ax := x a in let ay := y a in let az := z a in
  let bx := x b in let by_ := y b in let bz := z b in
  mk (ay * bz - az * by_) (az * bx - ax * bz) (ax * by_ - ay * bx).

Definition cross (a v : t F) : t F := crossVectors a (clone a) v.

Definition cross_static (a b : t F) : t F :=
  let ax := x a in let ay := y a in let az := z a in
  let bx := x b in let by_ := y b in let bz := z b in
  mk (ay * bz - az * by_) (az * bx - ax * bz) (ax * by_ - ay * bx).

Definition reflect (a normal : t F) : t F :=
  let d := #2 * dot a normal in
  mk (x a - x normal * d) (y a - y normal * d) (z a - z normal * d).

Definition reflect_static (v n : t F) : t F :=
  let d := #2 * (x v * x n + y v * y n + z v * z n) in
  mk (x v - x n * d) (y v - y n * d) (z v - z n * d).

Definition project (a v : t F) : t F :=
  let len2 := lengthSq v in
  if len2 <? EPSILON then mk #0 #0 #0
  else
    let scalar := dot a v / len2 in
    mk (x v * scalar) (y v * scalar) (z v * scalar).

Definition projectOnPlane (a planeNormal : t F) : t F :=
  let d := dot a planeNormal in
  mk (x a - x planeNormal * d) (y a - y planeNormal * d)
     (z a - z planeNormal * d).

Definition distanceToSq (a v : t F) : F :=
  let dx := x a - x v in
  let dy := y a - y v in
  let dz := z a - z v in
  dx * dx + dy * dy + dz * dz.

End Defs.
End Vec3.

(** ** Vec4.ts *)

Module Vec4.

Record t (F : Type) : Type := mk { x : F; y : F; z : F; w : F }.
Arguments mk {F}.

End Vec4.

(** ** Mat4.ts *)

Module Mat4.

(** Column-major storage: [mIJ] with [IJ = 4 * column + row]. *)
Record t (F : Type) : Type := mk {
  m00 : F; m01 : F; m02 : F; m03 : F;
  m04 : F; m05 : F; m06 : F; m07 : F;
  m08 : F; m09 : F; m10 : F; m11 : F;
  m12 : F; m13 : F; m14 : F; m15 : F
}.
Arguments mk {F}.

Section Defs.
  Context {F : Type} `{Arith F}.
  Local Open Scope f64_scope.
  Import Constants.

(** [new Mat4()]: the identity. *)
Definition new : t F :=
  mk #1 #0 #0 #0
     #0 #1 #0 #0
     #0 #0 #1 #0
     #0 #0 #0 #1.

Definition identity : t F := new.

Definition determinant (m : t F) : F :=
  let a00 := m00 m in let a01 := m01 m in let a02 := m02 m in let a03 := m03 m in
  let a10 := m04 m in let a11 := m05 m in let a12 := m06 m in let a13 := m07 m in
  let a20 := m08 m in let a21 := m09 m in let a22 := m10 m in let a23 := m11 m in
  let a30 := m12 m in let a31 := m13 m in let a32 := m14 m in let a33 := m15 m in
  let b00 := a00 * a11 - a01 * a10 in
  let b01 := a00 * a12 - a02 * a10 in
  let b02 := a00 * a13 - a03 * a10 in
  let b03 := a01 * a12 - a02 * a11 in
  let b04 := a01 * a13 - a03 * a11 in
  let b05 := a02 * a13 - a03 * a12 in
  let b06 := a20 * a31 - a21 * a30 in
  let b07 := a20 * a32 - a22 * a30 in
  let b08 := a20 * a33 - a23 * a30 in
  let b09 := a21 * a32 - a22 * a31 in
  let b10 := a21 * a33 - a23 * a31 in
  let b11 := a22 * a33 - a23 * a32 in
  b00 * b11 - b01 * b10 + b02 * b09 + b03 * b08 - b04 * b07 + b05 * b06.

(** [m.invert()]: the receiver after the call.  No exception is thrown on
    either path; the function returns [this]. *)
Definition invert (m : t F) : t F :=
  let a00 := m00 m in let a01 := m01 m in let a02 := m02 m in let a03 := m03 m in
  let a10 := m04 m in let a11 := m05 m in let a12 := m06 m in let a13 := m07 m in
  let a20 := m08 m in let a21 := m09 m in let a22 := m10 m in let a23 := m11 m in
  let a30 := m12 m in let a31 := m13 m in let a32 := m14 m in let a33 := m15 m in
  let b00 := a00 * a11 - a01 * a10 in
  let b01 := a00 * a12 - a02 * a10 in
  let b02 := a00 * a13 - a03 * a10 in
  let b03 := a01 * a12 - a02 * a11 in
  let b04 := a01 * a13 - a03 * a11 in
  let b05 := a02 * a13 - a03 * a12 in
  let b06 := a20 * a31 - a21 * a30 in
  let b07 := a20 * a32 - a22 * a30 in
  let b08 := a20 * a33 - a23 * a30 in
  let b09 := a21 * a32 - a22 * a31 in
  let b10 := a21 * a33 - a23 * a31 in
  let b11 := a22 * a33 - a23 * a32 in
  let det := b00 * b11 - b01 * b10 + b02 * b09 + b03 * b08 - b04 * b07 + b05 * b06 in
  if (det <? EPSILON) && (det >? - EPSILON) then
    m (* Non-invertible *)
  else
    let det := #1 / det in
    mk ((a11 * b11 - a12 * b10 + a13 * b09) * det)
       ((a02 * b10 - a01 * b11 - a03 * b09) * det)
       ((a31 * b05 - a32 * b04 + a33 * b03) * det)
       ((a22 * b04 - a21 * b05 - a23 * b03) * det)
       ((a12 * b08 - a10 * b11 - a13 * b07) * det)
       ((a00 * b11 - a02 * b08 + a03 * b07) * det)
       ((a32 * b02 - a30 * b05 - a33 * b01) * det)
       ((a20 * b05 - a22 * b02 + a23 * b01) * det)
       ((a10 * b10 - a11 * b08 + a13 * b06) * det)
       ((a01 * b08 - a00 * b10 - a03 * b06) * det)
       ((a30 * b04 - a31 * b02 + a33 * b00) * det)
       ((a21 * b02 - a20 * b04 - a23 * b00) * det)
       ((a11 * b07 - a10 * b09 - a12 * b06) * det)
       ((a00 * b09 - a01 * b07 + a02 * b06) * det)
       ((a31 * b01 - a30 * b03 - a32 * b00) * det)
       ((a20 * b03 - a21 * b01 + a22 * b00) * det).

(** The sixteen assignments of [invert] below its guard: the cofactor
    expressions, each times the reciprocal of the determinant. *)
Definition invert_body (m : t F) : t F :=
  let a00 := m00 m in let a01 := m01 m in let a02 := m02 m in let a03 := m03 m in
  let a10 := m04 m in let a11 := m05 m in let a12 := m06 m in let a13 := m07 m in
  let a20 := m08 m in let a21 := m09 m in let a22 := m10 m in let a23 := m11 m in
  let a30 := m12 m in let a31 := m13 m in let a32 := m14 m in let a33 := m15 m in
  let b00 := a00 * a11 - a01 * a10 in
  let b01 := a00 * a12 - a02 * a10 in
  let b02 := a00 * a13 - a03 * a10 in
  let b03 := a01 * a12 - a02 * a11 in
  let b04 := a01 * a13 - a03 * a11 in
  let b05 := a02 * a13 - a03 * a12 in
  let b06 := a20 * a31 - a21 * a30 in
  let b07 := a20 * a32 - a22 * a30 in
  let b08 := a20 * a33 - a23 * a30 in
  let b09 := a21 * a32 - a22 * a31 in
  let b10 := a21 * a33 - a23 * a31 in
  let b11 := a22 * a33 - a23 * a32 in
  let det := #1 / determinant m in
  mk ((a11 * b11 - a12 * b10 + a13 * b09) * det)
     ((a02 * b10 - a01 * b11 - a03 * b09) * det)
     ((a31 * b05 - a32 * b04 + a33 * b03) * det)
     ((a22 * b04 - a21 * b05 - a23 * b03) * det)
     ((a12 * b08 - a10 * b11 - a13 * b07) * det)
     ((a00 * b11 - a02 * b08 + a03 * b07) * det)
     ((a32 * b02 - a30 * b05 - a33 * b01) * det)
     ((a20 * b05 - a22 * b02 + a23 * b01) * det)
     ((a10 * b10 - a11 * b08 + a13 * b06) * det)
     ((a01 * b08 - a00 * b10 - a03 * b06) * det)
     ((a30 * b04 - a31 * b02 + a33 * b00) * det)
     ((a21 * b02 - a20 * b04 - a23 * b00) * det)
     ((a11 * b07 - a10 * b09 - a12 * b06) * det)
     ((a00 * b09 - a01 * b07 + a02 * b06) * det)
     ((a31 * b01 - a30 * b03 - a32 * b00) * det)
     ((a20 * b03 - a21 * b01 + a22 * b00) * det).


(** [Mat4.multiply(a, b, out)]: the output object after the call; all 16
    fields are written after [a] has been read into locals. *)
Definition multiply_static (a b : t F) : t F :=
  let a00 := m00 a in let a01 := m01 a in let a02 := m02 a in let a03 := m03 a in
  let a10 := m04 a in let a11 := m05 a in let a12 := m06 a in let a13 := m07 a in
  let a20 := m08 a in let a21 := m09 a in let a22 := m10 a in let a23 := m11 a in
  let a30 := m12 a in let a31 := m13 a in let a32 := m14 a in let a33 := m15 a in
  let bx := m00 b in let by_ := m01 b in let bz := m02 b in let bw := m03 b in
  let o00 := bx * a00 + by_ * a10 + bz * a20 + bw * a30 in
  let o01 := bx * a01 + by_ * a11 + bz * a21 + bw * a31 in
  let o02 := bx * a02 + by_ * a12 + bz * a22 + bw * a32 in
  let o03 := bx * a03 + by_ * a13 + bz * a23 + bw * a33 in
  let bx := m04 b in let by_ := m05 b in let bz := m06 b in let bw := m07 b in
  let o04 := bx * a00 + by_ * a10 + bz * a20 + bw * a30 in
  let o05 := bx * a01 + by_ * a11 + bz * a21 + bw * a31 in
  let o06 := bx * a02 + by_ * a12 + bz * a22 + bw * a32 in
  let o07 := bx * a03 + by_ * a13 + bz * a23 + bw * a33 in
  let bx := m08 b in let by_ := m09 b in let bz := m10 b in let bw := m11 b in
  let o08 := bx * a00 + by_ * a10 + bz * a20 + bw * a30 in
  let o09 := bx * a01 + by_ * a11 + bz * a21 + bw * a31 in
  let o10 := bx * a02 + by_ * a12 + bz * a22 + bw * a32 in
  let o11 := bx * a03 + by_ * a13 + bz * a23 + bw * a33 in
  let bx := m12 b in let by_ := m13 b in let bz := m14 b in let bw := m15 b in
  let o12 := bx * a00 + by_ * a10 + bz * a20 + bw * a30 in
  let o13 := bx * a01 + by_ * a11 + bz * a21 + bw * a31 in
  let o14 := bx * a02 + by_ * a12 + bz * a22 + bw * a32 in
  let o15 := bx * a03 + by_ * a13 + bz * a23 + bw * a33 in
  mk o00 o01 o02 o03 o04 o05 o06 o07 o08 o09 o10 o11 o12 o13 o14 o15.

Definition copy (_ src : t F) : t F :=
  mk (m00 src) (m01 src) (m02 src) (m03 src)
     (m04 src) (m05 src) (m06 src) (m07 src)
     (m08 src) (m09 src) (m10 src) (m11 src)
     (m12 src) (m13 src) (m14 src) (m15 src).

(** [a.multiply(b)] with [b] another object: the receiver after the call. *)
Definition multiply (a b : t F) : t F :=
  let a00 := m00 a in let a01 := m01 a in let a02 := m02 a in let a03 := m03 a in
  let a10 := m04 a in let a11 := m05 a in let a12 := m06 a in let a13 := m07 a in
  let a20 := m08 a in let a21 := m09 a in let a22 := m10 a in let a23 := m11 a in
  let a30 := m12 a in let a31 := m13 a in let a32 := m14 a in let a33 := m15 a in
  let bx := m00 b in let by_ := m01 b in let bz := m02 b in let bw := m03 b in
  let o00 := bx * a00 + by_ * a10 + bz * a20 + bw * a30 in
  let o01 := bx * a01 + by_ * a11 + bz * a21 + bw * a31 in
  let o02 := bx * a02 + by_ * a12 + bz * a22 + bw * a32 in
  let o03 := bx * a03 + by_ * a13 + bz * a23 + bw * a33 in
  let bx := m04 b in let by_ := m05 b in let bz := m06 b in let bw := m07 b in
  let o04 := bx * a00 + by_ * a10 + bz * a20 + bw * a30 in
  let o05 := bx * a01 + by_ * a11 + bz * a21 + bw * a31 in
  let o06 := bx * a02 + by_ * a12 + bz * a22 + bw * a32 in
  let o07 := bx * a03 + by_ * a13 + bz * a23 + bw * a33 in
  let bx := m08 b in let by_ := m09 b in let bz := m10 b in let bw := m11 b in
  let o08 := bx * a00 + by_ * a10 + bz * a20 + bw * a30 in
  let o09 := bx * a01 + by_ * a11 + bz * a21 + bw * a31 in
  let o10 := bx * a02 + by_ * a12 + bz * a22 + bw * a32 in
  let o11 := bx * a03 + by_ * a13 + bz * a23 + bw * a33 in
  let bx := m12 b in let by_ := m13 b in let bz := m14 b in let bw := m15 b in
  let o12 := bx * a00 + by_ * a10 + bz * a20 + bw * a30 in
  let o13 := bx * a01 + by_ * a11 + bz * a21 + bw * a31 in
  let o14 := bx * a02 + by_ * a12 + bz * a22 + bw * a32 in
  let o15 := bx * a03 + by_ * a13 + bz * a23 + bw * a33 in
  mk o00 o01 o02 o03 o04 o05 o06 o07 o08 o09 o10 o11 o12 o13 o14 o15.

(** [a.premultiply(b)]: [Mat4.multiply(b, this, null)] into a fresh
    matrix, then copied back. *)
Definition premultiply (a b : t F) : t F :=
  let temp := multiply_static b a in
  copy a temp.

Definition translate (m : t F) (x y z : F) : t F :=
  mk (m00 m) (m01 m) (m02 m) (m03 m)
     (m04 m) (m05 m) (m06 m) (m07 m)
     (m08 m) (m09 m) (m10 m) (m11 m)
     (m12 m + (m00 m * x + m04 m * y + m08 m * z))
     (m13 m + (m01 m * x + m05 m * y + m09 m * z))
     (m14 m + (m02 m * x + m06 m * y + m10 m * z))
     (m15 m + (m03 m * x + m07 m * y + m11 m * z)).

Definition scale (m : t F) (x y z : F) : t F :=
  mk (m00 m * x) (m01 m * x) (m02 m * x) (m03 m * x)
     (m04 m * y) (m05 m * y) (m06 m * y) (m07 m * y)
     (m08 m * z) (m09 m * z) (m10 m * z) (m11 m * z)
     (m12 m) (m13 m) (m14 m) (m15 m).

(** [m.transpose()]: six swaps through a temporary. *)
Definition transpose (m : t F) : t F :=
  mk (m00 m) (m04 m) (m08 m) (m12 m)
     (m01 m) (m05 m) (m09 m) (m13 m)
     (m02 m) (m06 m) (m10 m) (m14 m)
     (m03 m) (m07 m) (m11 m) (m15 m).

(** [Mat4.transpose(m, out)] with [out] another object than [m]. *)
Definition transpose_static (m : t F) : t F :=
  mk (m00 m) (m04 m) (m08 m) (m12 m)
     (m01 m) (m05 m) (m09 m) (m13 m)
     (m02 m) (m06 m) (m10 m) (m14 m)
     (m03 m) (m07 m) (m11 m) (m15 m).

Definition getTranslation (m : t F) : Vec3.t F :=
  Vec3.mk (m12 m) (m13 m) (m14 m).

Definition getScaling (m : t F) : Vec3.t F :=
  Vec3.mk (fsqrt (m00 m * m00 m + m01 m * m01 m + m02 m * m02 m))
          (fsqrt (m04 m * m04 m + m05 m * m05 m + m06 m * m06 m))
          (fsqrt (m08 m * m08 m + m09 m * m09 m + m10 m * m10 m)).

Definition transformVec3 (m : t F) (v : Vec3.t F) : Vec3.t F :=
  let x := Vec3.x v in let y := Vec3.y v in let z := Vec3.z v in
  let w := #1 / (m03 m * x + m07 m * y + m11 m * z + m15 m) in
  Vec3.mk ((m00 m * x + m04 m * y + m08 m * z + m12 m) * w)
          ((m01 m * x + m05 m * y + m09 m * z + m13 m) * w)
          ((m02 m * x + m06 m * y + m10 m * z + m14 m) * w).

Definition transformVec4 (m : t F) (v : Vec4.t F) : Vec4.t F :=
  let x := Vec4.x v in let y := Vec4.y v in
  let z := Vec4.z v in let w := Vec4.w v in
  Vec4.mk (m00 m * x + m04 m * y + m08 m * z + m12 m * w)
          (m01 m * x + m05 m * y + m09 m * z + m13 m * w)
          (m02 m * x + m06 m * y + m10 m * z + m14 m * w)
          (m03 m * x + m07 m * y + m11 m * z + m15 m * w).

Definition transformDirection (m : t F) (v : Vec3.t F) : Vec3.t F :=
  let x := Vec3.x v in let y := Vec3.y v in let z := Vec3.z v in
  Vec3.mk (m00 m * x + m04 m * y + m08 m * z)
          (m01 m * x + m05 m * y + m09 m * z)
          (m02 m * x + m06 m * y + m10 m * z).

Definition fromTranslation (x y z : F) : t F :=
  mk #1 #0 #0 #0
     #0 #1 #0 #0
     #0 #0 #1 #0
     x y z #1.

Definition fromScaling (x y z : F) : t F :=
  mk x #0 #0 #0
     #0 y #0 #0
     #0 #0 z #0
     #0 #0 #0 #1.

Definition lookAt (eye target up : Vec3.t F) : t F :=
  let eyex := Vec3.x eye in let eyey := Vec3.y eye in let eyez := Vec3.z eye in
  let targetx := Vec3.x target in
  let targety := Vec3.y target in
  let targetz := Vec3.z target in
  let upx := Vec3.x up in let upy := Vec3.y up in let upz := Vec3.z up in
  let zx := eyex - targetx in
  let zy := eyey - targety in
  let zz := eyez - targetz in
  let len := zx * zx + zy * zy + zz * zz in
  let '(zx, zy, zz) :=
    if len >? #0 then
      let len := #1 / fsqrt len in
      (zx * len, zy * len, zz * len)
    else (zx, zy, zz) in
  let xx := upy * zz - upz * zy in
  let xy := upz * zx - upx * zz in
  let xz := upx * zy - upy * zx in
  let len := xx * xx + xy * xy + xz * xz in
  let '(xx, xy, xz) :=
    if len >? #0 then
      let len := #1 / fsqrt len in
      (xx * len, xy * len, xz * len)
    else (xx, xy, xz) in
  let yx := zy * xz - zz * xy in
  let yy := zz * xx - zx * xz in
  let yz := zx * xy - zy * xx in
  mk xx yx zx #0
     xy yy zy #0
     xz yz zz #0
     (- (xx * eyex + xy * eyey + xz * eyez))
     (- (yx * eyex + yy * eyey + yz * eyez))
     (- (zx * eyex + zy * eyey + zz * eyez))
     #1.

Section WithTrig.
  Context `{Trig F}.

Definition rotateX (m : t F) (radians : F) : t F :=
  let c := fcos radians in
  let s := fsin radians in
  let a10 := m04 m in let a11 := m05 m in let a12 := m06 m in let a13 := m07 m in
  let a20 := m08 m in let a21 := m09 m in let a22 := m10 m in let a23 := m11 m in
  mk (m00 m) (m01 m) (m02 m) (m03 m)
     (a10 * c + a20 * s) (a11 * c + a21 * s) (a12 * c + a22 * s) (a13 * c + a23 * s)
     (a20 * c - a10 * s) (a21 * c - a11 * s) (a22 * c - a12 * s) (a23 * c - a13 * s)
     (m12 m) (m13 m) (m14 m) (m15 m).

Definition rotateY (m : t F) (radians : F) : t F :=
  let c := fcos radians in
  let s := fsin radians in
  let a00 := m00 m in let a01 := m01 m in let a02 := m02 m in let a03 := m03 m in
  let a20 := m08 m in let a21 := m09 m in let a22 := m10 m in let a23 := m11 m in
  mk (a00 * c - a20 * s) (a01 * c - a21 * s) (a02 * c - a22 * s) (a03 * c - a23 * s)
     (m04 m) (m05 m) (m06 m) (m07 m)
     (a00 * s + a20 * c) (a01 * s + a21 * c) (a02 * s + a22 * c) (a03 * s + a23 * c)
     (m12 m) (m13 m) (m14 m) (m15 m).

Definition rotateZ (m : t F) (radians : F) : t F :=
  let c := fcos radians in
  let s := fsin radians in
  let a00 := m00 m in let a01 := m01 m in let a02 := m02 m in let a03 := m03 m in
  let a10 := m04 m in let a11 := m05 m in let a12 := m06 m in let a13 := m07 m in
  mk (a00 * c + a10 * s) (a01 * c + a11 * s) (a02 * c + a12 * s) (a03 * c + a13 * s)
     (a10 * c - a00 * s) (a11 * c - a01 * s) (a12 * c - a02 * s) (a13 * c - a03 * s)
     (m08 m) (m09 m) (m10 m) (m11 m)
     (m12 m) (m13 m) (m14 m) (m15 m).

Definition fromRotationX (radians : F) : t F :=
  let c := fcos radians in
  let s := fsin radians in
  mk #1 #0 #0 #0
     #0 c s #0
     #0 (- s) c #0
     #0 #0 #0 #1.

Definition fromRotationY (radians : F) : t F :=
  let c := fcos radians in
  let s := fsin radians in
  mk c #0 (- s) #0
     #0 #1 #0 #0
     s #0 c #0
     #0 #0 #0 #1.

Definition fromRotationZ (radians : F) : t F :=
  let c := fcos radians in
  let s := fsin radians in
  mk c s #0 #0
     (- s) c #0 #0
     #0 #0 #1 #0
     #0 #0 #0 #1.

End WithTrig.

(** Field assignments [m.mIJ = v]. *)
Definition set_m00 (v : F) (m : t F) : t F :=
  mk v (m01 m) (m02 m) (m03 m)
     (m04 m) (m05 m) (m06 m) (m07 m)
     (m08 m) (m09 m) (m10 m) (m11 m)
     (m12 m) (m13 m) (m14 m) (m15 m).

Definition set_m01 (v : F) (m : t F) : t F :=
  mk (m00 m) v (m02 m) (m03 m)
     (m04 m) (m05 m) (m06 m) (m07 m)
     (m08 m) (m09 m) (m10 m) (m11 m)
     (m12 m) (m13 m) (m14 m) (m15 m).

Definition set_m02 (v : F) (m : t F) : t F :=
  mk (m00 m) (m01 m) v (m03 m)
     (m04 m) (m05 m) (m06 m) (m07 m)
     (m08 m) (m09 m) (m10 m) (m11 m)
     (m12 m) (m13 m) (m14 m) (m15 m).

Definition set_m03 (v : F) (m : t F) : t F :=
  mk (m00 m) (m01 m) (m02 m) v
     (m04 m) (m05 m) (m06 m) (m07 m)
     (m08 m) (m09 m) (m10 m) (m11 m)
     (m12 m) (m13 m) (m14 m) (m15 m).

Definition set_m04 (v : F) (m : t F) : t F :=
  mk (m00 m) (m01 m) (m02 m) (m03 m)
     v (m05 m) (m06 m) (m07 m)
     (m08 m) (m09 m) (m10 m) (m11 m)
     (m12 m) (m13 m) (m14 m) (m15 m).

Definition set_m05 (v : F) (m : t F) : t F :=
  mk (m00 m) (m01 m) (m02 m) (m03 m)
     (m04 m) v (m06 m) (m07 m)
     (m08 m) (m09 m) (m10 m) (m11 m)
     (m12 m) (m13 m) (m14 m) (m15 m).

Definition set_m06 (v : F) (m : t F) : t F :=
  mk (m00 m) (m01 m) (m02 m) (m03 m)
     (m04 m) (m05 m) v (m07 m)
     (m08 m) (m09 m) (m10 m) (m11 m)
     (m12 m) (m13 m) (m14 m) (m15 m).

Definition set_m07 (v : F) (m : t F) : t F :=
  mk (m00 m) (m01 m) (m02 m) (m03 m)
     (m04 m) (m05 m) (m06 m) v
     (m08 m) (m09 m) (m10 m) (m11 m)
     (m12 m) (m13 m) (m14 m) (m15 m).

Definition set_m08 (v : F) (m : t F) : t F :=
  mk (m00 m) (m01 m) (m02 m) (m03 m)
     (m04 m) (m05 m) (m06 m) (m07 m)
     v (m09 m) (m10 m) (m11 m)
     (m12 m) (m13 m) (m14 m) (m15 m).

Definition set_m09 (v : F) (m : t F) : t F :=
  mk (m00 m) (m01 m) (m02 m) (m03 m)
     (m04 m) (m05 m) (m06 m) (m07 m)
     (m08 m) v (m10 m) (m11 m)
     (m12 m) (m13 m) (m14 m) (m15 m).

Definition set_m10 (v : F) (m : t F) : t F :=
  mk (m00 m) (m01 m) (m02 m) (m03 m)
     (m04 m) (m05 m) (m06 m) (m07 m)
     (m08 m) (m09 m) v (m11 m)
     (m12 m) (m13 m) (m14 m) (m15 m).

Definition set_m11 (v : F) (m : t F) : t F :=
  mk (m00 m) (m01 m) (m02 m) (m03 m)
     (m04 m) (m05 m) (m06 m) (m07 m)
     (m08 m) (m09 m) (m10 m) v
     (m12 m) (m13 m) (m14 m) (m15 m).

Definition set_m12 (v : F) (m : t F) : t F :=
  mk (m00 m) (m01 m) (m02 m) (m03 m)
     (m04 m) (m05 m) (m06 m) (m07 m)
     (m08 m) (m09 m) (m10 m) (m11 m)
     v (m13 m) (m14 m) (m15 m).

Definition set_m13 (v : F) (m : t F) : t F :=
  mk (m00 m) (m01 m) (m02 m) (m03 m)
     (m04 m) (m05 m) (m06 m) (m07 m)
     (m08 m) (m09 m) (m10 m) (m11 m)
     (m12 m) v (m14 m) (m15 m).

Definition set_m14 (v : F) (m : t F) : t F :=
  mk (m00 m) (m01 m) (m02 m) (m03 m)
     (m04 m) (m05 m) (m06 m) (m07 m)
     (m08 m) (m09 m) (m10 m) (m11 m)
     (m12 m) (m13 m) v (m15 m).

Definition set_m15 (v : F) (m : t F) : t F :=
  mk (m00 m) (m01 m) (m02 m) (m03 m)
     (m04 m) (m05 m) (m06 m) (m07 m)
     (m08 m) (m09 m) (m10 m) (m11 m)
     (m12 m) (m13 m) (m14 m) v.

(** [Mat4.multiply(a, b, out)] on objects in a store; [ra], [rb] and [ro]
    may coincide.  The statements are those of the source, in order. *)
Definition multiply_static_at (ra rb ro : Store.ref) (h : Store.t (t F))
  : Store.t (t F) :=
  let a00 := m00 (h ra) in let a01 := m01 (h ra) in
  let a02 := m02 (h ra) in let a03 := m03 (h ra) in
  let a10 := m04 (h ra) in let a11 := m05 (h ra) in
  let a12 := m06 (h ra) in let a13 := m07 (h ra) in
  let a20 := m08 (h ra) in let a21 := m09 (h ra) in
  let a22 := m10 (h ra) in let a23 := m11 (h ra) in
  let a30 := m12 (h ra) in let a31 := m13 (h ra) in
  let a32 := m14 (h ra) in let a33 := m15 (h ra) in
  let bx := m00 (h rb) in let by_ := m01 (h rb) in
  let bz := m02 (h rb) in let bw := m03 (h rb) in
  let h := Store.write h ro (set_m00 (bx * a00 + by_ * a10 + bz * a20 + bw * a30)) in
  let h := Store.write h ro (set_m01 (bx * a01 + by_ * a11 + bz * a21 + bw * a31)) in
  let h := Store.write h ro (set_m02 (bx * a02 + by_ * a12 + bz * a22 + bw * a32)) in
  let h := Store.write h ro (set_m03 (bx * a03 + by_ * a13 + bz * a23 + bw * a33)) in
  let bx := m04 (h rb) in let by_ := m05 (h rb) in
  let bz := m06 (h rb) in let bw := m07 (h rb) in
  let h := Store.write h ro (set_m04 (bx * a00 + by_ * a10 + bz * a20 + bw * a30)) in
  let h := Store.write h ro (set_m05 (bx * a01 + by_ * a11 + bz * a21 + bw * a31)) in
  let h := Store.write h ro (set_m06 (bx * a02 + by_ * a12 + bz * a22 + bw * a32)) in
  let h := Store.write h ro (set_m07 (bx * a03 + by_ * a13 + bz * a23 + bw * a33)) in
  let bx := m08 (h rb) in let by_ := m09 (h rb) in
  let bz := m10 (h rb) in let bw := m11 (h rb) in
  let h := Store.write h ro (set_m08 (bx * a00 + by_ * a10 + bz * a20 + bw * a30)) in
  let h := Store.write h ro (set_m09 (bx * a01 + by_ * a11 + bz * a21 + bw * a31)) in
  let h := Store.write h ro (set_m10 (bx * a02 + by_ * a12 + bz * a22 + bw * a32)) in
  let h := Store.write h ro (set_m11 (bx * a03 + by_ * a13 + bz * a23 + bw * a33)) in
  let bx := m12 (h rb) in let by_ := m13 (h rb) in
  let bz := m14 (h rb) in let bw := m15 (h rb) in
  let h := Store.write h ro (set_m12 (bx * a00 + by_ * a10 + bz * a20 + bw * a30)) in
  let h := Store.write h ro (set_m13 (bx * a01 + by_ * a11 + bz * a21 + bw * a31)) in
  let h := Store.write h ro (set_m14 (bx * a02 + by_ * a12 + bz * a22 + bw * a32)) in
  let h := Store.write h ro (set_m15 (bx * a03 + by_ * a13 + bz * a23 + bw * a33)) in
  h.



End Defs.
End Mat4.

(** ** Quat.ts *)

Module Quat.

Record t (F : Type) : Type := mk { x : F; y : F; z : F; w : F }.
Arguments mk {F}.

Section Defs.
  Context {F : Type} `{Arith F}.
  Local Open Scope f64_scope.
  Import Constants.

Definition set (_ : t F) (x' y' z' w' : F) : t F := mk x' y' z' w'.

Definition copy (_ q : t F) : t F := mk (x q) (y q) (z q) (w q).

Definition multiply (a q : t F) : t F :=
  let ax := x a in let ay := y a in let az := z a in let aw := w a in
  let bx := x q in let by_ := y q in let bz := z q in let bw := w q in
  mk (ax * bw + aw * bx + ay * bz - az * by_)
     (ay * bw + aw * by_ + az * bx - ax * bz)
     (az * bw + aw * bz + ax * by_ - ay * bx)
     (aw * bw - ax * bx - ay * by_ - az * bz).

Definition length (a : t F) : F :=
  fsqrt (x a * x a + y a * y a + z a * z a + w a * w a).

Definition normalize (a : t F) : t F :=
  let len := fsqrt (x a * x a + y a * y a + z a * z a + w a * w a) in
  if len >? EPSILON then
    let invLen := #1 / len in
    mk (x a * invLen) (y a * invLen) (z a * invLen) (w a * invLen)
  else a.

Definition invert (a : t F) : t F :=
  let len2 := x a * x a + y a * y a + z a * z a + w a * w a in
  if len2 <? EPSILON then a
  else
    let invLen2 := #1 / len2 in
    mk (- x a * invLen2) (- y a * invLen2) (- z a * invLen2) (w a * invLen2).

(** [q.transformVec3(v, out)]: the output vector; [v] is read into locals
    before [out] is written, so [out] may be [v]. *)
Definition transformVec3 (q : t F) (v : Vec3.t F) : Vec3.t F :=
  let x := Vec3.x v in let y := Vec3.y v in let z := Vec3.z v in
  let qx := Quat.x q in let qy := Quat.y q in
  let qz := Quat.z q in let qw := Quat.w q in
  let ix := qw * x + qy * z - qz * y in
  let iy := qw * y + qz * x - qx * z in
  let iz := qw * z + qx * y - qy * x in
  let iw := - qx * x - qy * y - qz * z in
  Vec3.mk (ix * qw + iw * - qx + iy * - qz - iz * - qy)
          (iy * qw + iw * - qy + iz * - qx - ix * - qz)
          (iz * qw + iw * - qz + ix * - qy - iy * - qx).

Definition conjugate (a : t F) : t F := mk (- x a) (- y a) (- z a) (w a).

Definition premultiply (a q : t F) : t F :=
  let ax := x q in let ay := y q in let az := z q in let aw := w q in
  let bx := x a in let by_ := y a in let bz := z a in let bw := w a in
  mk (ax * bw + aw * bx + ay * bz - az * by_)
     (ay * bw + aw * by_ + az * bx - ax * bz)
     (az * bw + aw * bz + ax * by_ - ay * bx)
     (aw * bw - ax * bx - ay * by_ - az * bz).

Definition multiply_static (a b : t F) : t F :=
  let ax := x a in let ay := y a in let az := z a in let aw := w a in
  let bx := x b in let by_ := y b in let bz := z b in let bw := w b in
  mk (ax * bw + aw * bx + ay * bz - az * by_)
     (ay * bw + aw * by_ + az * bx - ax * bz)
     (az * bw + aw * bz + ax * by_ - ay * bx)
     (aw * bw - ax * bx - ay * by_ - az * bz).

Definition lengthSq (a : t F) : F :=
  x a * x a + y a * y a + z a * z a + w a * w a.

Definition invert_static (q : t F) : t F :=
  let len2 := x q * x q + y q * y q + z q * z q + w q * w q in
  if len2 <? EPSILON then mk #0 #0 #0 #1
  else
    let invLen2 := #1 / len2 in
    mk (- x q * invLen2) (- y q * invLen2) (- z q * invLen2) (w q * invLen2).

Definition toMat4 (q : t F) : Mat4.t F :=
  let x := Quat.x q in let y := Quat.y q in
  let z := Quat.z q in let w := Quat.w q in
  let x2 := x + x in let y2 := y + y in let z2 := z + z in
  let xx := x * x2 in let xy := x * y2 in let xz := x * z2 in
  let yy := y * y2 in let yz := y * z2 in let zz := z * z2 in
  let wx := w * x2 in let wy := w * y2 in let wz := w * z2 in
  Mat4.mk (#1 - (yy + zz)) (xy + wz) (xz - wy) #0
          (xy - wz) (#1 - (xx + zz)) (yz + wx) #0
          (xz + wy) (yz - wx) (#1 - (xx + yy)) #0
          #0 #0 #0 #1.

Definition fromRotationMatrix (m : Mat4.t F) : t F :=
  let trace := Mat4.m00 m + Mat4.m05 m + Mat4.m10 m in
  if trace >? #0 then
    let s := dec 5 1 / fsqrt (trace + #1) in
    mk ((Mat4.m06 m - Mat4.m09 m) * s)
       ((Mat4.m08 m - Mat4.m02 m) * s)
       ((Mat4.m01 m - Mat4.m04 m) * s)
       (dec 25 2 / s)
  else if (Mat4.m00 m >? Mat4.m05 m) && (Mat4.m00 m >? Mat4.m10 m) then
    let s := #2 * fsqrt (#1 + Mat4.m00 m - Mat4.m05 m - Mat4.m10 m) in
    mk (dec 25 2 * s)
       ((Mat4.m04 m + Mat4.m01 m) / s)
       ((Mat4.m08 m + Mat4.m02 m) / s)
       ((Mat4.m06 m - Mat4.m09 m) / s)
  else if Mat4.m05 m >? Mat4.m10 m then
    let s := #2 * fsqrt (#1 + Mat4.m05 m - Mat4.m00 m - Mat4.m10 m) in
    mk ((Mat4.m04 m + Mat4.m01 m) / s)
       (dec 25 2 * s)
       ((Mat4.m09 m + Mat4.m06 m) / s)
       ((Mat4.m08 m - Mat4.m02 m) / s)
  else
    let s := #2 * fsqrt (#1 + Mat4.m10 m - Mat4.m00 m - Mat4.m05 m) in
    mk ((Mat4.m08 m + Mat4.m02 m) / s)
       ((Mat4.m09 m + Mat4.m06 m) / s)
       (dec 25 2 * s)
       ((Mat4.m01 m - Mat4.m04 m) / s).

Section WithTrig.
Context `{Trig F}.

Definition rotateX (a : t F) (radians : F) : t F :=
  let halfAngle := radians * dec 5 1 in
  let bx := fsin halfAngle in
  let bw := fcos halfAngle in
  let ax := x a in let ay := y a in let az := z a in let aw := w a in
  mk (ax * bw + aw * bx) (ay * bw + az * bx) (az * bw - ay * bx) (aw * bw - ax * bx).

Definition rotateY (a : t F) (radians : F) : t F :=
  let halfAngle := radians * dec 5 1 in
  let by_ := fsin halfAngle in
  let bw := fcos halfAngle in
  let ax := x a in let ay := y a in let az := z a in let aw := w a in
  mk (ax * bw - az * by_) (ay * bw + aw * by_) (az * bw + ax * by_) (aw * bw - ay * by_).

Definition rotateZ (a : t F) (radians : F) : t F :=
  let halfAngle := radians * dec 5 1 in
  let bz := fsin halfAngle in
  let bw := fcos halfAngle in
  let ax := x a in let ay := y a in let az := z a in let aw := w a in
  mk (ax * bw + ay * bz) (ay * bw - ax * bz) (az * bw + aw * bz) (aw * bw - az * bz).

Definition setFromAxisAngle (_ : t F) (axis : Vec3.t F) (radians : F) : t F :=
  let halfAngle := radians * dec 5 1 in
  let s := fsin halfAngle in
  mk (Vec3.x axis * s) (Vec3.y axis * s) (Vec3.z axis * s) (fcos halfAngle).

Definition setFromEuler (_ : t F) (x' y' z' : F) : t F :=
  let hx := x' * dec 5 1 in
  let hy := y' * dec 5 1 in
  let hz := z' * dec 5 1 in
  let cx := fcos hx in let sx := fsin hx in
  let cy := fcos hy in let sy := fsin hy in
  let cz := fcos hz in let sz := fsin hz in
  mk (sx * cy * cz - cx * sy * sz)
     (cx * sy * cz + sx * cy * sz)
     (cx * cy * sz - sx * sy * cz)
     (cx * cy * cz + sx * sy * sz).

(** [a.slerp(q, t)]: the receiver after the call. *)
Definition slerp (a q : t F) (t' : F) : t F :=
  if t' <=? #0 then a
  else if t' >=? #1 then copy a q
  else
    let ax := x a in let ay := y a in let az := z a in let aw := w a in
    let bx := x q in let by_ := y q in let bz := z q in let bw := w q in
    let cosHalfTheta := ax * bx + ay * by_ + az * bz + aw * bw in
    let '(bx, by_, bz, bw, cosHalfTheta) :=
      if cosHalfTheta <? #0
      then (- bx, - by_, - bz, - bw, - cosHalfTheta)
      else (bx, by_, bz, bw, cosHalfTheta) in
    if cosHalfTheta >=? #1 then a
    else
      let sqrSinHalfTheta := #1 - cosHalfTheta * cosHalfTheta in
      if sqrSinHalfTheta <? dec 1 3 then
        (* Linear interpolation for small angles *)
        normalize (mk (ax + t' * (bx - ax)) (ay + t' * (by_ - ay))
                      (az + t' * (bz - az)) (aw + t' * (bw - aw)))
      else
        let sinHalfTheta := fsqrt sqrSinHalfTheta in
        let halfTheta := fatan2 sinHalfTheta cosHalfTheta in
        let ratioA := fsin ((#1 - t') * halfTheta) / sinHalfTheta in
        let ratioB := fsin (t' * halfTheta) / sinHalfTheta in
        mk (ax * ratioA + bx * ratioB) (ay * ratioA + by_ * ratioB)
           (az * ratioA + bz * ratioB) (aw * ratioA + bw * ratioB).

(** [Quat.slerp(a, b, t, out)] with [out] distinct from [b]: [out] is
    first overwritten with [a], then interpolated in place. *)
Definition slerp_static (a b : t F) (t' : F) (out : t F) : t F :=
  slerp (copy out a) b t'.

Definition fromAxisAngle (axis : Vec3.t F) (radians : F) : t F :=
  let halfAngle := radians * dec 5 1 in
  let s := fsin halfAngle in
  mk (Vec3.x axis * s) (Vec3.y axis * s) (Vec3.z axis * s) (fcos halfAngle).

Definition fromEuler (x' y' z' : F) : t F :=
  let hx := x' * dec 5 1 in
  let hy := y' * dec 5 1 in
  let hz := z' * dec 5 1 in
  let cx := fcos hx in let sx := fsin hx in
  let cy := fcos hy in let sy := fsin hy in
  let cz := fcos hz in let sz := fsin hz in
  mk (sx * cy * cz - cx * sy * sz)
     (cx * sy * cz + sx * cy * sz)
     (cx * cy * sz - sx * sy * cz)
     (cx * cy * cz + sx * sy * sz).

(** [Quat.slerp(a, b, t, out)] on objects in a store: [out.copy(a)], then
    [out.slerp(b, t)], which reads [b] as it then is.  [ra], [rb] and [ro]
    may coincide. *)
Definition slerp_static_at (ra rb ro : Store.ref) (t' : F)
    (h : Store.t (t F)) : Store.t (t F) :=
  let h := Store.write h ro (fun o => copy o (h ra)) in
  let h := Store.write h ro (fun o => slerp o (h rb) t') in
  h.

End WithTrig.
End Defs.
End Quat.

(** ** Transform.ts *)

Module Transform.

(** [_matrix] is [None] for [null]; the matrix object, once allocated, is
    owned by the transform and rewritten in place. *)
Record t (F : Type) : Type := mk {
  position : Vec3.t F;
  rotation : Quat.t F;
  scale : Vec3.t F;
  _matrix : option (Mat4.t F);
  _dirty : bool
}.
Arguments mk {F}.

Section Defs.
  Context {F : Type} `{Arith F} `{Trig F}.
  Local Open Scope f64_scope.

(** [new Transform()]. *)
Definition new : t F :=
  mk (Vec3.mk #0 #0 #0) (Quat.mk #0 #0 #0 #1) (Vec3.mk #1 #1 #1) None true.

Definition markDirty (a : t F) : t F :=
  mk (position a) (rotation a) (scale a) (_matrix a) true.

Definition setIdentity (a : t F) : t F :=
  mk (Vec3.set (position a) #0 #0 #0)
     (Quat.set (rotation a) #0 #0 #0 #1)
     (Vec3.set (scale a) #1 #1 #1)
     (_matrix a) true.

Definition copy (a src : t F) : t F :=
  mk (Vec3.copy (position a) (position src))
     (Quat.copy (rotation a) (rotation src))
     (Vec3.copy (scale a) (scale src))
     (_matrix a) true.

Definition setPosition (a : t F) (x y z : F) : t F :=
  mk (Vec3.set (position a) x y z) (rotation a) (scale a) (_matrix a) true.

Definition setPositionVec (a : t F) (v : Vec3.t F) : t F :=
  mk (Vec3.copy (position a) v) (rotation a) (scale a) (_matrix a) true.

Definition translate (a : t F) (x y z : F) : t F :=
  let p := position a in
  mk (Vec3.mk (Vec3.x p + x) (Vec3.y p + y) (Vec3.z p + z))
     (rotation a) (scale a) (_matrix a) true.

Definition translateVec (a : t F) (v : Vec3.t F) : t F :=
  mk (Vec3.add (position a) v) (rotation a) (scale a) (_matrix a) true.

Definition setRotation (a : t F) (x y z w : F) : t F :=
  mk (position a) (Quat.set (rotation a) x y z w) (scale a) (_matrix a) true.

Definition setRotationQuat (a : t F) (q : Quat.t F) : t F :=
  mk (position a) (Quat.copy (rotation a) q) (scale a) (_matrix a) true.

Definition setEuler (a : t F) (x y z : F) : t F :=
  mk (position a) (Quat.setFromEuler (rotation a) x y z) (scale a)
     (_matrix a) true.

Definition rotateX (a : t F) (radians : F) : t F :=
  mk (position a) (Quat.rotateX (rotation a) radians) (scale a)
     (_matrix a) true.

Definition rotateY (a : t F) (radians : F) : t F :=
  mk (position a) (Quat.rotateY (rotation a) radians) (scale a)
     (_matrix a) true.

Definition rotateZ (a : t F) (radians : F) : t F :=
  mk (position a) (Quat.rotateZ (rotation a) radians) (scale a)
     (_matrix a) true.

(** [this.rotation.setFromAxisAngle(axis, radians).multiply(this.rotation)]:
    [setFromAxisAngle] returns the rotation object it has just overwritten,
    and the argument of [multiply] is that same object. *)
Definition rotateAxisAngle (a : t F) (axis : Vec3.t F) (radians : F) : t F :=
  let r := Quat.setFromAxisAngle (rotation a) axis radians in
  mk (position a) (Quat.multiply r r) (scale a) (_matrix a) true.

Definition setScale (a : t F) (x y z : F) : t F :=
  mk (position a) (rotation a) (Vec3.set (scale a) x y z) (_matrix a) true.

Definition setScaleVec (a : t F) (v : Vec3.t F) : t F :=
  mk (position a) (rotation a) (Vec3.copy (scale a) v) (_matrix a) true.

Definition setScaleScalar (a : t F) (s : F) : t F :=
  mk (position a) (rotation a) (Vec3.set (scale a) s s s) (_matrix a) true.

Definition scaleBy (a : t F) (x y z : F) : t F :=
  let s := scale a in
  mk (position a) (rotation a)
     (Vec3.mk (Vec3.x s * x) (Vec3.y s * y) (Vec3.z s * z))
     (_matrix a) true.

Definition scaleByScalar (a : t F) (s : F) : t F :=
  mk (position a) (rotation a) (Vec3.mulScalar (scale a) s) (_matrix a) true.

(** [a.compose(other)], [other] given by the values of its fields. *)
Definition compose (a other : t F) : t F :=
  let s := scale a in
  let os := scale other in
  let s := Vec3.mk (Vec3.x s * Vec3.x os) (Vec3.y s * Vec3.y os)
                   (Vec3.z s * Vec3.z os) in
  let r := Quat.multiply (rotation a) (rotation other) in
  let rotatedPos := Quat.transformVec3 r (position other) in
  let p := position a in
  let p := Vec3.mk (Vec3.x p + Vec3.x rotatedPos * Vec3.x s)
                   (Vec3.y p + Vec3.y rotatedPos * Vec3.y s)
                   (Vec3.z p + Vec3.z rotatedPos * Vec3.z s) in
  mk p r s (_matrix a) true.

Definition invert (a : t F) : t F :=
  let s := scale a in
  let s := Vec3.mk (#1 / Vec3.x s) (#1 / Vec3.y s) (#1 / Vec3.z s) in
  let r := Quat.invert (rotation a) in
  let p := Vec3.mulScalar (position a) #(-1) in
  let p := Vec3.mk (Vec3.x p * Vec3.x s) (Vec3.y p * Vec3.y s)
                   (Vec3.z p * Vec3.z s) in
  let p := Quat.transformVec3 r p in
  mk p r s (_matrix a) true.

Definition lerp (a other : t F) (t' : F) : t F :=
  mk (Vec3.lerp (position a) (position other) t')
     (Quat.slerp (rotation a) (rotation other) t')
     (Vec3.lerp (scale a) (scale other) t')
     (_matrix a) true.

(** [a.computeMatrix(out)]: [out] after the call; all 16 fields are
    assigned. *)
Definition computeMatrix (a : t F) (out : Mat4.t F) : Mat4.t F :=
  let px := Vec3.x (position a) in
  let py := Vec3.y (position a) in
  let pz := Vec3.z (position a) in
  let sx := Vec3.x (scale a) in
  let sy := Vec3.y (scale a) in
  let sz := Vec3.z (scale a) in
  let x := Quat.x (rotation a) in let y := Quat.y (rotation a) in
  let z := Quat.z (rotation a) in let w := Quat.w (rotation a) in
  let x2 := x + x in let y2 := y + y in let z2 := z + z in
  let xx := x * x2 in let xy := x * y2 in let xz := x * z2 in
  let yy := y * y2 in let yz := y * z2 in let zz := z * z2 in
  let wx := w * x2 in let wy := w * y2 in let wz := w * z2 in
  Mat4.mk ((#1 - (yy + zz)) * sx) ((xy + wz) * sx) ((xz - wy) * sx) #0
          ((xy - wz) * sy) ((#1 - (xx + zz)) * sy) ((yz + wx) * sy) #0
          ((xz + wy) * sz) ((yz - wx) * sz) ((#1 - (xx + yy)) * sz) #0
          px py pz #1.

(** [a.getMatrix()]: the matrix returned and the transform after the call. *)
Definition getMatrix (a : t F) : Mat4.t F * t F :=
  match _matrix a with
  | None =>
      (* _matrix === null: allocate, compute, clear the flag *)
      let m := computeMatrix a Mat4.new in
      (m, mk (position a) (rotation a) (scale a) (Some m) false)
  | Some m0 =>
      if _dirty a then
        let m := computeMatrix a m0 in
        (m, mk (position a) (rotation a) (scale a) (Some m) false)
      else (m0, a)
  end.

(** The public calls that change a transform, with their arguments. *)
Inductive call : Type :=
| CMarkDirty
| CSetIdentity
| CCopy (src : t F)
| CSetPosition (x y z : F)
| CSetPositionVec (v : Vec3.t F)
| CTranslate (x y z : F)
| CTranslateVec (v : Vec3.t F)
| CSetRotation (x y z w : F)
| CSetRotationQuat (q : Quat.t F)
| CSetEuler (x y z : F)
| CRotateX (radians : F)
| CRotateY (radians : F)
| CRotateZ (radians : F)
| CRotateAxisAngle (axis : Vec3.t F) (radians : F)
| CSetScale (x y z : F)
| CSetScaleVec (v : Vec3.t F)
| CSetScaleScalar (s : F)
| CScaleBy (x y z : F)
| CScaleByScalar (s : F)
| CCompose (other : t F)
| CInvert
| CLerp (other : t F) (t' : F)
| CGetMatrix.

Definition is_mutator (c : call) : bool :=
  match c with CGetMatrix => false | _ => true end.

Definition step (a : t F) (c : call) : t F :=
  match c with
  | CMarkDirty => markDirty a
  | CSetIdentity => setIdentity a
  | CCopy src => copy a src
  | CSetPosition x y z => setPosition a x y z
  | CSetPositionVec v => setPositionVec a v
  | CTranslate x y z => translate a x y z
  | CTranslateVec v => translateVec a v
  | CSetRotation x y z w => setRotation a x y z w
  | CSetRotationQuat q => setRotationQuat a q
  | CSetEuler x y z => setEuler a x y z
  | CRotateX r => rotateX a r
  | CRotateY r => rotateY a r
  | CRotateZ r => rotateZ a r
  | CRotateAxisAngle axis r => rotateAxisAngle a axis r
  | CSetScale x y z => setScale a x y z
  | CSetScaleVec v => setScaleVec a v
  | CSetScaleScalar s => setScaleScalar a s
  | CScaleBy x y z => scaleBy a x y z
  | CScaleByScalar s => scaleByScalar a s
  | CCompose other => compose a other
  | CInvert => invert a
  | CLerp other t' => lerp a other t'
  | CGetMatrix => snd (getMatrix a)
  end.

(** A transform after a sequence of calls, first call first. *)
Definition run (a : t F) (cs : list call) : t F := fold_left step cs a.

Definition transformPoint (a : t F) (v : Vec3.t F) : Vec3.t F :=
  (* Scale *)
  let sx := Vec3.x v * Vec3.x (scale a) in
  let sy := Vec3.y v * Vec3.y (scale a) in
  let sz := Vec3.z v * Vec3.z (scale a) in
  (* Rotate *)
  let qx := Quat.x (rotation a) in let qy := Quat.y (rotation a) in
  let qz := Quat.z (rotation a) in let qw := Quat.w (rotation a) in
  let ix := qw * sx + qy * sz - qz * sy in
  let iy := qw * sy + qz * sx - qx * sz in
  let iz := qw * sz + qx * sy - qy * sx in
  let iw := - qx * sx - qy * sy - qz * sz in
  Vec3.mk (ix * qw + iw * - qx + iy * - qz - iz * - qy + Vec3.x (position a))
          (iy * qw + iw * - qy + iz * - qx - ix * - qz + Vec3.y (position a))
          (iz * qw + iw * - qz + ix * - qy - iy * - qx + Vec3.z (position a)).

End Defs.
End Transform.

(** ** AABB.ts *)

Module AABB.

Record t (F : Type) : Type := mk { min : Vec3.t F; max : Vec3.t F }.
Arguments mk {F}.

Section Defs.
  Context {F : Type} `{Arith F} `{Inf F}.
  Local Open Scope f64_scope.

(** [new AABB()]: the "empty" (inverted) box. *)
Definition new : t F :=
  mk (Vec3.mk Infinity Infinity Infinity)
     (Vec3.mk (- Infinity) (- Infinity) (- Infinity)).

Definition expandByPoint (b : t F) (x y z : F) : t F :=
  let mn := min b in
  let mx := max b in
  let mn := if x <? Vec3.x mn then Vec3.mk x (Vec3.y mn) (Vec3.z mn) else mn in
  let mn := if y <? Vec3.y mn then Vec3.mk (Vec3.x mn) y (Vec3.z mn) else mn in
  let mn := if z <? Vec3.z mn then Vec3.mk (Vec3.x mn) (Vec3.y mn) z else mn in
  let mx := if x >? Vec3.x mx then Vec3.mk x (Vec3.y mx) (Vec3.z mx) else mx in
  let mx := if y >? Vec3.y mx then Vec3.mk (Vec3.x mx) y (Vec3.z mx) else mx in
  let mx := if z >? Vec3.z mx then Vec3.mk (Vec3.x mx) (Vec3.y mx) z else mx in
  mk mn mx.

Definition expandByPointVec (b : t F) (p : Vec3.t F) : t F :=
  expandByPoint b (Vec3.x p) (Vec3.y p) (Vec3.z p).

Definition isEmpty (b : t F) : bool :=
  (Vec3.x (max b) <? Vec3.x (min b))
  || (Vec3.y (max b) <? Vec3.y (min b))
  || (Vec3.z (max b) <? Vec3.z (min b)).

Definition containsPoint (b : t F) (x y z : F) : bool :=
  (x >=? Vec3.x (min b)) && (x <=? Vec3.x (max b)) &&
  (y >=? Vec3.y (min b)) && (y <=? Vec3.y (max b)) &&
  (z >=? Vec3.z (min b)) && (z <=? Vec3.z (max b)).

Definition containsPointVec (b : t F) (p : Vec3.t F) : bool :=
  containsPoint b (Vec3.x p) (Vec3.y p) (Vec3.z p).

Definition fromMinMax (minX minY minZ maxX maxY maxZ : F) : t F :=
  mk (Vec3.set (min new) minX minY minZ) (Vec3.set (max new) maxX maxY maxZ).

Definition union (b other : t F) : t F :=
  let mn := min b in
  let mx := max b in
  let omn := min other in
  let omx := max other in
  let mn := if Vec3.x omn <? Vec3.x mn then Vec3.mk (Vec3.x omn) (Vec3.y mn) (Vec3.z mn) else mn in
  let mn := if Vec3.y omn <? Vec3.y mn then Vec3.mk (Vec3.x mn) (Vec3.y omn) (Vec3.z mn) else mn in
  let mn := if Vec3.z omn <? Vec3.z mn then Vec3.mk (Vec3.x mn) (Vec3.y mn) (Vec3.z omn) else mn in
  let mx := if Vec3.x omx >? Vec3.x mx then Vec3.mk (Vec3.x omx) (Vec3.y mx) (Vec3.z mx) else mx in
  let mx := if Vec3.y omx >? Vec3.y mx then Vec3.mk (Vec3.x mx) (Vec3.y omx) (Vec3.z mx) else mx in
  let mx := if Vec3.z omx >? Vec3.z mx then Vec3.mk (Vec3.x mx) (Vec3.y mx) (Vec3.z omx) else mx in
  mk mn mx.

Definition intersect (b other : t F) : t F :=
  let mn := min b in
  let mx := max b in
  let omn := min other in
  let omx := max other in
  let mn := if Vec3.x omn >? Vec3.x mn then Vec3.mk (Vec3.x omn) (Vec3.y mn) (Vec3.z mn) else mn in
  let mn := if Vec3.y omn >? Vec3.y mn then Vec3.mk (Vec3.x mn) (Vec3.y omn) (Vec3.z mn) else mn in
  let mn := if Vec3.z omn >? Vec3.z mn then Vec3.mk (Vec3.x mn) (Vec3.y mn) (Vec3.z omn) else mn in
  let mx := if Vec3.x omx <? Vec3.x mx then Vec3.mk (Vec3.x omx) (Vec3.y mx) (Vec3.z mx) else mx in
  let mx := if Vec3.y omx <? Vec3.y mx then Vec3.mk (Vec3.x mx) (Vec3.y omx) (Vec3.z mx) else mx in
  let mx := if Vec3.z omx <? Vec3.z mx then Vec3.mk (Vec3.x mx) (Vec3.y mx) (Vec3.z omx) else mx in
  mk mn mx.

Definition containsAABB (b other : t F) : bool :=
  (Vec3.x (min other) >=? Vec3.x (min b)) && (Vec3.x (max other) <=? Vec3.x (max b)) &&
  (Vec3.y (min other) >=? Vec3.y (min b)) && (Vec3.y (max other) <=? Vec3.y (max b)) &&
  (Vec3.z (min other) >=? Vec3.z (min b)) && (Vec3.z (max other) <=? Vec3.z (max b)).

Definition intersectsAABB (b other : t F) : bool :=
  (Vec3.x (max b) >=? Vec3.x (min other)) && (Vec3.x (min b) <=? Vec3.x (max other)) &&
  (Vec3.y (max b) >=? Vec3.y (min other)) && (Vec3.y (min b) <=? Vec3.y (max other)) &&
  (Vec3.z (max b) >=? Vec3.z (min other)) && (Vec3.z (min b) <=? Vec3.z (max other)).

Definition distanceToPointSq (b : t F) (x y z : F) : F :=
  let dx := if x <? Vec3.x (min b) then Vec3.x (min b) - x
            else if x >? Vec3.x (max b) then x - Vec3.x (max b) else #0 in
  let dy := if y <? Vec3.y (min b) then Vec3.y (min b) - y
            else if y >? Vec3.y (max b) then y - Vec3.y (max b) else #0 in
  let dz := if z <? Vec3.z (min b) then Vec3.z (min b) - z
            else if z >? Vec3.z (max b) then z - Vec3.z (max b) else #0 in
  dx * dx + dy * dy + dz * dz.

Definition clampPoint (b : t F) (x y z : F) : Vec3.t F :=
  Vec3.mk
    (if x <? Vec3.x (min b) then Vec3.x (min b)
     else if x >? Vec3.x (max b) then Vec3.x (max b) else x)
    (if y <? Vec3.y (min b) then Vec3.y (min b)
     else if y >? Vec3.y (max b) then Vec3.y (max b) else y)
    (if z <? Vec3.z (min b) then Vec3.z (min b)
     else if z >? Vec3.z (max b) then Vec3.z (max b) else z).

Definition union_static (a b : t F) : t F :=
  mk (Vec3.mk (if Vec3.x (min a) <? Vec3.x (min b) then Vec3.x (min a) else Vec3.x (min b))
              (if Vec3.y (min a) <? Vec3.y (min b) then Vec3.y (min a) else Vec3.y (min b))
              (if Vec3.z (min a) <? Vec3.z (min b) then Vec3.z (min a) else Vec3.z (min b)))
     (Vec3.mk (if Vec3.x (max a) >? Vec3.x (max b) then Vec3.x (max a) else Vec3.x (max b))
              (if Vec3.y (max a) >? Vec3.y (max b) then Vec3.y (max a) else Vec3.y (max b))
              (if Vec3.z (max a) >? Vec3.z (max b) then Vec3.z (max a) else Vec3.z (max b))).

Definition intersection_static (a b : t F) : t F :=
  mk (Vec3.mk (if Vec3.x (min a) >? Vec3.x (min b) then Vec3.x (min a) else Vec3.x (min b))
              (if Vec3.y (min a) >? Vec3.y (min b) then Vec3.y (min a) else Vec3.y (min b))
              (if Vec3.z (min a) >? Vec3.z (min b) then Vec3.z (min a) else Vec3.z (min b)))
     (Vec3.mk (if Vec3.x (max a) <? Vec3.x (max b) then Vec3.x (max a) else Vec3.x (max b))
              (if Vec3.y (max a) <? Vec3.y (max b) then Vec3.y (max a) else Vec3.y (max b))
              (if Vec3.z (max a) <? Vec3.z (max b) then Vec3.z (max a) else Vec3.z (max b))).

End Defs.
End AABB.

(** ** Ray.ts *)

Module Ray.

Record t (F : Type) : Type := mk { origin : Vec3.t F; direction : Vec3.t F }.
Arguments mk {F}.

Section Defs.
  Context {F : Type} `{Arith F} `{Inf F}.
  Local Open Scope f64_scope.

(** [Ray.fromVecs(origin, direction)]: the direction is normalized. *)
Definition fromVecs (o d : Vec3.t F) : t F :=
  mk (Vec3.copy (Vec3.mk #0 #0 #0) o)
     (Vec3.normalize (Vec3.copy (Vec3.mk #0 #0 #1) d)).

(** The slab parameters [(tmin, tmax)] of [intersectAABB] just before its
    final test. *)
Definition slabs (r : t F) (aabb : AABB.t F) : F * F :=
  let ox := Vec3.x (origin r) in
  let oy := Vec3.y (origin r) in
  let oz := Vec3.z (origin r) in
  let dx := Vec3.x (direction r) in
  let dy := Vec3.y (direction r) in
  let dz := Vec3.z (direction r) in
  let invDx := if dx =? #0 then Infinity else #1 / dx in
  let invDy := if dy =? #0 then Infinity else #1 / dy in
  let invDz := if dz =? #0 then Infinity else #1 / dz in
  let t1 := (Vec3.x (AABB.min aabb) - ox) * invDx in
  let t2 := (Vec3.x (AABB.max aabb) - ox) * invDx in
  let t3 := (Vec3.y (AABB.min aabb) - oy) * invDy in
  let t4 := (Vec3.y (AABB.max aabb) - oy) * invDy in
  let t5 := (Vec3.z (AABB.min aabb) - oz) * invDz in
  let t6 := (Vec3.z (AABB.max aabb) - oz) * invDz in
  let tmin1 := if t1 <? t2 then t1 else t2 in
  let tmax1 := if t1 >? t2 then t1 else t2 in
  let tmin2 := if t3 <? t4 then t3 else t4 in
  let tmax2 := if t3 >? t4 then t3 else t4 in
  let tmin3 := if t5 <? t6 then t5 else t6 in
  let tmax3 := if t5 >? t6 then t5 else t6 in
  let tmin := tmin1 in
  let tmin := if tmin2 >? tmin then tmin2 else tmin in
  let tmin := if tmin3 >? tmin then tmin3 else tmin in
  let tmax := tmax1 in
  let tmax := if tmax2 <? tmax then tmax2 else tmax in
  let tmax := if tmax3 <? tmax then tmax3 else tmax in
  (tmin, tmax).

Definition intersectAABB (r : t F) (aabb : AABB.t F) : F :=
  let '(tmin, tmax) := slabs r aabb in
  if (tmax <? #0) || (tmin >? tmax) then #(-1)
  else if tmin >=? #0 then tmin else tmax.

Definition intersectsAABB (r : t F) (aabb : AABB.t F) : bool :=
  intersectAABB r aabb >=? #0.

Definition getPoint (r : t F) (t' : F) : Vec3.t F :=
  Vec3.mk (Vec3.x (origin r) + Vec3.x (direction r) * t')
          (Vec3.y (origin r) + Vec3.y (direction r) * t')
          (Vec3.z (origin r) + Vec3.z (direction r) * t').

Definition intersectSphere (r : t F) (centerX centerY centerZ radius : F) : F :=
  let ox := Vec3.x (origin r) - centerX in
  let oy := Vec3.y (origin r) - centerY in
  let oz := Vec3.z (origin r) - centerZ in
  let a := Vec3.x (direction r) * Vec3.x (direction r)
           + Vec3.y (direction r) * Vec3.y (direction r)
           + Vec3.z (direction r) * Vec3.z (direction r) in
  let b := #2 * (ox * Vec3.x (direction r) + oy * Vec3.y (direction r)
                 + oz * Vec3.z (direction r)) in
  let c := ox * ox + oy * oy + oz * oz - radius * radius in
  let discriminant := b * b - #4 * a * c in
  if discriminant <? #0 then #(-1)
  else
    let sqrtD := fsqrt discriminant in
    let t1 := (- b - sqrtD) / (#2 * a) in
    let t2 := (- b + sqrtD) / (#2 * a) in
    if t1 >=? #0 then t1
    else if t2 >=? #0 then t2
    else #(-1).

Definition intersectPlane (r : t F) (nx ny nz d : F) : F :=
  let denom := nx * Vec3.x (direction r) + ny * Vec3.y (direction r)
               + nz * Vec3.z (direction r) in
  if (denom >? - Constants.EPSILON) && (denom <? Constants.EPSILON) then
    #(-1) (* Parallel *)
  else
    let t' := - (nx * Vec3.x (origin r) + ny * Vec3.y (origin r)
                 + nz * Vec3.z (origin r) + d) / denom in
    if t' >=? #0 then t' else #(-1).

Definition intersectTriangle (r : t F) (v0 v1 v2 : Vec3.t F) : F :=
  let edge1x := Vec3.x v1 - Vec3.x v0 in
  let edge1y := Vec3.y v1 - Vec3.y v0 in
  let edge1z := Vec3.z v1 - Vec3.z v0 in
  let edge2x := Vec3.x v2 - Vec3.x v0 in
  let edge2y := Vec3.y v2 - Vec3.y v0 in
  let edge2z := Vec3.z v2 - Vec3.z v0 in
  (* P = D x edge2 *)
  let px := Vec3.y (direction r) * edge2z - Vec3.z (direction r) * edge2y in
  let py := Vec3.z (direction r) * edge2x - Vec3.x (direction r) * edge2z in
  let pz := Vec3.x (direction r) * edge2y - Vec3.y (direction r) * edge2x in
  let det := edge1x * px + edge1y * py + edge1z * pz in
  if (det >? - Constants.EPSILON) && (det <? Constants.EPSILON) then
    #(-1) (* Ray parallel to triangle *)
  else
    let invDet := #1 / det in
    (* T = O - v0 *)
    let tx := Vec3.x (origin r) - Vec3.x v0 in
    let ty := Vec3.y (origin r) - Vec3.y v0 in
    let tz := Vec3.z (origin r) - Vec3.z v0 in
    let u := (tx * px + ty * py + tz * pz) * invDet in
    if (u <? #0) || (u >? #1) then #(-1)
    else
      (* Q = T x edge1 *)
      let qx := ty * edge1z - tz * edge1y in
      let qy := tz * edge1x - tx * edge1z in
      let qz := tx * edge1y - ty * edge1x in
      let v := (Vec3.x (direction r) * qx + Vec3.y (direction r) * qy
                + Vec3.z (direction r) * qz) * invDet in
      if (v <? #0) || (u + v >? #1) then #(-1)
      else
        let t' := (edge2x * qx + edge2y * qy + edge2z * qz) * invDet in
        if t' >=? #0 then t' else #(-1).

End Defs.
End Ray.

(** ** Vocabulary of the statements *)

Module Spec.

(** The coordinate axes, to name "the corresponding component". *)
Inductive axis : Type := X | Y | Z.

Definition component {F : Type} (k : axis) (v : Vec3.t F) : F :=
  match k with X => Vec3.x v | Y => Vec3.y v | Z => Vec3.z v end.

Section Cache.
  Context {F : Type} `{Arith F}.

(** The cache of a transform is trusted only when the dirty flag is
    clear; then it holds the matrix of the current position, rotation and
    scale. *)
Definition cache_valid (a : Transform.t F) : Prop :=
  Transform._dirty a = false ->
  forall m, Transform._matrix a = Some m ->
            m = Transform.computeMatrix a Mat4.new.

End Cache.

Section Exact.
  Local Open Scope R_scope.

(** Unit length, stated on the squared length. *)
Definition unit_quat (q : Quat.t R) : Prop :=
  Quat.x q * Quat.x q + Quat.y q * Quat.y q + Quat.z q * Quat.z q
  + Quat.w q * Quat.w q = 1.


End Exact.
End Spec.

(** ** The order of binary64 values

    Comparisons involve no rounding.  Every value other than NaN gets a
    rank in Z^3, ordered lexicographically: sign class, then exponent,
    then mantissa (the latter two negated for negative values). *)

Module F64Rank.
Local Open Scope Z_scope.

Definition rank (x : spec_float) : Z * Z * Z :=
  match x with
  | S754_zero _ => (0, 0, 0)
  | S754_infinity false => (2, 0, 0)
  | S754_infinity true => (-2, 0, 0)
  | S754_nan => (0, 0, 0)
  | S754_finite false m e => (1, e, Zpos m)
  | S754_finite true m e => (-1, - e, Zneg m)
  end.

Definition lex_lt (a b : Z * Z * Z) : Prop :=
  let '(a1, a2, a3) := a in
  let '(b1, b2, b3) := b in
  a1 < b1 \/ (a1 = b1 /\ (a2 < b2 \/ (a2 = b2 /\ a3 < b3))).

Definition lex_le (a b : Z * Z * Z) : Prop :=
  let '(a1, a2, a3) := a in
  let '(b1, b2, b3) := b in
  a1 < b1 \/ (a1 = b1 /\ (a2 < b2 \/ (a2 = b2 /\ a3 <= b3))).

Definition key (x : float) : Z * Z * Z := rank (Prim2SF x).

End F64Rank.

(** ** Vocabulary of the further statements *)

Module Spec2.

(** No component is NaN. *)
Definition vec_ordered (v : Vec3.t float) : Prop :=
  is_nan (Vec3.x v) = false /\ is_nan (Vec3.y v) = false
  /\ is_nan (Vec3.z v) = false.

Definition box_ordered (b : AABB.t float) : Prop :=
  vec_ordered (AABB.min b) /\ vec_ordered (AABB.max b).

(** Bit patterns of the integers that [nextPowerOfTwo] goes through: the
    bits above [n] are clear; the bits [lo .. n] are set. *)
Definition bits_clear_above (n v : Z) : Prop :=
  forall i : Z, (n < i)%Z -> Z.testbit v i = false.

Definition bits_set_between (lo n v : Z) : Prop :=
  forall i : Z, (0 <= i)%Z -> (lo <= i <= n)%Z -> Z.testbit v i = true.

End Spec2.

(** * Properties *)

Unset Implicit Arguments.

(** ** Facts about binary64 values, from the specification of the primitives *)

Module F64Facts.
  Local Open Scope float_scope.

Lemma is_nan_spec x :
  is_nan x = match Prim2SF x with S754_nan => true | _ => false end.
Proof.
  unfold is_nan. rewrite FloatAxioms.eqb_spec.
  destruct (Prim2SF x) as [s|s| |s m e]; try destruct s; simpl; try reflexivity.
  all: unfold SFeqb, SFcompare;
    rewrite Z.compare_refl, Pos.compare_cont_refl; reflexivity.
Qed.

Lemma is_infinity_spec x :
  is_infinity x = match Prim2SF x with S754_infinity _ => true | _ => false end.
Proof.
  unfold is_infinity. rewrite FloatAxioms.eqb_spec, FloatAxioms.abs_spec.
  destruct (Prim2SF x) as [s|s| |s m e]; try destruct s; reflexivity.
Qed.

Lemma is_zero_spec x :
  is_zero x = match Prim2SF x with S754_zero _ => true | _ => false end.
Proof.
  unfold is_zero. rewrite FloatAxioms.eqb_spec.
  destruct (Prim2SF x) as [s|s| |s m e]; try destruct s; reflexivity.
Qed.

Lemma is_finite_spec x :
  is_finite x =
  match Prim2SF x with S754_zero _ | S754_finite _ _ _ => true | _ => false end.
Proof.
  unfold is_finite. rewrite is_nan_spec, is_infinity_spec.
  destruct (Prim2SF x); reflexivity.
Qed.

Ltac by_cases x :=
  destruct (Prim2SF x) as [[|]|[|]| |[|] ? ?]; try discriminate; try reflexivity.

Lemma finite_lt_infinity x : is_finite x = true -> (x <? infinity) = true.
Proof. rewrite is_finite_spec, FloatAxioms.ltb_spec. by_cases x. Qed.

Lemma finite_gt_neg_infinity x : is_finite x = true -> (- infinity <? x) = true.
Proof. rewrite is_finite_spec, FloatAxioms.ltb_spec. by_cases x. Qed.

Lemma ltb_irrefl x : (x <? x) = false.
Proof.
  rewrite FloatAxioms.ltb_spec. by_cases x.
  all: unfold SFltb, SFcompare;
    rewrite Z.compare_refl, Pos.compare_cont_refl; reflexivity.
Qed.

Lemma finite_leb_refl x : is_finite x = true -> (x <=? x) = true.
Proof.
  rewrite is_finite_spec, FloatAxioms.leb_spec. by_cases x.
  all: intros _; unfold SFleb, SFcompare;
    rewrite Z.compare_refl, Pos.compare_cont_refl; reflexivity.
Qed.

(** [1 / 0] and [1 / -0] are the infinities. *)
Lemma one_div_zero s : is_zero s = true -> is_infinity (1 / s) = true.
Proof.
  rewrite is_zero_spec, is_infinity_spec, FloatAxioms.div_spec. by_cases s.
Qed.

Lemma infinity_not_finite x : is_infinity x = true -> is_finite x = false.
Proof. rewrite is_infinity_spec, is_finite_spec. by_cases x. Qed.

(** [x - x] is [+0] for finite [x] (and NaN otherwise). *)
Lemma finite_sub_diag x : is_finite x = true -> (x - x =? 0) = true.
Proof.
  rewrite is_finite_spec, FloatAxioms.eqb_spec, FloatAxioms.sub_spec.
  destruct (Prim2SF x) as [[|]|s| |s m e]; try discriminate; try reflexivity.
  intros _. unfold SF64sub, SFsub. rewrite Z.sub_diag. reflexivity.
Qed.


Lemma EPSILON_binary64 : Constants.EPSILON = 0x1.0c6f7a0b5ed8dp-20.
Proof. vm_compute. reflexivity. Qed.

(** The two-sided test of [Mat4.invert] is [|d| < EPSILON]. *)
Lemma magnitude_below_EPSILON d :
  Constants.magnitude_below d Constants.EPSILON = (abs d <? Constants.EPSILON).
Proof.
  unfold Constants.magnitude_below. rewrite EPSILON_binary64.
  cbn [flt fneg F64.arith].
  rewrite !FloatAxioms.ltb_spec, FloatAxioms.abs_spec.
  rewrite FloatAxioms.opp_spec.
  change (Prim2SF 0x1.0c6f7a0b5ed8dp-20)
    with (S754_finite false 4722366482869645 (-72)).
  cbn [SFopp negb].
  destruct (Prim2SF d) as [[|]|[|]| |[|] m e]; try reflexivity.
  - unfold SFltb, SFabs, SFcompare.
    rewrite (Z.compare_antisym e (-72)), Pos.compare_cont_antisym.
    destruct (e ?= -72)%Z; reflexivity.
  - unfold SFltb, SFabs, SFcompare.
    destruct (e ?= -72)%Z; cbn [andb]; try reflexivity.
    destruct (Pos.compare_cont Eq m 4722366482869645); reflexivity.
Qed.

End F64Facts.

(** ** Facts about the exact interpretation *)

Module ExactFacts.
  Local Open Scope R_scope.

Lemma ltb_true a b : Exact.ltb a b = true <-> a < b.
Proof. unfold Exact.ltb. destruct (Rlt_dec a b); intuition discriminate. Qed.

Lemma ltb_false a b : Exact.ltb a b = false <-> b <= a.
Proof.
  unfold Exact.ltb. destruct (Rlt_dec a b); split; intros;
    try discriminate; try lra; reflexivity.
Qed.

Lemma leb_true a b : Exact.leb a b = true <-> a <= b.
Proof. unfold Exact.leb. destruct (Rle_dec a b); intuition discriminate. Qed.

Lemma leb_false a b : Exact.leb a b = false <-> b < a.
Proof.
  unfold Exact.leb. destruct (Rle_dec a b); split; intros;
    try discriminate; try lra; reflexivity.
Qed.

Lemma eqb_true a b : Exact.eqb a b = true <-> a = b.
Proof. unfold Exact.eqb. destruct (Req_dec_T a b); intuition discriminate. Qed.

Lemma dec_value m k : dec m k = IZR m / IZR (10 ^ Z.of_nat k).
Proof. reflexivity. Qed.

Lemma EPSILON_real : Constants.EPSILON = 1 / 1000000.
Proof.
  unfold Constants.EPSILON. rewrite dec_value.
  replace (10 ^ Z.of_nat 6)%Z with 1000000%Z by (vm_compute; reflexivity).
  reflexivity.
Qed.

Lemma EPSILON_pos : 0 < Constants.EPSILON.
Proof. rewrite EPSILON_real. lra. Qed.

Lemma magnitude_below_Rabs d e :
  Constants.magnitude_below d e = true <-> Rabs d < e.
Proof.
  unfold Constants.magnitude_below. cbn [flt fneg Exact.arith].
  rewrite andb_true_iff, !ltb_true.
  split.
  - intros [? ?]. apply Rabs_def1; lra.
  - intros Hd. apply Rabs_def2 in Hd. lra.
Qed.

End ExactFacts.

(** ** Mat4: invert and its guard *)

Lemma Mat4_invert_unfold {F} `{Arith F} (m : Mat4.t F) :
  Mat4.invert m =
  if Constants.magnitude_below (Mat4.determinant m) Constants.EPSILON
  then m else Mat4.invert_body m.
Proof. reflexivity. Qed.

(** C1, counterexample: the identity matrix has determinant 1, well above
    1e-6, and [invert] still leaves all 16 components as they were (the
    identity is its own inverse).  So "unchanged" does not characterise a
    determinant below epsilon. *)
Lemma Mat4_invert_identity_unchanged :
  Mat4.determinant (Mat4.identity (F:=float)) = 1%float
  /\ PrimFloat.ltb (PrimFloat.abs (Mat4.determinant (Mat4.identity (F:=float))))
       Constants.EPSILON = false
  /\ Mat4.invert (Mat4.identity (F:=float)) = Mat4.identity.
Proof. repeat split; vm_compute; reflexivity. Qed.

(** C1 (amended): [invert] returns through its no-op branch, leaving all 16
    components unchanged, exactly when the value of [determinant()] lies
    strictly between [-EPSILON] and [EPSILON]; otherwise it overwrites the
    components with the cofactor expressions times [1 / determinant()].
    The test is [|determinant()| < 1e-6], both on binary64 and on the reals. *)
Theorem Mat4_invert_guard_is_determinant :
  (forall (F : Type) (A : Arith F) (m : Mat4.t F),
     Mat4.invert m =
     if Constants.magnitude_below (Mat4.determinant m) Constants.EPSILON
     then m else Mat4.invert_body m)
  /\ (forall d : float,
        Constants.magnitude_below d Constants.EPSILON =
        PrimFloat.ltb (PrimFloat.abs d) Constants.EPSILON)
  /\ (forall d : R,
        Constants.magnitude_below d Constants.EPSILON = true <->
        (Rabs d < 1 / 1000000)%R).
Proof.
  split; [|split].
  - intros F A m. apply Mat4_invert_unfold.
  - exact F64Facts.magnitude_below_EPSILON.
  - intros d. rewrite <- ExactFacts.EPSILON_real.
    apply ExactFacts.magnitude_below_Rabs.
Qed.

(** ** Mat4: the product of a matrix and its inverse *)

Section Mat4OnBinary64.
  Local Open Scope float_scope.


End Mat4OnBinary64.

Section ExactMat4.
  Local Open Scope R_scope.




Lemma Mat4_mk_eq (a0 a1 a2 a3 a4 a5 a6 a7 a8 a9 a10 a11 a12 a13 a14 a15
                  b0 b1 b2 b3 b4 b5 b6 b7 b8 b9 b10 b11 b12 b13 b14 b15 : R) :
  a0 = b0 -> a1 = b1 -> a2 = b2 -> a3 = b3 ->
  a4 = b4 -> a5 = b5 -> a6 = b6 -> a7 = b7 ->
  a8 = b8 -> a9 = b9 -> a10 = b10 -> a11 = b11 ->
  a12 = b12 -> a13 = b13 -> a14 = b14 -> a15 = b15 ->
  Mat4.mk a0 a1 a2 a3 a4 a5 a6 a7 a8 a9 a10 a11 a12 a13 a14 a15 =
  Mat4.mk b0 b1 b2 b3 b4 b5 b6 b7 b8 b9 b10 b11 b12 b13 b14 b15.
Proof. intros. subst. reflexivity. Qed.

Lemma Mat4_invert_body_inverse (m : Mat4.t R) :
  Mat4.determinant m <> 0 ->
  Mat4.multiply_static m (Mat4.invert_body m) = Mat4.identity.
Proof.
  intros Hdet.
  unfold Mat4.multiply_static, Mat4.invert_body, Mat4.identity, Mat4.new.
  cbn [fdiv fofZ Exact.arith].
  assert (Hd : Mat4.determinant m * (1 / Mat4.determinant m) = 1)
    by (field; exact Hdet).
  revert Hd. generalize (1 / Mat4.determinant m). intros d.
  destruct m as [a0 a1 a2 a3 a4 a5 a6 a7 a8 a9 a10 a11 a12 a13 a14 a15].
  unfold Mat4.determinant.
  cbn [Mat4.m00 Mat4.m01 Mat4.m02 Mat4.m03 Mat4.m04 Mat4.m05 Mat4.m06
       Mat4.m07 Mat4.m08 Mat4.m09 Mat4.m10 Mat4.m11 Mat4.m12 Mat4.m13
       Mat4.m14 Mat4.m15 fadd fsub fmul fofZ Exact.arith].
  intros Hd.
  apply Mat4_mk_eq; first [ring | rewrite <- Hd; ring].
Qed.

End ExactMat4.



(** ** Vec3: the two normalize conventions *)

Section Vec3OnBinary64.
  Local Open Scope float_scope.

(** C3, counterexample: for [v = (2^-20, 0, 0)], whose length 2^-20 is
    below 1e-6, [v.normalize()] leaves [v] as it is while
    [Vec3.normalize(v, out)] writes the zero vector: the [x] components
    differ. *)
Lemma Vec3_normalize_conventions_differ :
  let v : Vec3.t float := Vec3.mk 0x1p-20 0 0 in
  (Vec3.length v <=? Constants.EPSILON) = true
  /\ Vec3.normalize v = v
  /\ Vec3.normalize_static v = Vec3.mk 0 0 0
  /\ Vec3.exactEquals (Vec3.normalize v) (Vec3.normalize_static v) = false.
Proof. repeat split; vm_compute; reflexivity. Qed.


End Vec3OnBinary64.

(** C3 (amended): for every Vec3 [v] whose computed length exceeds 1e-6 the
    in-place and the static convention produce the same components; when
    the test [length > EPSILON] fails, the in-place form leaves [v]
    unchanged and the static form writes the zero vector. *)
Theorem Vec3_normalize_static_vs_instance :
  forall (F : Type) (A : Arith F) (v : Vec3.t F),
    Vec3.normalize_static v =
      (if flt Constants.EPSILON (Vec3.length v)
       then Vec3.normalize v else Vec3.mk (fofZ 0) (fofZ 0) (fofZ 0))
    /\ Vec3.normalize v =
      (if flt Constants.EPSILON (Vec3.length v)
       then Vec3.normalize_static v else v).
Proof.
  intros F A v. unfold Vec3.normalize, Vec3.normalize_static, Vec3.length.
  destruct (flt Constants.EPSILON _); split; reflexivity.
Qed.

Section ExactVec3.
  Local Open Scope R_scope.

Lemma Vec3_length_R (v : Vec3.t R) :
  Vec3.length v =
  sqrt (Vec3.x v * Vec3.x v + Vec3.y v * Vec3.y v + Vec3.z v * Vec3.z v).
Proof. reflexivity. Qed.


End ExactVec3.


(** ** Ray: intersection with a box *)

Section RayOnBinary64.
  Local Open Scope float_scope.

(** C5: the code at two rays that start on a face of the box
    [-1, 1]^3 and run along it, direction (0, 0, 1).  The zero [x]
    component of the direction is mapped to [invDx = Infinity], and the
    slab product [(face - origin.x) * invDx] is [0 * Infinity = NaN].
    From (1, 0, 0) both [tmin] and [tmax] become NaN and the result is
    NaN, which is neither [>= 0] nor [-1]; from (-1, 0, 0), a point the
    box contains, the result is [-1]. *)
Theorem Ray_intersectAABB_on_face :
  let box : AABB.t float := AABB.mk (Vec3.mk (-1) (-1) (-1)) (Vec3.mk 1 1 1) in
  let r1 : Ray.t float := Ray.fromVecs (Vec3.mk 1 0 0) (Vec3.mk 0 0 1) in
  let r2 : Ray.t float := Ray.fromVecs (Vec3.mk (-1) 0 0) (Vec3.mk 0 0 1) in
  Ray.direction r1 = Vec3.mk 0 0 1
  /\ AABB.containsPointVec box (Ray.origin r1) = true
  /\ is_nan (Ray.intersectAABB r1 box) = true
  /\ (0 <=? Ray.intersectAABB r1 box) = false
  /\ (Ray.intersectAABB r1 box =? -1) = false
  /\ AABB.containsPointVec box (Ray.origin r2) = true
  /\ Ray.intersectAABB r2 box = (-1)
  /\ Ray.intersectsAABB r2 box = false.
Proof. repeat split; vm_compute; reflexivity. Qed.

End RayOnBinary64.

(** ** Quat: slerp *)

Section ExactQuat.
  Local Open Scope R_scope.









End ExactQuat.







(** ** Transform: invert *)

Lemma Transform_invert_scale {F} `{Arith F} (a : Transform.t F) :
  Transform.scale (Transform.invert a) =
  Vec3.mk (fdiv (fofZ 1) (Vec3.x (Transform.scale a)))
          (fdiv (fofZ 1) (Vec3.y (Transform.scale a)))
          (fdiv (fofZ 1) (Vec3.z (Transform.scale a))).
Proof. reflexivity. Qed.

(** C7: [Transform.invert] takes the reciprocal of each scale component
    with no guard: on binary64, for every transform with a scale component
    equal to zero ([+0] or [-0]), the corresponding scale component after
    [invert()] is [1 / 0], an infinity, hence not finite. *)
Theorem Transform_invert_zero_scale (a : Transform.t float) (k : Spec.axis) :
  is_zero (Spec.component k (Transform.scale a)) = true ->
  Spec.component k (Transform.scale (Transform.invert a))
    = PrimFloat.div 1 (Spec.component k (Transform.scale a))
  /\ is_infinity (Spec.component k (Transform.scale (Transform.invert a))) = true
  /\ is_finite (Spec.component k (Transform.scale (Transform.invert a))) = false.
Proof.
  intros Hz. rewrite Transform_invert_scale.
  assert (He : Spec.component k
                 (Vec3.mk (fdiv (fofZ 1) (Vec3.x (Transform.scale a)))
                          (fdiv (fofZ 1) (Vec3.y (Transform.scale a)))
                          (fdiv (fofZ 1) (Vec3.z (Transform.scale a))))
               = PrimFloat.div 1 (Spec.component k (Transform.scale a)))
    by (destruct k; reflexivity).
  rewrite He. split; [reflexivity|].
  pose proof (F64Facts.one_div_zero _ Hz) as Hinf.
  split; [exact Hinf|]. apply F64Facts.infinity_not_finite. exact Hinf.
Qed.

Lemma Transform_invert_zero_scale_witness :
  let a : Transform.t float :=
    Transform.setScale Transform.new 2%float 0%float 1%float in
  Spec.component Spec.Y (Transform.scale (Transform.invert a))
    = PrimFloat.div 1 (Spec.component Spec.Y (Transform.scale a))
  /\ is_infinity (Spec.component Spec.Y (Transform.scale (Transform.invert a))) = true
  /\ is_finite (Spec.component Spec.Y (Transform.scale (Transform.invert a))) = false.
Proof.
  intros a. apply (Transform_invert_zero_scale a Spec.Y). reflexivity.
Defined.

(** ** Transform: the cached matrix *)

Section TransformCache.
  Context {F : Type} `{Arith F} `{Trig F}.

Lemma computeMatrix_out (a : Transform.t F) (m1 m2 : Mat4.t F) :
  Transform.computeMatrix a m1 = Transform.computeMatrix a m2.
Proof. reflexivity. Qed.

Lemma step_dirty (a : Transform.t F) (c : Transform.call) :
  Transform._dirty (Transform.step a c) = Transform.is_mutator c.
Proof.
  destruct c; try reflexivity.
  cbn [Transform.step Transform.is_mutator]. unfold Transform.getMatrix.
  destruct (Transform._matrix a) as [m0|]; [|reflexivity].
  destruct (Transform._dirty a) eqn:Hd; [reflexivity|exact Hd].
Qed.

Lemma new_cache_valid : Spec.cache_valid Transform.new.
Proof. intros Hd. discriminate Hd. Qed.

Lemma getMatrix_trs (a : Transform.t F) :
  Transform.position (snd (Transform.getMatrix a)) = Transform.position a
  /\ Transform.rotation (snd (Transform.getMatrix a)) = Transform.rotation a
  /\ Transform.scale (snd (Transform.getMatrix a)) = Transform.scale a.
Proof.
  unfold Transform.getMatrix.
  destruct (Transform._matrix a); [destruct (Transform._dirty a)|];
    repeat split; reflexivity.
Qed.

Lemma step_cache_valid (a : Transform.t F) (c : Transform.call) :
  Spec.cache_valid a -> Spec.cache_valid (Transform.step a c).
Proof.
  intros Ha. destruct (Transform.is_mutator c) eqn:Hc.
  - intros Hd. rewrite step_dirty, Hc in Hd. discriminate Hd.
  - destruct c; try discriminate Hc.
    cbn [Transform.step]. unfold Transform.getMatrix.
    destruct (Transform._matrix a) as [m0|] eqn:Hm.
    + destruct (Transform._dirty a) eqn:Hd.
      * intros _ m Heq. cbn in Heq. injection Heq as <-. reflexivity.
      * cbn [snd]. exact Ha.
    + intros _ m Heq. cbn in Heq. injection Heq as <-. reflexivity.
Qed.

Lemma run_cache_valid (cs : list Transform.call) (a : Transform.t F) :
  Spec.cache_valid a -> Spec.cache_valid (Transform.run a cs).
Proof.
  revert a. induction cs as [|c cs IH]; intros a Ha; [exact Ha|].
  cbn [Transform.run fold_left]. apply IH. apply step_cache_valid. exact Ha.
Qed.

Lemma getMatrix_cache_valid (a : Transform.t F) :
  Spec.cache_valid a ->
  fst (Transform.getMatrix a) = Transform.computeMatrix a Mat4.new.
Proof.
  intros Ha. unfold Transform.getMatrix.
  destruct (Transform._matrix a) as [m0|] eqn:Hm; [|reflexivity].
  destruct (Transform._dirty a) eqn:Hd; [reflexivity|].
  cbn [fst]. apply Ha; [exact Hd|exact Hm].
Qed.

End TransformCache.

(** C8: every public mutator of [Transform] leaves the dirty flag set
    (after any call the flag equals "the call was a mutator");
    [getMatrix()] recomputes the cached matrix when the flag is set or the
    cache is absent, and only then clears the flag, otherwise it returns
    the cache and changes nothing; consequently, after any sequence of
    public calls on a fresh transform, [getMatrix()] returns
    [computeMatrix] of the current position, rotation and scale. *)
Theorem Transform_getMatrix_never_stale :
  forall (F : Type) (A : Arith F) (T : Trig F),
    (forall (a : Transform.t F) (c : Transform.call),
        Transform._dirty (Transform.step a c) = Transform.is_mutator c)
    /\ (forall a : Transform.t F,
          Transform.getMatrix a =
          if Transform._dirty a
             || match Transform._matrix a with None => true | Some _ => false end
          then (Transform.computeMatrix a Mat4.new,
                Transform.mk (Transform.position a) (Transform.rotation a)
                  (Transform.scale a)
                  (Some (Transform.computeMatrix a Mat4.new)) false)
          else (match Transform._matrix a with
                | Some m => m
                | None => Mat4.new
                end, a))
    /\ (forall cs : list Transform.call,
          let a := Transform.run Transform.new cs in
          fst (Transform.getMatrix a) = Transform.computeMatrix a Mat4.new
          /\ Transform._dirty (snd (Transform.getMatrix a)) = false
          /\ Transform.position (snd (Transform.getMatrix a)) = Transform.position a
          /\ Transform.rotation (snd (Transform.getMatrix a)) = Transform.rotation a
          /\ Transform.scale (snd (Transform.getMatrix a)) = Transform.scale a).
Proof.
  intros F A T. split; [|split].
  - apply step_dirty.
  - intros a. unfold Transform.getMatrix.
    destruct (Transform._matrix a), (Transform._dirty a); reflexivity.
  - intros cs a. split.
    + apply getMatrix_cache_valid. apply run_cache_valid. apply new_cache_valid.
    + split; [exact (step_dirty a Transform.CGetMatrix)|apply getMatrix_trs].
Qed.

(** ** Scalar helpers: inverseLerp and mod *)

Section ScalarsOnBinary64.
  Local Open Scope float_scope.

Lemma rem_zero_divisor (n : float) : F64.rem n 0 = nan.
Proof.
  unfold F64.rem.
  destruct (is_nan n); [reflexivity|].
  destruct (is_infinity n); reflexivity.
Qed.

Lemma mod_zero_divisor (a : float) : Constants.mod_ a 0 = nan.
Proof. unfold Constants.mod_. cbn [frem F64.has_rem]. apply rem_zero_divisor. Qed.

Lemma inverseLerp_finite (a value : float) :
  is_finite a = true -> Constants.inverseLerp a a value = 0.
Proof.
  intros Ha. unfold Constants.inverseLerp. cbv zeta.
  change (feq (fsub a a) (fofZ 0)) with (a - a =? 0).
  rewrite (F64Facts.finite_sub_diag a Ha). reflexivity.
Qed.

(** C9, counterexample: [mod(1, 0)] is NaN ([1 % 0] is NaN and nothing
    guards it), and [inverseLerp(Infinity, Infinity, 0)] is NaN (the
    denominator [Infinity - Infinity] is NaN, which does not compare equal
    to 0, so the guard is not taken). *)
Lemma mod_by_zero_is_nan :
  is_nan (Constants.mod_ 1 0) = true
  /\ is_nan (Constants.inverseLerp infinity infinity 0) = true.
Proof. split; vm_compute; reflexivity. Qed.

End ScalarsOnBinary64.

(** C9 (amended): [inverseLerp(a, b, value)] returns 0 whenever the
    computed denominator [b - a] compares equal to 0; in particular
    [inverseLerp(a, a, value)] is 0 for every finite binary64 [a] and every
    real [a].  [mod] has no guard: on binary64, [mod(a, 0)] is NaN for
    every [a]. *)
Theorem inverseLerp_guarded_mod_unguarded :
  (forall (F : Type) (A : Arith F) (a b value : F),
     Constants.inverseLerp a b value =
     if feq (fsub b a) (fofZ 0) then fofZ 0
     else fdiv (fsub value a) (fsub b a))
  /\ (forall a value : float,
        is_finite a = true -> Constants.inverseLerp a a value = 0%float)
  /\ (forall a value : R, Constants.inverseLerp a a value = 0%R)
  /\ (forall a : float, Constants.mod_ a 0%float = nan
                        /\ is_nan (Constants.mod_ a 0%float) = true).
Proof.
  repeat apply conj.
  - intros F A a b value. reflexivity.
  - exact inverseLerp_finite.
  - intros a value. unfold Constants.inverseLerp.
    cbn [fsub feq fofZ Exact.arith].
    replace (Exact.eqb (a - a) 0) with true; [reflexivity|].
    symmetry. apply ExactFacts.eqb_true. ring.
  - intros a. rewrite mod_zero_divisor. split; reflexivity.
Qed.

Lemma inverseLerp_guarded_mod_unguarded_witness :
  Constants.inverseLerp 3.5%float 3.5%float 7%float = 0%float.
Proof.
  destruct inverseLerp_guarded_mod_unguarded as (_ & Hfin & _ & _).
  apply Hfin. reflexivity.
Defined.

(** ** AABB: expanding the empty box by a point *)

Section AABBOnBinary64.
  Local Open Scope float_scope.

Lemma expand_empty (x y z : float) :
  is_finite x = true -> is_finite y = true -> is_finite z = true ->
  AABB.expandByPoint AABB.new x y z = AABB.mk (Vec3.mk x y z) (Vec3.mk x y z).
Proof.
  intros Hx Hy Hz. unfold AABB.expandByPoint, AABB.new.
  cbn [AABB.min AABB.max Vec3.x Vec3.y Vec3.z flt fneg Infinity
       F64.arith F64.has_inf].
  repeat first
    [ rewrite F64Facts.finite_lt_infinity by assumption
    | rewrite F64Facts.finite_gt_neg_infinity by assumption
    | progress cbn [Vec3.x Vec3.y Vec3.z] ].
  reflexivity.
Qed.

End AABBOnBinary64.

(** C10: for every finite point [p], expanding the default-constructed
    (empty) box, [min = (+Infinity, ...)], [max = (-Infinity, ...)], by
    [p] gives the box with [min = max = p]; that box is not empty and
    contains [p]. *)
Theorem AABB_expand_empty_by_point (x y z : float) :
  is_finite x = true -> is_finite y = true -> is_finite z = true ->
  AABB.new (F:=float) =
    AABB.mk (Vec3.mk infinity infinity infinity)
            (Vec3.mk neg_infinity neg_infinity neg_infinity)
  /\ AABB.expandByPoint AABB.new x y z = AABB.mk (Vec3.mk x y z) (Vec3.mk x y z)
  /\ AABB.expandByPointVec AABB.new (Vec3.mk x y z)
     = AABB.mk (Vec3.mk x y z) (Vec3.mk x y z)
  /\ AABB.isEmpty (AABB.expandByPoint AABB.new x y z) = false
  /\ AABB.containsPoint (AABB.expandByPoint AABB.new x y z) x y z = true.
Proof.
  intros Hx Hy Hz. split; [reflexivity|].
  pose proof (expand_empty x y z Hx Hy Hz) as He.
  split; [exact He|]. split; [exact He|].
  rewrite He. unfold AABB.isEmpty, AABB.containsPoint.
  cbn [AABB.min AABB.max Vec3.x Vec3.y Vec3.z flt fle F64.arith].
  rewrite !F64Facts.ltb_irrefl.
  rewrite !F64Facts.finite_leb_refl by assumption.
  split; reflexivity.
Qed.

Lemma AABB_expand_empty_by_point_witness :
  AABB.new (F:=float) =
    AABB.mk (Vec3.mk infinity infinity infinity)
            (Vec3.mk neg_infinity neg_infinity neg_infinity)
  /\ AABB.expandByPoint AABB.new 1%float (-2)%float 0.5%float
     = AABB.mk (Vec3.mk 1%float (-2)%float 0.5%float)
               (Vec3.mk 1%float (-2)%float 0.5%float)
  /\ AABB.expandByPointVec AABB.new (Vec3.mk 1%float (-2)%float 0.5%float)
     = AABB.mk (Vec3.mk 1%float (-2)%float 0.5%float)
               (Vec3.mk 1%float (-2)%float 0.5%float)
  /\ AABB.isEmpty (AABB.expandByPoint AABB.new 1%float (-2)%float 0.5%float) = false
  /\ AABB.containsPoint (AABB.expandByPoint AABB.new 1%float (-2)%float 0.5%float)
       1%float (-2)%float 0.5%float = true.
Proof.
  apply (AABB_expand_empty_by_point 1%float (-2)%float 0.5%float); reflexivity.
Defined.

(** * Further properties *)

(** ** The order of binary64 values: [<] and [<=] are [<] and [<=] on ranks *)

Module F64Order.
Local Open Scope Z_scope.

Import F64Rank.

Lemma compare_cont_pos (m n : positive) :
  Pos.compare_cont Eq m n = (Zpos m ?= Zpos n).
Proof. reflexivity. Qed.

Lemma SFltb_rank (x y : spec_float) :
  x <> S754_nan -> y <> S754_nan ->
  (SFltb x y = true <-> lex_lt (rank x) (rank y)).
Proof.
  intros Hx Hy. unfold SFltb, SFcompare, lex_lt.
  destruct x as [[|]|[|]| |[|] m1 e1]; try congruence;
    destruct y as [[|]|[|]| |[|] m2 e2]; try congruence;
    cbn [rank]; try (split; [discriminate|lia]); try (split; [lia|reflexivity]).
  - rewrite compare_cont_pos.
    destruct (Z.compare_spec e1 e2); destruct (Z.compare_spec (Zpos m1) (Zpos m2));
      cbn [CompOpp]; split; intros; try discriminate; try reflexivity; lia.
  - rewrite compare_cont_pos.
    destruct (Z.compare_spec e1 e2); destruct (Z.compare_spec (Zpos m1) (Zpos m2));
      split; intros; try discriminate; try reflexivity; lia.
Qed.

Lemma SFleb_rank (x y : spec_float) :
  x <> S754_nan -> y <> S754_nan ->
  (SFleb x y = true <-> lex_le (rank x) (rank y)).
Proof.
  intros Hx Hy. unfold SFleb, SFcompare, lex_le.
  destruct x as [[|]|[|]| |[|] m1 e1]; try congruence;
    destruct y as [[|]|[|]| |[|] m2 e2]; try congruence;
    cbn [rank]; try (split; [discriminate|lia]); try (split; [lia|reflexivity]).
  - rewrite compare_cont_pos.
    destruct (Z.compare_spec e1 e2); destruct (Z.compare_spec (Zpos m1) (Zpos m2));
      cbn [CompOpp]; split; intros; try discriminate; try reflexivity; lia.
  - rewrite compare_cont_pos.
    destruct (Z.compare_spec e1 e2); destruct (Z.compare_spec (Zpos m1) (Zpos m2));
      split; intros; try discriminate; try reflexivity; lia.
Qed.

Lemma not_nan (x : float) : is_nan x = false -> Prim2SF x <> S754_nan.
Proof. rewrite F64Facts.is_nan_spec. intros H E. rewrite E in H. discriminate. Qed.

Lemma ltb_key (x y : float) :
  is_nan x = false -> is_nan y = false ->
  (PrimFloat.ltb x y = true <-> lex_lt (key x) (key y)).
Proof.
  intros Hx Hy. rewrite FloatAxioms.ltb_spec.
  apply SFltb_rank; apply not_nan; assumption.
Qed.

Lemma leb_key (x y : float) :
  is_nan x = false -> is_nan y = false ->
  (PrimFloat.leb x y = true <-> lex_le (key x) (key y)).
Proof.
  intros Hx Hy. rewrite FloatAxioms.leb_spec.
  apply SFleb_rank; apply not_nan; assumption.
Qed.

Lemma ltb_false_key (x y : float) :
  is_nan x = false -> is_nan y = false ->
  (PrimFloat.ltb x y = false <-> lex_le (key y) (key x)).
Proof.
  intros Hx Hy. rewrite <- Bool.not_true_iff_false, (ltb_key x y Hx Hy).
  unfold lex_lt, lex_le.
  destruct (key x) as [[a1 a2] a3], (key y) as [[b1 b2] b3]. lia.
Qed.

Lemma leb_false_key (x y : float) :
  is_nan x = false -> is_nan y = false ->
  (PrimFloat.leb x y = false <-> lex_lt (key y) (key x)).
Proof.
  intros Hx Hy. rewrite <- Bool.not_true_iff_false, (leb_key x y Hx Hy).
  unfold lex_lt, lex_le.
  destruct (key x) as [[a1 a2] a3], (key y) as [[b1 b2] b3]. lia.
Qed.

(** Comparisons with NaN are false. *)
Lemma ltb_nan_l (x y : float) : is_nan x = true -> PrimFloat.ltb x y = false.
Proof.
  rewrite F64Facts.is_nan_spec, FloatAxioms.ltb_spec.
  destruct (Prim2SF x); try discriminate. reflexivity.
Qed.

Lemma ltb_nan_r (x y : float) : is_nan y = true -> PrimFloat.ltb x y = false.
Proof.
  rewrite F64Facts.is_nan_spec, FloatAxioms.ltb_spec.
  destruct (Prim2SF y); try discriminate.
  destruct (Prim2SF x) as [[|]|[|]| |[|] ? ?]; reflexivity.
Qed.

Lemma leb_nan_l (x y : float) : is_nan x = true -> PrimFloat.leb x y = false.
Proof.
  rewrite F64Facts.is_nan_spec, FloatAxioms.leb_spec.
  destruct (Prim2SF x); try discriminate. reflexivity.
Qed.

Lemma leb_nan_r (x y : float) : is_nan y = true -> PrimFloat.leb x y = false.
Proof.
  rewrite F64Facts.is_nan_spec, FloatAxioms.leb_spec.
  destruct (Prim2SF y); try discriminate.
  destruct (Prim2SF x) as [[|]|[|]| |[|] ? ?]; reflexivity.
Qed.

Lemma leb_true_not_nan (x y : float) :
  PrimFloat.leb x y = true -> is_nan x = false /\ is_nan y = false.
Proof.
  intros H. split.
  - destruct (is_nan x) eqn:E; [|reflexivity].
    rewrite (leb_nan_l x y E) in H. discriminate.
  - destruct (is_nan y) eqn:E; [|reflexivity].
    rewrite (leb_nan_r x y E) in H. discriminate.
Qed.

Lemma ltb_true_not_nan (x y : float) :
  PrimFloat.ltb x y = true -> is_nan x = false /\ is_nan y = false.
Proof.
  intros H. split.
  - destruct (is_nan x) eqn:E; [|reflexivity].
    rewrite (ltb_nan_l x y E) in H. discriminate.
  - destruct (is_nan y) eqn:E; [|reflexivity].
    rewrite (ltb_nan_r x y E) in H. discriminate.
Qed.

(** Turns the comparisons of the context and the goal into statements on
    ranks and closes the goal by linear arithmetic.  Every compared value
    must be known not to be NaN. *)
Ltac to_keys :=
  repeat match goal with
  | H : PrimFloat.ltb ?x ?y = true |- _ =>
      apply (proj1 (ltb_key x y ltac:(assumption) ltac:(assumption))) in H
  | H : PrimFloat.ltb ?x ?y = false |- _ =>
      apply (proj1 (ltb_false_key x y ltac:(assumption) ltac:(assumption))) in H
  | H : PrimFloat.leb ?x ?y = true |- _ =>
      apply (proj1 (leb_key x y ltac:(assumption) ltac:(assumption))) in H
  | H : PrimFloat.leb ?x ?y = false |- _ =>
      apply (proj1 (leb_false_key x y ltac:(assumption) ltac:(assumption))) in H
  | |- PrimFloat.ltb ?x ?y = true =>
      apply (proj2 (ltb_key x y ltac:(assumption) ltac:(assumption)))
  | |- PrimFloat.ltb ?x ?y = false =>
      apply (proj2 (ltb_false_key x y ltac:(assumption) ltac:(assumption)))
  | |- PrimFloat.leb ?x ?y = true =>
      apply (proj2 (leb_key x y ltac:(assumption) ltac:(assumption)))
  | |- PrimFloat.leb ?x ?y = false =>
      apply (proj2 (leb_false_key x y ltac:(assumption) ltac:(assumption)))
  end.

Ltac nan_facts :=
  repeat match goal with
  | H : PrimFloat.leb ?x ?y = true |- _ =>
      lazymatch goal with
      | _ : is_nan x = false, _ : is_nan y = false |- _ => fail
      | _ => destruct (leb_true_not_nan x y H)
      end
  | H : PrimFloat.ltb ?x ?y = true |- _ =>
      lazymatch goal with
      | _ : is_nan x = false, _ : is_nan y = false |- _ => fail
      | _ => destruct (ltb_true_not_nan x y H)
      end
  end.

Ltac order :=
  nan_facts; to_keys; unfold lex_lt, lex_le in *;
  repeat match goal with
  | |- context [key ?x] =>
      let a := fresh "k" in let b := fresh "k" in let c := fresh "k" in
      destruct (key x) as [[a b] c]
  | H : context [key ?x] |- _ =>
      let a := fresh "k" in let b := fresh "k" in let c := fresh "k" in
      destruct (key x) as [[a b] c]
  end;
  lia.

Lemma leb_refl (x : float) : is_nan x = false -> PrimFloat.leb x x = true.
Proof. intros Hx. order. Qed.

Lemma leb_trans (x y z : float) :
  PrimFloat.leb x y = true -> PrimFloat.leb y z = true -> PrimFloat.leb x z = true.
Proof.
  intros H1 H2.
  destruct (leb_true_not_nan _ _ H1), (leb_true_not_nan _ _ H2). order.
Qed.

Lemma not_ltb_leb (x y : float) :
  is_nan x = false -> is_nan y = false ->
  PrimFloat.ltb x y = false -> PrimFloat.leb y x = true.
Proof. intros Hx Hy H. order. Qed.

Lemma ltb_leb (x y : float) : PrimFloat.ltb x y = true -> PrimFloat.leb x y = true.
Proof. intros H. destruct (ltb_true_not_nan _ _ H). order. Qed.

Lemma leb_not_ltb (x y : float) : PrimFloat.leb x y = true -> PrimFloat.ltb y x = false.
Proof. intros H. destruct (leb_true_not_nan _ _ H). order. Qed.

End F64Order.

(** ** AABB on binary64 *)

(** Case analysis on a test that contains no other test. *)
Ltac split_if :=
  match goal with
  | |- context [if ?c then _ else _] =>
      lazymatch c with
      | context [if _ then _ else _] => fail
      | _ => destruct c eqn:?
      end
  end.

Section AABBOrder.
  Local Open Scope float_scope.
  Import F64Order.

(** The smaller and the larger of two values, the way [union] and
    [intersect] select them. *)
Lemma pick_min (a o : float) :
  is_nan a = false -> is_nan o = false ->
  let m := if o <? a then o else a in
  is_nan m = false /\ (m <=? a) = true /\ (m <=? o) = true.
Proof.
  intros Ha Ho m. unfold m.
  destruct (o <? a) eqn:E; repeat split; try assumption; order.
Qed.

Lemma pick_max (a o : float) :
  is_nan a = false -> is_nan o = false ->
  let m := if a <? o then o else a in
  is_nan m = false /\ (a <=? m) = true /\ (o <=? m) = true.
Proof.
  intros Ha Ho m. unfold m.
  destruct (a <? o) eqn:E; repeat split; try assumption; order.
Qed.

Lemma union_fields (a b : AABB.t float) :
  AABB.union a b =
  AABB.mk
    (Vec3.mk
       (if Vec3.x (AABB.min b) <? Vec3.x (AABB.min a)
        then Vec3.x (AABB.min b) else Vec3.x (AABB.min a))
       (if Vec3.y (AABB.min b) <? Vec3.y (AABB.min a)
        then Vec3.y (AABB.min b) else Vec3.y (AABB.min a))
       (if Vec3.z (AABB.min b) <? Vec3.z (AABB.min a)
        then Vec3.z (AABB.min b) else Vec3.z (AABB.min a)))
    (Vec3.mk
       (if Vec3.x (AABB.max a) <? Vec3.x (AABB.max b)
        then Vec3.x (AABB.max b) else Vec3.x (AABB.max a))
       (if Vec3.y (AABB.max a) <? Vec3.y (AABB.max b)
        then Vec3.y (AABB.max b) else Vec3.y (AABB.max a))
       (if Vec3.z (AABB.max a) <? Vec3.z (AABB.max b)
        then Vec3.z (AABB.max b) else Vec3.z (AABB.max a))).
Proof.
  destruct a as [[ax ay az] [bx by_ bz]], b as [[cx cy cz] [dx dy dz]].
  unfold AABB.union.
  cbn [AABB.min AABB.max Vec3.x Vec3.y Vec3.z flt F64.arith].
  repeat (split_if; cbn [Vec3.x Vec3.y Vec3.z]); reflexivity.
Qed.


Ltac aabb_scalars :=
  unfold Spec2.box_ordered, Spec2.vec_ordered,
    AABB.containsAABB, AABB.containsPoint, AABB.containsPointVec,
    AABB.isEmpty, AABB.intersectsAABB in *;
  cbn [AABB.min AABB.max Vec3.x Vec3.y Vec3.z flt fle F64.arith] in *.

Ltac and_true :=
  repeat match goal with
  | H : _ && _ = true |- _ => apply andb_true_iff in H; destruct H
  | H : _ /\ _ |- _ => destruct H
  end;
  repeat (apply andb_true_iff; split).

(** X1: on binary64, for boxes without NaN components, [a.union(b)] is
    the least box containing both: it contains [a] and [b], and every box
    that contains [a] and [b] contains it.  The same holds of the box
    returned by the static [AABB.union(a, b)]. *)
Theorem AABB_union_least (a b : AABB.t float) :
  Spec2.box_ordered a -> Spec2.box_ordered b ->
  (AABB.containsAABB (AABB.union a b) a = true
   /\ AABB.containsAABB (AABB.union a b) b = true
   /\ forall c : AABB.t float,
        AABB.containsAABB c a = true -> AABB.containsAABB c b = true ->
        AABB.containsAABB c (AABB.union a b) = true)
  /\ (AABB.containsAABB (AABB.union_static a b) a = true
      /\ AABB.containsAABB (AABB.union_static a b) b = true
      /\ forall c : AABB.t float,
           AABB.containsAABB c a = true -> AABB.containsAABB c b = true ->
           AABB.containsAABB c (AABB.union_static a b) = true).
Proof.
  intros Ha Hb. rewrite union_fields. unfold AABB.union_static.
  destruct a as [[ax ay az] [bx by_ bz]], b as [[cx cy cz] [dx dy dz]].
  aabb_scalars. and_true.
  split; (split; [|split]).
  - and_true; split_if; order.
  - and_true; split_if; order.
  - intros [[ex ey ez] [fx fy fz]] Hca Hcb. aabb_scalars. and_true;
      split_if; assumption.
  - and_true; split_if; order.
  - and_true; split_if; order.
  - intros [[ex ey ez] [fx fy fz]] Hca Hcb. aabb_scalars. and_true;
      split_if; assumption.
Qed.

Lemma AABB_union_least_witness :
  let a : AABB.t float := AABB.fromMinMax (-1) (-1) (-1) 1 1 1 in
  let b : AABB.t float := AABB.fromMinMax 0 0 0 2 3 0.5 in
  (AABB.containsAABB (AABB.union a b) a = true
   /\ AABB.containsAABB (AABB.union a b) b = true
   /\ forall c : AABB.t float,
        AABB.containsAABB c a = true -> AABB.containsAABB c b = true ->
        AABB.containsAABB c (AABB.union a b) = true)
  /\ (AABB.containsAABB (AABB.union_static a b) a = true
      /\ AABB.containsAABB (AABB.union_static a b) b = true
      /\ forall c : AABB.t float,
           AABB.containsAABB c a = true -> AABB.containsAABB c b = true ->
           AABB.containsAABB c (AABB.union_static a b) = true).
Proof.
  intros a b. apply (AABB_union_least a b); repeat split; reflexivity.
Defined.

Lemma intersect_fields (a b : AABB.t float) :
  AABB.intersect a b =
  AABB.mk
    (Vec3.mk
       (if Vec3.x (AABB.min a) <? Vec3.x (AABB.min b)
        then Vec3.x (AABB.min b) else Vec3.x (AABB.min a))
       (if Vec3.y (AABB.min a) <? Vec3.y (AABB.min b)
        then Vec3.y (AABB.min b) else Vec3.y (AABB.min a))
       (if Vec3.z (AABB.min a) <? Vec3.z (AABB.min b)
        then Vec3.z (AABB.min b) else Vec3.z (AABB.min a)))
    (Vec3.mk
       (if Vec3.x (AABB.max b) <? Vec3.x (AABB.max a)
        then Vec3.x (AABB.max b) else Vec3.x (AABB.max a))
       (if Vec3.y (AABB.max b) <? Vec3.y (AABB.max a)
        then Vec3.y (AABB.max b) else Vec3.y (AABB.max a))
       (if Vec3.z (AABB.max b) <? Vec3.z (AABB.max a)
        then Vec3.z (AABB.max b) else Vec3.z (AABB.max a))).
Proof.
  destruct a as [[ax ay az] [bx by_ bz]], b as [[cx cy cz] [dx dy dz]].
  unfold AABB.intersect.
  cbn [AABB.min AABB.max Vec3.x Vec3.y Vec3.z flt F64.arith].
  repeat (split_if; cbn [Vec3.x Vec3.y Vec3.z]); reflexivity.
Qed.

(** One axis of the emptiness test of an intersection. *)
Lemma intersect_axis (amin amax bmin bmax : float) :
  is_nan amin = false -> is_nan amax = false ->
  is_nan bmin = false -> is_nan bmax = false ->
  ((if bmax <? amax then bmax else amax)
   <? (if amin <? bmin then bmin else amin))
  = (amax <? amin) || (bmax <? bmin)
    || negb ((bmin <=? amax) && (amin <=? bmax)).
Proof.
  intros H1 H2 H3 H4.
  destruct (bmax <? amax) eqn:E1, (amin <? bmin) eqn:E2,
    (amax <? amin) eqn:E3, (bmax <? bmin) eqn:E4,
    (bmin <=? amax) eqn:E5, (amin <=? bmax) eqn:E6;
    cbn [orb andb negb]; order.
Qed.

Lemma intersection_axis (amin amax bmin bmax : float) :
  is_nan amin = false -> is_nan amax = false ->
  is_nan bmin = false -> is_nan bmax = false ->
  ((if amax <? bmax then amax else bmax)
   <? (if bmin <? amin then amin else bmin))
  = (amax <? amin) || (bmax <? bmin)
    || negb ((bmin <=? amax) && (amin <=? bmax)).
Proof.
  intros H1 H2 H3 H4.
  destruct (amax <? bmax) eqn:E1, (bmin <? amin) eqn:E2,
    (amax <? amin) eqn:E3, (bmax <? bmin) eqn:E4,
    (bmin <=? amax) eqn:E5, (amin <=? bmax) eqn:E6;
    cbn [orb andb negb]; order.
Qed.

(** X2: on binary64, for boxes without NaN components, [a.intersect(b)]
    is contained in both boxes, and it is empty (per [isEmpty]) exactly
    when [a] is empty, [b] is empty, or the two do not intersect (per
    [intersectsAABB]).  The same holds of the box returned by the static
    [AABB.intersection(a, b)]. *)
Theorem AABB_intersect_empty_iff (a b : AABB.t float) :
  Spec2.box_ordered a -> Spec2.box_ordered b ->
  (AABB.containsAABB a (AABB.intersect a b) = true
   /\ AABB.containsAABB b (AABB.intersect a b) = true
   /\ AABB.isEmpty (AABB.intersect a b)
      = AABB.isEmpty a || AABB.isEmpty b || negb (AABB.intersectsAABB a b))
  /\ (AABB.containsAABB a (AABB.intersection_static a b) = true
      /\ AABB.containsAABB b (AABB.intersection_static a b) = true
      /\ AABB.isEmpty (AABB.intersection_static a b)
         = AABB.isEmpty a || AABB.isEmpty b || negb (AABB.intersectsAABB a b)).
Proof.
  intros Ha Hb. rewrite intersect_fields. unfold AABB.intersection_static.
  destruct a as [[ax ay az] [bx by_ bz]], b as [[cx cy cz] [dx dy dz]].
  aabb_scalars. and_true.
  split; (split; [|split]).
  - and_true; split_if; order.
  - and_true; split_if; order.
  - rewrite !intersect_axis by assumption. btauto.
  - and_true; split_if; order.
  - and_true; split_if; order.
  - rewrite !intersection_axis by assumption. btauto.
Qed.

Lemma AABB_intersect_empty_iff_witness :
  let a : AABB.t float := AABB.fromMinMax (-1) (-1) (-1) 1 1 1 in
  let b : AABB.t float := AABB.fromMinMax 2 0 0 3 1 1 in
  (AABB.containsAABB a (AABB.intersect a b) = true
   /\ AABB.containsAABB b (AABB.intersect a b) = true
   /\ AABB.isEmpty (AABB.intersect a b)
      = AABB.isEmpty a || AABB.isEmpty b || negb (AABB.intersectsAABB a b))
  /\ (AABB.containsAABB a (AABB.intersection_static a b) = true
      /\ AABB.containsAABB b (AABB.intersection_static a b) = true
      /\ AABB.isEmpty (AABB.intersection_static a b)
         = AABB.isEmpty a || AABB.isEmpty b || negb (AABB.intersectsAABB a b)).
Proof.
  intros a b. apply (AABB_intersect_empty_iff a b); repeat split; reflexivity.
Defined.

Lemma expand_fields (b : AABB.t float) (x y z : float) :
  AABB.expandByPoint b x y z =
  AABB.mk
    (Vec3.mk (if x <? Vec3.x (AABB.min b) then x else Vec3.x (AABB.min b))
             (if y <? Vec3.y (AABB.min b) then y else Vec3.y (AABB.min b))
             (if z <? Vec3.z (AABB.min b) then z else Vec3.z (AABB.min b)))
    (Vec3.mk (if Vec3.x (AABB.max b) <? x then x else Vec3.x (AABB.max b))
             (if Vec3.y (AABB.max b) <? y then y else Vec3.y (AABB.max b))
             (if Vec3.z (AABB.max b) <? z then z else Vec3.z (AABB.max b))).
Proof.
  destruct b as [[ax ay az] [bx by_ bz]].
  unfold AABB.expandByPoint.
  cbn [AABB.min AABB.max Vec3.x Vec3.y Vec3.z flt F64.arith].
  repeat (split_if; cbn [Vec3.x Vec3.y Vec3.z]); reflexivity.
Qed.

(** X3: on binary64, for every box and point without NaN components
    (the empty box included), the box after [expandByPoint(p)] contains
    [p] and contains the box before; a point with at least one NaN
    coordinate is contained in no box. *)
Theorem AABB_expandByPoint_contains (b : AABB.t float) (x y z : float) :
  (Spec2.box_ordered b -> Spec2.vec_ordered (Vec3.mk x y z) ->
   AABB.containsPoint (AABB.expandByPoint b x y z) x y z = true
   /\ AABB.containsAABB (AABB.expandByPoint b x y z) b = true)
  /\ (is_nan x || is_nan y || is_nan z = true ->
      forall c : AABB.t float, AABB.containsPoint c x y z = false).
Proof.
  split.
  - intros Hb Hp. rewrite expand_fields.
    destruct b as [[ax ay az] [bx by_ bz]].
    aabb_scalars. and_true.
    split.
    + and_true; split_if; order.
    + and_true; split_if; order.
  - intros Hn c. aabb_scalars.
    apply orb_true_iff in Hn. destruct Hn as [Hn|Hz].
    + apply orb_true_iff in Hn. destruct Hn as [Hx|Hy].
      * rewrite (leb_nan_r _ x Hx). reflexivity.
      * rewrite (leb_nan_r _ y Hy), !andb_false_r. reflexivity.
    + rewrite (leb_nan_r _ z Hz), !andb_false_r. reflexivity.
Qed.

Lemma AABB_expandByPoint_contains_witness :
  let b : AABB.t float := AABB.new in
  AABB.containsPoint (AABB.expandByPoint b 1 2 3) 1 2 3 = true
  /\ AABB.containsAABB (AABB.expandByPoint b 1 2 3) b = true
  /\ (forall c : AABB.t float,
        AABB.containsPoint c nan 2 3 = false
        /\ AABB.containsPoint c nan nan 3 = false
        /\ AABB.containsPoint c 1 2 nan = false).
Proof.
  intros b.
  destruct (AABB_expandByPoint_contains b 1 2 3) as [H _].
  destruct (H ltac:(repeat split; reflexivity) ltac:(repeat split; reflexivity))
    as [H1 H2].
  split; [exact H1|]. split; [exact H2|].
  intros c. repeat split.
  - apply (AABB_expandByPoint_contains b nan 2 3). reflexivity.
  - apply (AABB_expandByPoint_contains b nan nan 3). reflexivity.
  - apply (AABB_expandByPoint_contains b 1 2 nan). reflexivity.
Defined.

(** X4: on binary64, for a box without NaN components that is not empty
    and a point without NaN coordinates, the point returned by
    [clampPoint] is contained in the box; a point the box contains is
    returned unchanged and is at squared distance 0 from the box. *)
Theorem AABB_clampPoint_laws (b : AABB.t float) (x y z : float) :
  Spec2.box_ordered b -> Spec2.vec_ordered (Vec3.mk x y z) ->
  AABB.isEmpty b = false ->
  AABB.containsPointVec b (AABB.clampPoint b x y z) = true
  /\ (AABB.containsPoint b x y z = true ->
      AABB.clampPoint b x y z = Vec3.mk x y z
      /\ AABB.distanceToPointSq b x y z = 0).
Proof.
  intros Hb Hp He. destruct b as [[ax ay az] [bx by_ bz]]. split.
  - unfold AABB.clampPoint, AABB.containsPointVec. aabb_scalars.
    repeat match goal with
    | H : _ || _ = false |- _ => apply orb_false_iff in H; destruct H
    end.
    and_true; repeat split_if; order.
  - clear Hb Hp He. intros Hc.
    unfold AABB.clampPoint, AABB.distanceToPointSq.
    aabb_scalars. and_true.
    repeat match goal with
    | H : (_ <=? _) = true |- _ => apply leb_not_ltb in H; rewrite H
    end.
    split; reflexivity.
Qed.

Lemma AABB_clampPoint_laws_witness :
  let b : AABB.t float := AABB.fromMinMax (-1) (-1) (-1) 1 1 1 in
  AABB.containsPointVec b (AABB.clampPoint b 3 0 (-7)) = true
  /\ (AABB.containsPoint b 3 0 (-7) = true ->
      AABB.clampPoint b 3 0 (-7) = Vec3.mk 3 0 (-7)
      /\ AABB.distanceToPointSq b 3 0 (-7) = 0).
Proof.
  intros b. apply (AABB_clampPoint_laws b 3 0 (-7)); repeat split; reflexivity.
Defined.

End AABBOrder.

(** ** Scalars and ray sentinels on binary64 *)

Section ScalarOrder.
  Local Open Scope float_scope.
  Import F64Order.

(** X5: on binary64, for bounds with [minVal <= maxVal], [clamp] returns
    a value between the bounds when the value is not NaN, and the value
    itself when it already lies between them; a NaN value is not
    filtered: [clamp] and [clamp01] return it, and [minF64] and [maxF64]
    return their second argument as soon as one argument is NaN. *)
Theorem clamp_within_bounds (value minVal maxVal : float) :
  (minVal <=? maxVal) = true ->
  (is_nan value = false ->
   (minVal <=? Constants.clamp value minVal maxVal) = true
   /\ (Constants.clamp value minVal maxVal <=? maxVal) = true
   /\ ((minVal <=? value) = true -> (value <=? maxVal) = true ->
       Constants.clamp value minVal maxVal = value))
  /\ (is_nan value = true ->
      Constants.clamp value minVal maxVal = value
      /\ Constants.clamp01 value = value
      /\ forall o : float,
           Constants.minF64 value o = o /\ Constants.minF64 o value = value
           /\ Constants.maxF64 value o = o /\ Constants.maxF64 o value = value).
Proof.
  intros Hb. split.
  - intros Hv. unfold Constants.clamp. cbn [flt F64.arith].
    destruct (leb_true_not_nan _ _ Hb) as [Hlo Hhi].
    split; [|split].
    + repeat split_if; order.
    + repeat split_if; order.
    + intros H1 H2.
      rewrite (leb_not_ltb _ _ H1), (leb_not_ltb _ _ H2). reflexivity.
  - intros Hv.
    unfold Constants.clamp, Constants.clamp01, Constants.minF64,
      Constants.maxF64.
    cbn [flt F64.arith].
    rewrite !(ltb_nan_l value) by exact Hv.
    rewrite !(ltb_nan_r _ value) by exact Hv.
    split; [reflexivity|]. split; [reflexivity|].
    intros o. rewrite !(ltb_nan_l value) by exact Hv.
    rewrite !(ltb_nan_r _ value) by exact Hv.
    repeat split; reflexivity.
Qed.

Lemma clamp_within_bounds_witness :
  (is_nan 7 = false ->
   (0 <=? Constants.clamp 7 0 1) = true
   /\ (Constants.clamp 7 0 1 <=? 1) = true
   /\ ((0 <=? 7) = true -> (7 <=? 1) = true -> Constants.clamp 7 0 1 = 7))
  /\ (is_nan 7 = true ->
      Constants.clamp 7 0 1 = 7
      /\ Constants.clamp01 7 = 7
      /\ forall o : float,
           Constants.minF64 7 o = o /\ Constants.minF64 o 7 = 7
           /\ Constants.maxF64 7 o = o /\ Constants.maxF64 o 7 = 7).
Proof. apply (clamp_within_bounds 7 0 1). reflexivity. Defined.

(** A value that is not below zero is NaN or at least zero. *)
Lemma not_below_zero (t : float) :
  (t <? 0) = false -> is_nan t = true \/ (0 <=? t) = true.
Proof.
  intros Ht. destruct (is_nan t) eqn:E; [left; reflexivity|right].
  assert (Hz : is_nan 0 = false) by reflexivity.
  order.
Qed.

End ScalarOrder.

(** [intersectSphere], [intersectPlane] and [intersectTriangle] return a
    value that has passed the test [t >= 0], or the sentinel. *)
Lemma Ray_hit_or_sentinel {F : Type} `{Arith F} (r : Ray.t F) :
  (forall cx cy cz radius : F,
     fle (fofZ 0) (Ray.intersectSphere r cx cy cz radius) = true
     \/ Ray.intersectSphere r cx cy cz radius = fofZ (-1))
  /\ (forall nx ny nz d : F,
     fle (fofZ 0) (Ray.intersectPlane r nx ny nz d) = true
     \/ Ray.intersectPlane r nx ny nz d = fofZ (-1))
  /\ (forall v0 v1 v2 : Vec3.t F,
     fle (fofZ 0) (Ray.intersectTriangle r v0 v1 v2) = true
     \/ Ray.intersectTriangle r v0 v1 v2 = fofZ (-1)).
Proof.
  split; [|split]; intros.
  - unfold Ray.intersectSphere.
    repeat match goal with
    | |- context [if ?c then _ else _] =>
        lazymatch c with
        | context [if _ then _ else _] => fail
        | _ => let E := fresh "E" in destruct c eqn:E
        end
    end; auto.
  - unfold Ray.intersectPlane.
    repeat match goal with
    | |- context [if ?c then _ else _] =>
        lazymatch c with
        | context [if _ then _ else _] => fail
        | _ => let E := fresh "E" in destruct c eqn:E
        end
    end; auto.
  - unfold Ray.intersectTriangle.
    repeat match goal with
    | |- context [if ?c then _ else _] =>
        lazymatch c with
        | context [if _ then _ else _] => fail
        | _ => let E := fresh "E" in destruct c eqn:E
        end
    end; auto.
Qed.

Section RayRange.
  Local Open Scope float_scope.

(** X6: on binary64, for all inputs (NaN and infinite components
    included), [intersectAABB] returns exactly -1, or a value that is at
    least 0, or NaN: never a negative distance other than the sentinel.
    [intersectSphere], [intersectPlane] and [intersectTriangle] return
    exactly -1 or a value that is at least 0, and never NaN, since the
    value they return on a hit has passed the test [t >= 0]. *)
Theorem Ray_results_range :
  forall r : Ray.t float,
    (forall aabb : AABB.t float,
       Ray.intersectAABB r aabb = (-1)
       \/ (0 <=? Ray.intersectAABB r aabb) = true
       \/ is_nan (Ray.intersectAABB r aabb) = true)
    /\ (forall cx cy cz radius : float,
       (0 <=? Ray.intersectSphere r cx cy cz radius) = true
       \/ Ray.intersectSphere r cx cy cz radius = (-1))
    /\ (forall nx ny nz d : float,
       (0 <=? Ray.intersectPlane r nx ny nz d) = true
       \/ Ray.intersectPlane r nx ny nz d = (-1))
    /\ (forall v0 v1 v2 : Vec3.t float,
       (0 <=? Ray.intersectTriangle r v0 v1 v2) = true
       \/ Ray.intersectTriangle r v0 v1 v2 = (-1)).
Proof.
  intros r. split.
  - intros aabb.
    unfold Ray.intersectAABB. destruct (Ray.slabs r aabb) as [tmin tmax].
    cbn [flt fle fofZ F64.arith].
    destruct (tmax <? F64.of_Z 0) eqn:E1; cbn [orb].
    + left. reflexivity.
    + destruct (tmax <? tmin) eqn:E2.
      * left. reflexivity.
      * destruct (F64.of_Z 0 <=? tmin) eqn:E3.
        -- right. left. exact E3.
        -- destruct (not_below_zero tmax E1) as [Hn | Hp].
           ++ right. right. exact Hn.
           ++ right. left. exact Hp.
  - exact (Ray_hit_or_sentinel r).
Qed.

End RayRange.

(** ** 32-bit integer helpers *)

Section Int32.
  Local Open Scope Z_scope.
  Import Constants.

Lemma to_int32_small (z : Z) : - 2 ^ 31 <= z < 2 ^ 31 -> to_int32 z = z.
Proof.
  intros Hz. unfold to_int32.
  rewrite Z.mod_small by lia. lia.
Qed.

Lemma clear_above_bound (n v : Z) :
  0 <= n -> 0 <= v -> Spec2.bits_clear_above n v -> v < 2 ^ (n + 1).
Proof.
  intros Hn Hv Hc.
  destruct (Z.eq_dec v 0) as [-> | Hnz].
  - apply Z.pow_pos_nonneg; lia.
  - assert (Hl : Z.log2 v <= n).
    { destruct (Z_le_gt_dec (Z.log2 v) n) as [Hle | Hgt]; [exact Hle|].
      assert (Hb : Z.testbit v (Z.log2 v) = true) by (apply Z.bit_log2; lia).
      rewrite Hc in Hb by lia. discriminate. }
    apply Z.log2_lt_pow2; lia.
Qed.

Lemma smear_step (k lo n v : Z) :
  0 <= k <= n - lo + 1 -> 0 <= n < 31 -> 0 <= v ->
  Spec2.bits_clear_above n v -> Spec2.bits_set_between lo n v ->
  let v' := Z.lor (to_int32 v) (to_int32 (Z.shiftr (to_int32 v) k)) in
  0 <= v' /\ Spec2.bits_clear_above n v' /\ Spec2.bits_set_between (lo - k) n v'.
Proof.
  intros Hk Hn Hv Hc Hs v'.
  assert (Hb : v < 2 ^ (n + 1)) by (apply clear_above_bound; assumption || lia).
  assert (Hp : 2 ^ (n + 1) <= 2 ^ 31) by (apply Z.pow_le_mono_r; lia).
  assert (Hsh : 0 <= Z.shiftr v k <= v).
  { rewrite Z.shiftr_div_pow2 by lia. split.
    - apply Z.div_pos; [lia | apply Z.pow_pos_nonneg; lia].
    - apply Z.div_le_upper_bound; [apply Z.pow_pos_nonneg; lia|].
      assert (1 <= 2 ^ k) by (apply (Z.pow_le_mono_r 2 0 k); lia). nia. }
  assert (E : v' = Z.lor v (Z.shiftr v k)).
  { unfold v'. rewrite (to_int32_small v) by lia.
    rewrite (to_int32_small (Z.shiftr v k)) by lia. reflexivity. }
  rewrite E. split; [|split].
  - apply Z.lor_nonneg. lia.
  - intros i Hi. rewrite Z.lor_spec, Z.shiftr_spec by lia.
    rewrite !Hc by lia. reflexivity.
  - intros i Hi0 Hi. rewrite Z.lor_spec, Z.shiftr_spec by lia.
    destruct (Z_le_gt_dec lo i) as [Hle | Hgt].
    + rewrite (Hs i) by lia. reflexivity.
    + rewrite (Hs (i + k)) by lia. apply orb_true_r.
Qed.

Lemma smear_all (v : Z) :
  0 < v < 2 ^ 31 ->
  let n := Z.log2 v in
  let v1 := Z.lor (to_int32 v) (to_int32 (Z.shiftr (to_int32 v) 1)) in
  let v2 := Z.lor (to_int32 v1) (to_int32 (Z.shiftr (to_int32 v1) 2)) in
  let v3 := Z.lor (to_int32 v2) (to_int32 (Z.shiftr (to_int32 v2) 4)) in
  let v4 := Z.lor (to_int32 v3) (to_int32 (Z.shiftr (to_int32 v3) 8)) in
  let v5 := Z.lor (to_int32 v4) (to_int32 (Z.shiftr (to_int32 v4) 16)) in
  v5 = 2 ^ (n + 1) - 1.
Proof.
  intros Hv n v1 v2 v3 v4 v5.
  assert (Hn0 : 0 <= n) by apply Z.log2_nonneg.
  assert (Hn : n < 31) by (apply Z.log2_lt_pow2; lia).
  assert (C0 : Spec2.bits_clear_above n v).
  { intros i Hi. apply Z.bits_above_log2; lia. }
  assert (S0 : Spec2.bits_set_between n n v).
  { intros i _ Hi. replace i with n by lia. apply Z.bit_log2. lia. }
  destruct (smear_step 1 n n v) as (P1 & C1 & S1); try assumption; try lia.
  fold v1 in P1, C1, S1.
  destruct (smear_step 2 (n - 1) n v1) as (P2 & C2 & S2); try assumption; try lia.
  fold v2 in P2, C2, S2.
  destruct (smear_step 4 (n - 1 - 2) n v2) as (P3 & C3 & S3);
    try assumption; try lia.
  fold v3 in P3, C3, S3.
  destruct (smear_step 8 (n - 1 - 2 - 4) n v3) as (P4 & C4 & S4);
    try assumption; try lia.
  fold v4 in P4, C4, S4.
  destruct (smear_step 16 (n - 1 - 2 - 4 - 8) n v4) as (P5 & C5 & S5);
    try assumption; try lia.
  fold v5 in P5, C5, S5.
  clearbody v1 v2 v3 v4 v5.
  replace (2 ^ (n + 1) - 1) with (Z.ones (n + 1))
    by (rewrite Z.ones_equiv; lia).
  apply Z.bits_inj'. intros i Hi.
  destruct (Z_le_gt_dec i n) as [Hle | Hgt].
  - rewrite S5 by lia. rewrite Z.ones_spec_low by lia. reflexivity.
  - rewrite C5 by lia. rewrite Z.ones_spec_high by lia. reflexivity.
Qed.

(** A negative 32-bit integer has all bits from the sign bit on set, and
    conversely. *)
Lemma neg_high_bits (v : Z) :
  - 2 ^ 31 <= v < 0 -> forall i, 31 <= i -> Z.testbit v i = true.
Proof.
  intros Hv i Hi.
  rewrite <- (Z.lnot_involutive v), Z.lnot_spec by lia.
  assert (Ha : 0 <= Z.lnot v < 2 ^ 31) by (unfold Z.lnot; lia).
  destruct (Z.eq_dec (Z.lnot v) 0) as [-> | Hnz].
  - rewrite Z.bits_0. reflexivity.
  - rewrite Z.bits_above_log2; [reflexivity | lia |].
    assert (Z.log2 (Z.lnot v) < 31) by (apply Z.log2_lt_pow2; lia). lia.
Qed.

Lemma in_range_neg (v : Z) :
  v < 0 -> (forall i, 31 <= i -> Z.testbit v i = true) -> - 2 ^ 31 <= v.
Proof.
  intros Hv Hb.
  assert (Ha : Z.lnot v < 2 ^ (30 + 1)).
  { apply clear_above_bound; [lia | unfold Z.lnot; lia |].
    intros i Hi. rewrite Z.lnot_spec by lia. rewrite Hb by lia. reflexivity. }
  unfold Z.lnot in Ha. change (2 ^ (30 + 1)) with (2 ^ 31) in Ha. lia.
Qed.

Lemma smear_step_neg (k lo v : Z) :
  0 <= k <= 31 - lo + 1 -> - 2 ^ 31 <= v < 0 ->
  Spec2.bits_set_between lo 31 v ->
  let v' := Z.lor (to_int32 v) (to_int32 (Z.shiftr (to_int32 v) k)) in
  - 2 ^ 31 <= v' < 0 /\ Spec2.bits_set_between (lo - k) 31 v'.
Proof.
  intros Hk Hv Hs v'.
  assert (Hsh : - 2 ^ 31 <= Z.shiftr v k < 0).
  { split.
    - rewrite Z.shiftr_div_pow2 by lia.
      apply Z.div_le_lower_bound; [apply Z.pow_pos_nonneg; lia|].
      assert (1 <= 2 ^ k) by (apply (Z.pow_le_mono_r 2 0 k); lia). nia.
    - apply Z.shiftr_neg. lia. }
  assert (E : v' = Z.lor v (Z.shiftr v k)).
  { unfold v'. rewrite (to_int32_small v) by lia.
    rewrite (to_int32_small (Z.shiftr v k)) by lia. reflexivity. }
  rewrite E.
  assert (Hneg : Z.lor v (Z.shiftr v k) < 0) by (apply Z.lor_neg; left; lia).
  split; [split; [|exact Hneg]|].
  - apply in_range_neg; [exact Hneg|].
    intros i Hi. rewrite Z.lor_spec, (neg_high_bits v Hv i Hi). reflexivity.
  - intros i Hi0 Hi. rewrite Z.lor_spec, Z.shiftr_spec by lia.
    destruct (Z_le_gt_dec lo i) as [Hle | Hgt].
    + rewrite (Hs i) by lia. reflexivity.
    + rewrite (Hs (i + k)) by lia. apply orb_true_r.
Qed.

Lemma smear_all_neg (v : Z) :
  - 2 ^ 31 <= v < 0 ->
  let v1 := Z.lor (to_int32 v) (to_int32 (Z.shiftr (to_int32 v) 1)) in
  let v2 := Z.lor (to_int32 v1) (to_int32 (Z.shiftr (to_int32 v1) 2)) in
  let v3 := Z.lor (to_int32 v2) (to_int32 (Z.shiftr (to_int32 v2) 4)) in
  let v4 := Z.lor (to_int32 v3) (to_int32 (Z.shiftr (to_int32 v3) 8)) in
  let v5 := Z.lor (to_int32 v4) (to_int32 (Z.shiftr (to_int32 v4) 16)) in
  v5 = -1.
Proof.
  intros Hv v1 v2 v3 v4 v5.
  assert (S0 : Spec2.bits_set_between 31 31 v).
  { intros i _ Hi. apply neg_high_bits; [exact Hv | lia]. }
  destruct (smear_step_neg 1 31 v) as (P1 & S1); try assumption; try lia.
  fold v1 in P1, S1.
  destruct (smear_step_neg 2 (31 - 1) v1) as (P2 & S2); try assumption; try lia.
  fold v2 in P2, S2.
  destruct (smear_step_neg 4 (31 - 1 - 2) v2) as (P3 & S3);
    try assumption; try lia.
  fold v3 in P3, S3.
  destruct (smear_step_neg 8 (31 - 1 - 2 - 4) v3) as (P4 & S4);
    try assumption; try lia.
  fold v4 in P4, S4.
  destruct (smear_step_neg 16 (31 - 1 - 2 - 4 - 8) v4) as (P5 & S5);
    try assumption; try lia.
  fold v5 in P5, S5.
  clearbody v1 v2 v3 v4 v5.
  apply Z.bits_inj'. intros i Hi. rewrite Z.bits_m1 by lia.
  destruct (Z_le_gt_dec i 31) as [Hle | Hgt].
  - apply S5; lia.
  - apply neg_high_bits; [exact P5 | lia].
Qed.

(** X7: for an argument between 1 and 2^30, [nextPowerOfTwo] returns the
    least power of two that is at least the argument; for an argument
    that is zero or negative (above -2^31) it returns 0, which is not a
    power of two. *)
Theorem nextPowerOfTwo_least_power (value : Z) :
  - 2 ^ 31 < value <= 2 ^ 30 ->
  (value <= 0 -> nextPowerOfTwo value = 0)
  /\ (1 <= value ->
      exists k, 0 <= k /\ nextPowerOfTwo value = 2 ^ k
                /\ value <= 2 ^ k < 2 * value).
Proof.
  intros Hr. split.
  - intros Hneg. unfold nextPowerOfTwo.
    rewrite (smear_all_neg (value - 1)) by lia. reflexivity.
  - intros Hpos. destruct (Z.eq_dec value 1) as [-> | Hne].
    + exists 0. repeat split; try lia; vm_compute; reflexivity.
    + exists (Z.log2 (value - 1) + 1).
      assert (Hv : 0 < value - 1 < 2 ^ 31) by lia.
      assert (Hn0 : 0 <= Z.log2 (value - 1)) by apply Z.log2_nonneg.
      destruct (Z.log2_spec (value - 1)) as [Hlo Hhi]; [lia|].
      rewrite <- Z.add_1_r in Hhi.
      assert (Hd : 2 ^ (Z.log2 (value - 1) + 1) = 2 * 2 ^ Z.log2 (value - 1)).
      { rewrite Z.pow_add_r by lia. lia. }
      split; [lia|]. split.
      * unfold nextPowerOfTwo. rewrite (smear_all (value - 1) Hv). lia.
      * lia.
Qed.

Lemma nextPowerOfTwo_least_power_witness :
  (5 <= 0 -> nextPowerOfTwo 5 = 0)
  /\ (1 <= 5 ->
      exists k, 0 <= k /\ nextPowerOfTwo 5 = 2 ^ k /\ 5 <= 2 ^ k < 2 * 5).
Proof. apply (nextPowerOfTwo_least_power 5). lia. Defined.

(** A positive number and its predecessor share no bit exactly when the
    number is a power of two. *)
Lemma land_pred_zero (v : Z) :
  0 < v -> (Z.land v (v - 1) = 0 <-> exists k, 0 <= k /\ v = 2 ^ k).
Proof.
  intros Hv. split.
  - intros Hl. exists (Z.log2 v).
    assert (Hn0 : 0 <= Z.log2 v) by apply Z.log2_nonneg.
    split; [exact Hn0|].
    destruct (Z.log2_spec v Hv) as [Hlo Hhi].
    destruct (Z.eq_dec v (2 ^ Z.log2 v)) as [E | E]; [exact E | exfalso].
    assert (Hb1 : Z.testbit v (Z.log2 v) = true) by (apply Z.bit_log2; lia).
    assert (Hl2 : Z.log2 (v - 1) = Z.log2 v).
    { apply Z.log2_unique; [exact Hn0|]. rewrite <- Z.add_1_r in Hhi |- *. lia. }
    assert (Hb2 : Z.testbit (v - 1) (Z.log2 v) = true).
    { rewrite <- Hl2. apply Z.bit_log2.
      assert (0 < 2 ^ Z.log2 v) by (apply Z.pow_pos_nonneg; lia). lia. }
    assert (Hb : Z.testbit (Z.land v (v - 1)) (Z.log2 v) = true).
    { rewrite Z.land_spec, Hb1, Hb2. reflexivity. }
    rewrite Hl, Z.bits_0 in Hb. discriminate.
  - intros (k & Hk & ->).
    apply Z.bits_inj'. intros i Hi.
    rewrite Z.land_spec, Z.bits_0.
    replace (2 ^ k - 1) with (Z.ones k) by (rewrite Z.ones_equiv; lia).
    destruct (Z.eq_dec i k) as [-> | Hne].
    + rewrite Z.ones_spec_high by lia. apply andb_false_r.
    + rewrite Z.pow2_bits_false by lia. reflexivity.
Qed.

(** X8: for every 32-bit signed integer, [isPowerOfTwo] holds exactly
    when the argument is 2^k for some k >= 0; zero and the negative
    numbers are rejected. *)
Theorem isPowerOfTwo_iff (value : Z) :
  - 2 ^ 31 <= value < 2 ^ 31 ->
  (isPowerOfTwo value = true <-> exists k, 0 <= k /\ value = 2 ^ k).
Proof.
  intros Hr. unfold isPowerOfTwo.
  destruct (Z.ltb_spec 0 value) as [Hpos | Hneg]; cbn [andb].
  - rewrite (to_int32_small value), (to_int32_small (value - 1)) by lia.
    rewrite Z.eqb_eq. apply land_pred_zero. exact Hpos.
  - split; [discriminate|].
    intros (k & Hk & ->).
    assert (0 < 2 ^ k) by (apply Z.pow_pos_nonneg; lia). lia.
Qed.

Lemma isPowerOfTwo_iff_witness :
  isPowerOfTwo 64 = true <-> exists k, 0 <= k /\ 64 = 2 ^ k.
Proof. apply (isPowerOfTwo_iff 64). lia. Defined.

End Int32.

(** ** Output parameters that alias an input *)

Section Aliasing.
  Context {F : Type} `{Arith F} `{Trig F}.

Lemma write_same {T : Type} (h : Store.t T) (r : Store.ref) (f : T -> T) :
  Store.write h r f r = f (h r).
Proof. unfold Store.write. rewrite Nat.eqb_refl. reflexivity. Qed.

Lemma write_other {T : Type} (h : Store.t T) (r r' : Store.ref) (f : T -> T) :
  r' <> r -> Store.write h r f r' = h r'.
Proof.
  intros Hr. unfold Store.write.
  destruct (Nat.eqb_spec r' r) as [E | E]; [contradiction | reflexivity].
Qed.

(** Moves the outermost local definition of the goal to the context. *)
Ltac peel_let :=
  lazymatch goal with
  | |- (let x := ?v in @?B x) ?r = ?R =>
      let y := fresh x in
      change (let y := v in B y r = R); intro y; cbv beta
  end.

(** Replaces the definition of each store of the context by what is known
    of it: the object written and the objects left alone. *)
Ltac forget_writes ro :=
  repeat match goal with
  | hk := Store.write ?hp ro ?f |- _ =>
      let Hs := fresh "Hs" in let Ho := fresh "Ho" in
      assert (Hs : hk ro = f (hp ro)) by (exact (write_same hp ro f));
      assert (Ho : forall r, r <> ro -> hk r = hp r)
        by (intros; apply write_other; assumption);
      clearbody hk
  end.

(** Reads the object at [ro] and the objects elsewhere off the facts
    left by [forget_writes]. *)
Ltac read_writes ro :=
  repeat match goal with
  | Hs : ?hk ro = _ |- context [?hk ro] => rewrite Hs
  | Ho : (forall r, r <> ro -> ?hk r = _), E : ?rb <> ro
    |- context [?hk ?rb] => rewrite (Ho rb E)
  end.


(** X9: [Mat4.multiply(a, b, out)] is safe under every aliasing of its
    three parameters: whichever of [a], [b] and [out] are the same
    object, [out] ends up holding the product of the matrices that [a]
    and [b] held before the call, and no other object changes. *)
Theorem Mat4_multiply_static_alias_safe :
  forall (ra rb ro : Store.ref) (h : Store.t (Mat4.t F)),
    Mat4.multiply_static_at ra rb ro h ro = Mat4.multiply_static (h ra) (h rb)
    /\ forall r : Store.ref, r <> ro -> Mat4.multiply_static_at ra rb ro h r = h r.
Proof.
  intros ra rb ro h. split.
  - cbv beta delta [Mat4.multiply_static_at]. repeat peel_let.
    forget_writes ro.
    assert (B0 : bx0 = Mat4.m04 (h rb) /\ by_0 = Mat4.m05 (h rb)
                 /\ bz0 = Mat4.m06 (h rb) /\ bw0 = Mat4.m07 (h rb)).
    { subst bx0 by_0 bz0 bw0. destruct (Nat.eq_dec rb ro) as [E | E].
      - subst rb. read_writes ro. destruct (h ro). repeat split; reflexivity.
      - read_writes ro. repeat split; reflexivity. }
    destruct B0 as (Bx0 & By0 & Bz0 & Bw0).
    clearbody bx0 by_0 bz0 bw0.
    assert (B1 : bx1 = Mat4.m08 (h rb) /\ by_1 = Mat4.m09 (h rb)
                 /\ bz1 = Mat4.m10 (h rb) /\ bw1 = Mat4.m11 (h rb)).
    { subst bx1 by_1 bz1 bw1. destruct (Nat.eq_dec rb ro) as [E | E].
      - subst rb. read_writes ro. destruct (h ro). repeat split; reflexivity.
      - read_writes ro. repeat split; reflexivity. }
    destruct B1 as (Bx1 & By1 & Bz1 & Bw1).
    clearbody bx1 by_1 bz1 bw1.
    assert (B2 : bx2 = Mat4.m12 (h rb) /\ by_2 = Mat4.m13 (h rb)
                 /\ bz2 = Mat4.m14 (h rb) /\ bw2 = Mat4.m15 (h rb)).
    { subst bx2 by_2 bz2 bw2. destruct (Nat.eq_dec rb ro) as [E | E].
      - subst rb. read_writes ro. destruct (h ro). repeat split; reflexivity.
      - read_writes ro. repeat split; reflexivity. }
    destruct B2 as (Bx2 & By2 & Bz2 & Bw2).
    clearbody bx2 by_2 bz2 bw2.
    read_writes ro. subst.
    destruct (h ro). reflexivity.
  - intros r Hr. cbv beta delta [Mat4.multiply_static_at]. repeat peel_let.
    forget_writes ro. read_writes ro. reflexivity.
Qed.


(** X11: [Quat.slerp(a, b, t, out)] copies [a] into [out] before it reads
    [b].  With [out] another object than [b] the result is the
    interpolation of [a] and [b]; with [out] the same object as [b], the
    value of [b] is lost before it is used and the result is the
    interpolation of [a] with itself. *)
Theorem Quat_slerp_static_alias :
  forall (ra rb ro : Store.ref) (t' : F) (h : Store.t (Quat.t F)),
    (rb <> ro ->
     Quat.slerp_static_at ra rb ro t' h ro
     = Quat.slerp_static (h ra) (h rb) t' (h ro))
    /\ Quat.slerp_static_at ra rb rb t' h rb
       = Quat.slerp_static (h ra) (h ra) t' (h rb).
Proof.
  intros ra rb ro t' h. split.
  - intros E. cbv beta delta [Quat.slerp_static_at]. repeat peel_let.
    forget_writes ro. read_writes ro. reflexivity.
  - cbv beta delta [Quat.slerp_static_at]. repeat peel_let.
    forget_writes rb. read_writes rb.
    unfold Quat.slerp_static, Quat.copy. destruct (h ra). reflexivity.
Qed.

End Aliasing.

(** ** Mat4 under exact real arithmetic *)

Section ExactMat4Algebra.
  Local Open Scope R_scope.

Ltac mat4_fields :=
  cbn [Mat4.m00 Mat4.m01 Mat4.m02 Mat4.m03 Mat4.m04 Mat4.m05 Mat4.m06
       Mat4.m07 Mat4.m08 Mat4.m09 Mat4.m10 Mat4.m11 Mat4.m12 Mat4.m13
       Mat4.m14 Mat4.m15 Vec3.x Vec3.y Vec3.z Vec4.x Vec4.y Vec4.z Vec4.w
       fadd fsub fmul fdiv fneg fofZ fsin fcos Exact.arith Exact.trig].

Lemma Mat4_multiply_assoc (a b c : Mat4.t R) :
  Mat4.multiply_static (Mat4.multiply_static a b) c
  = Mat4.multiply_static a (Mat4.multiply_static b c).
Proof.
  destruct a as [a0 a1 a2 a3 a4 a5 a6 a7 a8 a9 a10 a11 a12 a13 a14 a15].
  destruct b as [b0 b1 b2 b3 b4 b5 b6 b7 b8 b9 b10 b11 b12 b13 b14 b15].
  destruct c as [c0 c1 c2 c3 c4 c5 c6 c7 c8 c9 c10 c11 c12 c13 c14 c15].
  unfold Mat4.multiply_static. mat4_fields. apply Mat4_mk_eq; ring.
Qed.

Lemma Mat4_multiply_identity_l (a : Mat4.t R) :
  Mat4.multiply_static Mat4.identity a = a.
Proof.
  destruct a as [a0 a1 a2 a3 a4 a5 a6 a7 a8 a9 a10 a11 a12 a13 a14 a15].
  unfold Mat4.multiply_static, Mat4.identity, Mat4.new. mat4_fields.
  apply Mat4_mk_eq; ring.
Qed.

Lemma Mat4_multiply_identity_r (a : Mat4.t R) :
  Mat4.multiply_static a Mat4.identity = a.
Proof.
  destruct a as [a0 a1 a2 a3 a4 a5 a6 a7 a8 a9 a10 a11 a12 a13 a14 a15].
  unfold Mat4.multiply_static, Mat4.identity, Mat4.new. mat4_fields.
  apply Mat4_mk_eq; ring.
Qed.

(** X12: under exact real arithmetic the matrix product of
    [Mat4.multiply] is associative and has the identity matrix as left
    and right unit, and [transformVec4] is its action on vectors:
    (a b) v = a (b v).  [a.multiply(b)], [Mat4.multiply(a, b)] and
    [b.premultiply(a)] compute the same matrix, and [transformVec3] is
    [transformVec4] of the point with w = 1 followed by the division by
    the resulting w. *)
Theorem Mat4_multiply_monoid :
  forall (a b c : Mat4.t R) (v : Vec4.t R) (p : Vec3.t R),
    Mat4.multiply_static (Mat4.multiply_static a b) c
    = Mat4.multiply_static a (Mat4.multiply_static b c)
    /\ Mat4.multiply_static Mat4.identity a = a
    /\ Mat4.multiply_static a Mat4.identity = a
    /\ Mat4.multiply a b = Mat4.multiply_static a b
    /\ Mat4.premultiply b a = Mat4.multiply_static a b
    /\ Mat4.transformVec4 (Mat4.multiply_static a b) v
       = Mat4.transformVec4 a (Mat4.transformVec4 b v)
    /\ Mat4.transformVec3 a p
       = (let q := Mat4.transformVec4 a
                     (Vec4.mk (Vec3.x p) (Vec3.y p) (Vec3.z p) 1) in
          Vec3.mk (Vec4.x q / Vec4.w q) (Vec4.y q / Vec4.w q)
                  (Vec4.z q / Vec4.w q)).
Proof.
  intros a b c v p. split; [|split; [|split; [|split; [|split; [|split]]]]].
  - apply Mat4_multiply_assoc.
  - apply Mat4_multiply_identity_l.
  - apply Mat4_multiply_identity_r.
  - reflexivity.
  - destruct a, b. reflexivity.
  - destruct a as [a0 a1 a2 a3 a4 a5 a6 a7 a8 a9 a10 a11 a12 a13 a14 a15].
    destruct b as [b0 b1 b2 b3 b4 b5 b6 b7 b8 b9 b10 b11 b12 b13 b14 b15].
    destruct v as [vx vy vz vw].
    unfold Mat4.transformVec4, Mat4.multiply_static. mat4_fields.
    f_equal; ring.
  - destruct a as [a0 a1 a2 a3 a4 a5 a6 a7 a8 a9 a10 a11 a12 a13 a14 a15].
    destruct p as [px py pz].
    unfold Mat4.transformVec3, Mat4.transformVec4. mat4_fields.
    unfold Rdiv. rewrite !Rmult_1_r, !Rmult_1_l. reflexivity.
Qed.

Lemma Mat4_determinant_product (a b : Mat4.t R) :
  Mat4.determinant (Mat4.multiply_static a b)
  = Mat4.determinant a * Mat4.determinant b.
Proof.
  destruct a as [a0 a1 a2 a3 a4 a5 a6 a7 a8 a9 a10 a11 a12 a13 a14 a15].
  destruct b as [b0 b1 b2 b3 b4 b5 b6 b7 b8 b9 b10 b11 b12 b13 b14 b15].
  unfold Mat4.determinant, Mat4.multiply_static. mat4_fields. ring.
Qed.

(** X13: under exact real arithmetic [determinant] is multiplicative
    and invariant under [transpose], det(a b) = det(a) det(b) and
    det(transpose a) = det(a); [transpose] reverses products,
    transpose(a b) = transpose(b) transpose(a); transposing twice gives
    the matrix back, and the in-place and the static form of [transpose]
    agree. *)
Theorem Mat4_determinant_transpose :
  forall a b : Mat4.t R,
    Mat4.determinant (Mat4.multiply_static a b)
    = Mat4.determinant a * Mat4.determinant b
    /\ Mat4.determinant (Mat4.transpose a) = Mat4.determinant a
    /\ Mat4.transpose (Mat4.multiply_static a b)
       = Mat4.multiply_static (Mat4.transpose b) (Mat4.transpose a)
    /\ Mat4.transpose (Mat4.transpose a) = a
    /\ Mat4.transpose_static a = Mat4.transpose a.
Proof.
  intros a b. split; [|split; [|split; [|split]]].
  - apply Mat4_determinant_product.
  - destruct a as [a0 a1 a2 a3 a4 a5 a6 a7 a8 a9 a10 a11 a12 a13 a14 a15].
    unfold Mat4.determinant, Mat4.transpose. mat4_fields. ring.
  - destruct a as [a0 a1 a2 a3 a4 a5 a6 a7 a8 a9 a10 a11 a12 a13 a14 a15].
    destruct b as [b0 b1 b2 b3 b4 b5 b6 b7 b8 b9 b10 b11 b12 b13 b14 b15].
    unfold Mat4.multiply_static, Mat4.transpose. mat4_fields.
    apply Mat4_mk_eq; ring.
  - destruct a. reflexivity.
  - reflexivity.
Qed.

(** X14: under exact real arithmetic the in-place builders multiply on
    the right by the matrices of the static builders:
    [m.translate(x, y, z)] is m T(x, y, z), [m.scale(x, y, z)] is
    m S(x, y, z), and [m.rotateX(r)], [m.rotateY(r)], [m.rotateZ(r)] are
    m Rx(r), m Ry(r), m Rz(r). *)
Theorem Mat4_builders_multiply_right :
  forall (m : Mat4.t R) (x y z r : R),
    Mat4.translate m x y z = Mat4.multiply_static m (Mat4.fromTranslation x y z)
    /\ Mat4.scale m x y z = Mat4.multiply_static m (Mat4.fromScaling x y z)
    /\ Mat4.rotateX m r = Mat4.multiply_static m (Mat4.fromRotationX r)
    /\ Mat4.rotateY m r = Mat4.multiply_static m (Mat4.fromRotationY r)
    /\ Mat4.rotateZ m r = Mat4.multiply_static m (Mat4.fromRotationZ r).
Proof.
  intros [a0 a1 a2 a3 a4 a5 a6 a7 a8 a9 a10 a11 a12 a13 a14 a15] x y z r.
  split; [|split; [|split; [|split]]].
  - unfold Mat4.translate, Mat4.multiply_static, Mat4.fromTranslation.
    mat4_fields. apply Mat4_mk_eq; ring.
  - unfold Mat4.scale, Mat4.multiply_static, Mat4.fromScaling.
    mat4_fields. apply Mat4_mk_eq; ring.
  - unfold Mat4.rotateX, Mat4.multiply_static, Mat4.fromRotationX.
    mat4_fields. apply Mat4_mk_eq; ring.
  - unfold Mat4.rotateY, Mat4.multiply_static, Mat4.fromRotationY.
    mat4_fields. apply Mat4_mk_eq; ring.
  - unfold Mat4.rotateZ, Mat4.multiply_static, Mat4.fromRotationZ.
    mat4_fields. apply Mat4_mk_eq; ring.
Qed.

(** The cofactor matrix times [1 / det] is a left inverse as well. *)
Lemma Mat4_invert_body_left_inverse (m : Mat4.t R) :
  Mat4.determinant m <> 0 ->
  Mat4.multiply_static (Mat4.invert_body m) m = Mat4.identity.
Proof.
  intros Hdet.
  unfold Mat4.multiply_static, Mat4.invert_body, Mat4.identity, Mat4.new.
  cbn [fdiv fofZ Exact.arith].
  assert (Hd : Mat4.determinant m * (1 / Mat4.determinant m) = 1)
    by (field; exact Hdet).
  revert Hd. generalize (1 / Mat4.determinant m). intros d.
  destruct m as [a0 a1 a2 a3 a4 a5 a6 a7 a8 a9 a10 a11 a12 a13 a14 a15].
  unfold Mat4.determinant. mat4_fields.
  intros Hd.
  apply Mat4_mk_eq; first [ring | rewrite <- Hd; ring].
Qed.

Lemma Mat4_invert_body_determinant (m : Mat4.t R) :
  Mat4.determinant m <> 0 ->
  Mat4.determinant (Mat4.invert_body m) = 1 / Mat4.determinant m.
Proof.
  intros Hdet.
  assert (Hp : Mat4.determinant (Mat4.invert_body m) * Mat4.determinant m = 1).
  { rewrite <- Mat4_determinant_product, Mat4_invert_body_left_inverse
      by exact Hdet.
    unfold Mat4.determinant, Mat4.identity, Mat4.new. mat4_fields. ring. }
  apply (Rmult_eq_reg_r (Mat4.determinant m)); [|exact Hdet].
  rewrite Hp. field. exact Hdet.
Qed.

Lemma Mat4_invert_body_involutive (m : Mat4.t R) :
  Mat4.determinant m <> 0 ->
  Mat4.invert_body (Mat4.invert_body m) = m.
Proof.
  intros Hdet.
  assert (Hn : Mat4.determinant (Mat4.invert_body m) <> 0).
  { rewrite Mat4_invert_body_determinant by exact Hdet.
    unfold Rdiv. rewrite Rmult_1_l. apply Rinv_neq_0_compat. exact Hdet. }
  rewrite <- (Mat4_multiply_identity_l (Mat4.invert_body (Mat4.invert_body m))).
  rewrite <- (Mat4_invert_body_inverse m Hdet).
  rewrite Mat4_multiply_assoc.
  rewrite (Mat4_invert_body_inverse (Mat4.invert_body m) Hn).
  apply Mat4_multiply_identity_r.
Qed.

(** X15: under exact real arithmetic, for a matrix whose determinant has
    magnitude between 1e-6 and 1e6, [invert] returns a left inverse (as
    well as a right one), the determinant of the result is the
    reciprocal of the determinant, and inverting twice gives the matrix
    back.  (Below 1e-6 [invert] is a no-op; above 1e6 the second
    [invert] is.) *)
Theorem Mat4_invert_involution (m : Mat4.t R) :
  Constants.EPSILON <= Rabs (Mat4.determinant m) <= 1 / Constants.EPSILON ->
  Mat4.multiply_static (Mat4.invert m) m = Mat4.identity
  /\ Mat4.determinant (Mat4.invert m) = 1 / Mat4.determinant m
  /\ Mat4.invert (Mat4.invert m) = m.
Proof.
  intros [Hlo Hhi].
  pose proof ExactFacts.EPSILON_pos as He.
  assert (Hdet : Mat4.determinant m <> 0).
  { intros E. rewrite E, Rabs_R0 in Hlo. lra. }
  assert (Hg : Constants.magnitude_below (Mat4.determinant m)
                 Constants.EPSILON = false).
  { apply not_true_is_false. intros E.
    apply ExactFacts.magnitude_below_Rabs in E. lra. }
  assert (Hi : Mat4.invert m = Mat4.invert_body m).
  { rewrite Mat4_invert_unfold, Hg. reflexivity. }
  rewrite Hi. split; [|split].
  - apply Mat4_invert_body_left_inverse. exact Hdet.
  - apply Mat4_invert_body_determinant. exact Hdet.
  - rewrite Mat4_invert_unfold.
    rewrite Mat4_invert_body_determinant by exact Hdet.
    assert (Hg2 : Constants.magnitude_below (1 / Mat4.determinant m)
                    Constants.EPSILON = false).
    { apply not_true_is_false. intros E.
      apply ExactFacts.magnitude_below_Rabs in E.
      unfold Rdiv in E. rewrite Rmult_1_l, Rabs_inv in E.
      assert (Hp : 0 < Rabs (Mat4.determinant m)) by lra.
      assert (Hq : / Rabs (Mat4.determinant m) * Rabs (Mat4.determinant m) = 1)
        by (field; lra).
      assert (Hr : Constants.EPSILON * (1 / Constants.EPSILON) = 1)
        by (field; lra).
      assert (Hs : 0 < / Rabs (Mat4.determinant m))
        by (apply Rinv_0_lt_compat; exact Hp).
      nra. }
    rewrite Hg2. apply Mat4_invert_body_involutive. exact Hdet.
Qed.

Lemma Mat4_invert_involution_witness :
  let m : Mat4.t R := Mat4.mk 2 0 0 0  0 1 0 0  0 0 1 0  0 0 0 1 in
  Mat4.multiply_static (Mat4.invert m) m = Mat4.identity
  /\ Mat4.determinant (Mat4.invert m) = 1 / Mat4.determinant m
  /\ Mat4.invert (Mat4.invert m) = m.
Proof.
  intros m. apply (Mat4_invert_involution m).
  replace (Mat4.determinant m) with 2
    by (unfold m, Mat4.determinant; mat4_fields; ring).
  rewrite ExactFacts.EPSILON_real, Rabs_right by lra.
  split; [lra|].
  replace (1 / (1 / 1000000)) with 1000000 by field. lra.
Defined.

(** The view matrix with rows [x], [y], [z] and eye [e] maps a point [p]
    to the coordinates of [p - e] along [x], [y] and [z]. *)
Lemma view_matrix_point (xx xy xz yx yy yz zx zy zz ex ey ez px py pz : R) :
  Mat4.transformVec3
    (Mat4.mk xx yx zx 0 xy yy zy 0 xz yz zz 0
       (- (xx * ex + xy * ey + xz * ez))
       (- (yx * ex + yy * ey + yz * ez))
       (- (zx * ex + zy * ey + zz * ez)) 1)
    (Vec3.mk px py pz)
  = Vec3.mk (xx * (px - ex) + xy * (py - ey) + xz * (pz - ez))
            (yx * (px - ex) + yy * (py - ey) + yz * (pz - ez))
            (zx * (px - ex) + zy * (py - ey) + zz * (pz - ez)).
Proof.
  unfold Mat4.transformVec3. mat4_fields.
  replace (0 * px + 0 * py + 0 * pz + 1) with 1 by ring.
  unfold Rdiv. rewrite Rinv_1. f_equal; ring.
Qed.

(** X16: under exact real arithmetic the view matrix of [Mat4.lookAt]
    sends the eye to the origin, whatever the three vectors are; and
    when eye and target differ it sends the target to the point at
    their distance on the negative z axis. *)
Theorem Mat4_lookAt_eye_and_target :
  forall eye target up : Vec3.t R,
    Mat4.transformVec3 (Mat4.lookAt eye target up) eye = Vec3.mk 0 0 0
    /\ (0 < Vec3.distanceToSq eye target ->
        Mat4.transformVec3 (Mat4.lookAt eye target up) target
        = Vec3.mk 0 0 (- sqrt (Vec3.distanceToSq eye target))).
Proof.
  intros [ex ey ez] [tx ty tz] [ux uy uz].
  unfold Mat4.lookAt, Vec3.distanceToSq.
  cbn [Vec3.x Vec3.y Vec3.z fadd fsub fmul fdiv fneg fofZ fsqrt flt
       Exact.arith].
  set (len := (ex - tx) * (ex - tx) + (ey - ty) * (ey - ty)
              + (ez - tz) * (ez - tz)).
  split.
  - destruct (Exact.ltb 0 len);
      [generalize (1 / sqrt len); intros il|];
      match goal with
      | |- context [Exact.ltb 0 ?l] =>
          destruct (Exact.ltb 0 l);
          [generalize (1 / sqrt l); intros jl|]
      end;
      rewrite view_matrix_point; f_equal; ring.
  - intros Hlen.
    assert (Hs : 0 < sqrt len) by (apply sqrt_lt_R0; exact Hlen).
    assert (Hss : sqrt len * sqrt len = len) by (apply sqrt_sqrt; lra).
    replace (Exact.ltb 0 len) with true
      by (symmetry; apply ExactFacts.ltb_true; exact Hlen).
    assert (Hil : 1 / sqrt len * len = sqrt len).
    { rewrite <- Hss at 2. field. lra. }
    revert Hil. generalize (1 / sqrt len). intros il Hil.
    rewrite <- Hil. unfold len. clear.
    match goal with
    | |- context [Exact.ltb 0 ?l] =>
        destruct (Exact.ltb 0 l);
        [generalize (1 / sqrt l); intros jl|]
    end;
      rewrite view_matrix_point; f_equal; ring.
Qed.

End ExactMat4Algebra.

(** ** Quat under exact real arithmetic *)

Section ExactQuatAlgebra.
  Local Open Scope R_scope.

Ltac quat_fields :=
  cbn [Quat.x Quat.y Quat.z Quat.w Vec3.x Vec3.y Vec3.z
       Mat4.m00 Mat4.m01 Mat4.m02 Mat4.m03 Mat4.m04 Mat4.m05 Mat4.m06
       Mat4.m07 Mat4.m08 Mat4.m09 Mat4.m10 Mat4.m11 Mat4.m12 Mat4.m13
       Mat4.m14 Mat4.m15
       fadd fsub fmul fdiv fneg fofZ fsin fcos fsqrt Exact.arith Exact.trig].

Lemma Quat_mk_eq (a0 a1 a2 a3 b0 b1 b2 b3 : R) :
  a0 = b0 -> a1 = b1 -> a2 = b2 -> a3 = b3 ->
  Quat.mk a0 a1 a2 a3 = Quat.mk b0 b1 b2 b3.
Proof. intros. subst. reflexivity. Qed.

Lemma Vec3_mk_eq (a0 a1 a2 b0 b1 b2 : R) :
  a0 = b0 -> a1 = b1 -> a2 = b2 -> Vec3.mk a0 a1 a2 = Vec3.mk b0 b1 b2.
Proof. intros. subst. reflexivity. Qed.

Lemma Quat_transformVec3_product (a b : Quat.t R) (v : Vec3.t R) :
  Quat.transformVec3 (Quat.multiply a b) v
  = Quat.transformVec3 a (Quat.transformVec3 b v).
Proof.
  destruct a as [ax ay az aw], b as [bx by_ bz bw], v as [vx vy vz].
  unfold Quat.transformVec3, Quat.multiply. quat_fields.
  apply Vec3_mk_eq; ring.
Qed.

Lemma Quat_transformVec3_lengthSq (q : Quat.t R) (v : Vec3.t R) :
  Vec3.lengthSq (Quat.transformVec3 q v)
  = Quat.lengthSq q * Quat.lengthSq q * Vec3.lengthSq v.
Proof.
  destruct q as [qx qy qz qw], v as [vx vy vz].
  unfold Vec3.lengthSq, Quat.lengthSq, Quat.transformVec3. quat_fields. ring.
Qed.

(** X17: under exact real arithmetic the quaternion product of
    [multiply] is associative with (0, 0, 0, 1) as left and right unit,
    and the squared length of a product is the product of the squared
    lengths; [transformVec3] is its action on vectors, (a b) v = a (b v)
    for all quaternions, and multiplies the squared length of the vector
    by the fourth power of the length of the quaternion, so a unit
    quaternion preserves lengths.  [a.multiply(b)], [Quat.multiply(a, b)]
    and [b.premultiply(a)] compute the same quaternion. *)
Theorem Quat_multiply_monoid :
  forall (a b c : Quat.t R) (v : Vec3.t R),
    Quat.multiply (Quat.multiply a b) c = Quat.multiply a (Quat.multiply b c)
    /\ Quat.multiply (Quat.mk 0 0 0 1) a = a
    /\ Quat.multiply a (Quat.mk 0 0 0 1) = a
    /\ Quat.lengthSq (Quat.multiply a b) = Quat.lengthSq a * Quat.lengthSq b
    /\ Quat.multiply_static a b = Quat.multiply a b
    /\ Quat.premultiply b a = Quat.multiply a b
    /\ Quat.transformVec3 (Quat.multiply a b) v
       = Quat.transformVec3 a (Quat.transformVec3 b v)
    /\ Vec3.lengthSq (Quat.transformVec3 a v)
       = Quat.lengthSq a * Quat.lengthSq a * Vec3.lengthSq v
    /\ (Spec.unit_quat a -> Vec3.length (Quat.transformVec3 a v) = Vec3.length v).
Proof.
  intros a b c v.
  split; [|split; [|split; [|split; [|split; [|split; [|split; [|split]]]]]]].
  - destruct a as [ax ay az aw], b as [bx by_ bz bw], c as [cx cy cz cw].
    unfold Quat.multiply. quat_fields. apply Quat_mk_eq; ring.
  - destruct a as [ax ay az aw].
    unfold Quat.multiply. quat_fields. apply Quat_mk_eq; ring.
  - destruct a as [ax ay az aw].
    unfold Quat.multiply. quat_fields. apply Quat_mk_eq; ring.
  - destruct a as [ax ay az aw], b as [bx by_ bz bw].
    unfold Quat.lengthSq, Quat.multiply. quat_fields. ring.
  - reflexivity.
  - reflexivity.
  - apply Quat_transformVec3_product.
  - apply Quat_transformVec3_lengthSq.
  - intros Ha.
    pose proof (Quat_transformVec3_lengthSq a v) as Hl.
    assert (Hu : Quat.lengthSq a = 1) by exact Ha.
    rewrite Hu in Hl.
    rewrite !Vec3_length_R.
    unfold Vec3.lengthSq in Hl. cbn [fadd fmul Exact.arith] in Hl.
    rewrite Hl. f_equal. ring.
Qed.

(** X18: under exact real arithmetic, for a unit quaternion, the matrix
    of [toMat4] rotates directions as [transformVec3] does, and [toMat4]
    turns quaternion products into matrix products. *)
Theorem Quat_toMat4_rotation (a b : Quat.t R) :
  Spec.unit_quat a -> Spec.unit_quat b ->
  (forall v : Vec3.t R,
     Mat4.transformDirection (Quat.toMat4 a) v = Quat.transformVec3 a v)
  /\ Quat.toMat4 (Quat.multiply a b)
     = Mat4.multiply_static (Quat.toMat4 a) (Quat.toMat4 b).
Proof.
  destruct a as [ax ay az aw], b as [bx by_ bz bw].
  unfold Spec.unit_quat. quat_fields. intros Ha Hb.
  assert (Ha' : aw * aw = 1 - ax * ax - ay * ay - az * az) by lra.
  assert (Hb' : bw * bw = 1 - bx * bx - by_ * by_ - bz * bz) by lra.
  split.
  - intros [vx vy vz].
    unfold Mat4.transformDirection, Quat.toMat4, Quat.transformVec3.
    quat_fields. apply Vec3_mk_eq.
    + replace (1 - (ay * (ay + ay) + az * (az + az)))
        with (ax * ax + aw * aw - ay * ay - az * az) by (rewrite Ha'; ring).
      ring.
    + replace (1 - (ax * (ax + ax) + az * (az + az)))
        with (ay * ay + aw * aw - ax * ax - az * az) by (rewrite Ha'; ring).
      ring.
    + replace (1 - (ax * (ax + ax) + ay * (ay + ay)))
        with (az * az + aw * aw - ax * ax - ay * ay) by (rewrite Ha'; ring).
      ring.
  - unfold Quat.toMat4, Quat.multiply, Mat4.multiply_static. quat_fields.
    apply Mat4_mk_eq; try ring; nsatz.
Qed.

Lemma Quat_toMat4_rotation_witness :
  let a : Quat.t R := Quat.mk 0 1 0 0 in
  let b : Quat.t R := Quat.mk 1 0 0 0 in
  (forall v : Vec3.t R,
     Mat4.transformDirection (Quat.toMat4 a) v = Quat.transformVec3 a v)
  /\ Quat.toMat4 (Quat.multiply a b)
     = Mat4.multiply_static (Quat.toMat4 a) (Quat.toMat4 b).
Proof.
  intros a b. apply (Quat_toMat4_rotation a b).
  - unfold Spec.unit_quat, a. quat_fields. ring.
  - unfold Spec.unit_quat, b. quat_fields. ring.
Defined.

Lemma Quat_guard_R (q : Quat.t R) :
  Quat.x q * Quat.x q + Quat.y q * Quat.y q + Quat.z q * Quat.z q
  + Quat.w q * Quat.w q = Quat.lengthSq q.
Proof. reflexivity. Qed.

(** X19: under exact real arithmetic, for a quaternion whose squared
    length is at least 1e-6, [invert] returns the two-sided inverse for
    [multiply], and the static form returns the same quaternion.  Below
    1e-6 the two forms differ: the method leaves the quaternion
    unchanged, the static form returns the identity (0, 0, 0, 1).  For a
    unit quaternion the inverse is the conjugate. *)
Theorem Quat_invert_inverse :
  forall q : Quat.t R,
    (Constants.EPSILON <= Quat.lengthSq q ->
     Quat.multiply q (Quat.invert q) = Quat.mk 0 0 0 1
     /\ Quat.multiply (Quat.invert q) q = Quat.mk 0 0 0 1
     /\ Quat.invert_static q = Quat.invert q)
    /\ (Quat.lengthSq q < Constants.EPSILON ->
        Quat.invert q = q /\ Quat.invert_static q = Quat.mk 0 0 0 1)
    /\ (Spec.unit_quat q -> Quat.invert q = Quat.conjugate q).
Proof.
  intros q. pose proof ExactFacts.EPSILON_pos as He. split; [|split].
  - intros Hl.
    assert (Hg : Exact.ltb (Quat.lengthSq q) Constants.EPSILON = false)
      by (apply ExactFacts.ltb_false; exact Hl).
    unfold Quat.invert, Quat.invert_static.
    cbn [flt Exact.arith]. rewrite !Quat_guard_R, Hg.
    assert (Hd : Quat.lengthSq q * (1 / Quat.lengthSq q) = 1)
      by (field; lra).
    cbn [fdiv fofZ Exact.arith].
    revert Hd. generalize (1 / Quat.lengthSq q). intros d.
    destruct q as [qx qy qz qw].
    unfold Quat.lengthSq, Quat.multiply. quat_fields. intros Hd.
    split; [|split].
    + apply Quat_mk_eq; first [ring | rewrite <- Hd; ring].
    + apply Quat_mk_eq; first [ring | rewrite <- Hd; ring].
    + reflexivity.
  - intros Hl.
    assert (Hg : Exact.ltb (Quat.lengthSq q) Constants.EPSILON = true)
      by (apply ExactFacts.ltb_true; exact Hl).
    unfold Quat.invert, Quat.invert_static.
    cbn [flt Exact.arith]. rewrite !Quat_guard_R, Hg.
    split; reflexivity.
  - intros Hq.
    assert (Hl : Quat.lengthSq q = 1) by exact Hq.
    unfold Quat.invert, Quat.conjugate.
    cbn [flt Exact.arith]. rewrite !Quat_guard_R, Hl.
    replace (Exact.ltb 1 Constants.EPSILON) with false
      by (symmetry; apply ExactFacts.ltb_false;
          rewrite ExactFacts.EPSILON_real; lra).
    destruct q as [qx qy qz qw]. quat_fields.
    apply Quat_mk_eq; field.
Qed.

(** X20: under exact real arithmetic [fromEuler] and [setFromEuler]
    return a unit quaternion for all angles, the product of the
    rotations about z, y and x in this order; [fromAxisAngle] returns a
    unit quaternion when the axis has length 1; and [q.rotateX(r)],
    [q.rotateY(r)], [q.rotateZ(r)] multiply [q] on the right by the
    rotation about the coordinate axis. *)
Theorem Quat_euler_axis_angle :
  forall (x y z r : R) (q out : Quat.t R) (axis : Vec3.t R),
    Spec.unit_quat (Quat.fromEuler x y z)
    /\ Quat.setFromEuler out x y z = Quat.fromEuler x y z
    /\ Quat.fromEuler x y z
       = Quat.multiply
           (Quat.multiply (Quat.fromAxisAngle (Vec3.mk 0 0 1) z)
                          (Quat.fromAxisAngle (Vec3.mk 0 1 0) y))
           (Quat.fromAxisAngle (Vec3.mk 1 0 0) x)
    /\ (Vec3.lengthSq axis = 1 -> Spec.unit_quat (Quat.fromAxisAngle axis r))
    /\ Quat.rotateX q r = Quat.multiply q (Quat.fromAxisAngle (Vec3.mk 1 0 0) r)
    /\ Quat.rotateY q r = Quat.multiply q (Quat.fromAxisAngle (Vec3.mk 0 1 0) r)
    /\ Quat.rotateZ q r = Quat.multiply q (Quat.fromAxisAngle (Vec3.mk 0 0 1) r).
Proof.
  intros x y z r [qx qy qz qw] out [ax ay az].
  split; [|split; [|split; [|split; [|split; [|split]]]]].
  - unfold Spec.unit_quat, Quat.fromEuler. quat_fields.
    generalize (x * dec 5 1) (y * dec 5 1) (z * dec 5 1). intros a b c.
    pose proof (sin2_cos2 a) as Ha. pose proof (sin2_cos2 b) as Hb.
    pose proof (sin2_cos2 c) as Hc. unfold Rsqr in Ha, Hb, Hc.
    nsatz.
  - reflexivity.
  - unfold Quat.fromEuler, Quat.fromAxisAngle, Quat.multiply. quat_fields.
    apply Quat_mk_eq; ring.
  - unfold Spec.unit_quat, Quat.fromAxisAngle, Vec3.lengthSq. quat_fields.
    intros Hax. generalize (r * dec 5 1). intros a.
    pose proof (sin2_cos2 a) as Ha. unfold Rsqr in Ha.
    nsatz.
  - unfold Quat.rotateX, Quat.fromAxisAngle, Quat.multiply. quat_fields.
    apply Quat_mk_eq; ring.
  - unfold Quat.rotateY, Quat.fromAxisAngle, Quat.multiply. quat_fields.
    apply Quat_mk_eq; ring.
  - unfold Quat.rotateZ, Quat.fromAxisAngle, Quat.multiply. quat_fields.
    apply Quat_mk_eq; ring.
Qed.

Lemma sqrt_four_sq (c : R) : sqrt (4 * (c * c)) = 2 * Rabs c.
Proof.
  replace (4 * (c * c)) with (Rsqr (2 * c)) by (unfold Rsqr; ring).
  rewrite sqrt_Rsqr_abs, Rabs_mult, (Rabs_right 2) by lra. reflexivity.
Qed.

Lemma dec_5_1 : dec (F:=R) 5 1 = 1 / 2.
Proof.
  rewrite ExactFacts.dec_value.
  replace (10 ^ Z.of_nat 1)%Z with 10%Z by (vm_compute; reflexivity).
  field.
Qed.

Lemma dec_25_2 : dec (F:=R) 25 2 = 1 / 4.
Proof.
  rewrite ExactFacts.dec_value.
  replace (10 ^ Z.of_nat 2)%Z with 100%Z by (vm_compute; reflexivity).
  field.
Qed.

(** Splits on the sign of the dominating component [c], known not to be
    zero, and closes the two cases by field arithmetic. *)
Ltac by_sign c Hc :=
  destruct (Rlt_dec 0 c) as [Hpos | Hneg];
  [ left; rewrite (Rabs_right c) by lra
  | right; rewrite (Rabs_left c) by lra ];
  apply Quat_mk_eq; field; lra.

(** X21: under exact real arithmetic, for a unit quaternion [q],
    [Quat.fromRotationMatrix(q.toMat4())] is [q] or [-q], the two
    quaternions of the same rotation, in each of the four branches of
    the conversion. *)
Theorem Quat_fromRotationMatrix_round_trip (q : Quat.t R) :
  Spec.unit_quat q ->
  Quat.fromRotationMatrix (Quat.toMat4 q) = q
  \/ Quat.fromRotationMatrix (Quat.toMat4 q)
     = Quat.mk (- Quat.x q) (- Quat.y q) (- Quat.z q) (- Quat.w q).
Proof.
  destruct q as [x y z w]. unfold Spec.unit_quat. quat_fields. intros Hq.
  unfold Quat.fromRotationMatrix, Quat.toMat4. quat_fields.
  cbn [flt Exact.arith]. rewrite dec_5_1, dec_25_2.
  destruct (Exact.ltb 0 _) eqn:E1.
  - apply ExactFacts.ltb_true in E1.
    replace (1 - (y * (y + y) + z * (z + z)) + (1 - (x * (x + x) + z * (z + z)))
             + (1 - (x * (x + x) + y * (y + y))) + 1)
      with (4 * (w * w)) by nsatz.
    rewrite sqrt_four_sq.
    assert (Hw : w <> 0) by (intros ->; nra).
    by_sign w Hw.
  - apply ExactFacts.ltb_false in E1.
    destruct (Exact.ltb _ _ && Exact.ltb _ _) eqn:E2.
    + apply andb_true_iff in E2. destruct E2 as [E2 E3].
      apply ExactFacts.ltb_true in E2, E3.
      replace (1 + (1 - (y * (y + y) + z * (z + z)))
               - (1 - (x * (x + x) + z * (z + z)))
               - (1 - (x * (x + x) + y * (y + y))))
        with (4 * (x * x)) by ring.
      rewrite sqrt_four_sq.
      assert (Hx : x <> 0) by (intros ->; nra).
      by_sign x Hx.
    + apply andb_false_iff in E2.
      destruct (Exact.ltb _ _) eqn:E4 in |- *.
      * apply ExactFacts.ltb_true in E4.
        replace (1 + (1 - (x * (x + x) + z * (z + z)))
                 - (1 - (y * (y + y) + z * (z + z)))
                 - (1 - (x * (x + x) + y * (y + y))))
          with (4 * (y * y)) by ring.
        rewrite sqrt_four_sq.
        assert (Hy : y <> 0) by (intros ->; nra).
        by_sign y Hy.
      * apply ExactFacts.ltb_false in E4.
        replace (1 + (1 - (x * (x + x) + y * (y + y)))
                 - (1 - (y * (y + y) + z * (z + z)))
                 - (1 - (x * (x + x) + z * (z + z))))
          with (4 * (z * z)) by ring.
        rewrite sqrt_four_sq.
        assert (Hz : z <> 0).
        { intros ->.
          destruct E2 as [E2 | E2]; apply ExactFacts.ltb_false in E2; nra. }
        by_sign z Hz.
Qed.

Lemma Quat_fromRotationMatrix_round_trip_witness :
  let q : Quat.t R := Quat.mk 0 1 0 0 in
  Quat.fromRotationMatrix (Quat.toMat4 q) = q
  \/ Quat.fromRotationMatrix (Quat.toMat4 q)
     = Quat.mk (- Quat.x q) (- Quat.y q) (- Quat.z q) (- Quat.w q).
Proof.
  intros q. apply (Quat_fromRotationMatrix_round_trip q).
  unfold Spec.unit_quat, q. cbn [Quat.x Quat.y Quat.z Quat.w]. ring.
Defined.

End ExactQuatAlgebra.

(** ** Transform under exact real arithmetic *)

Section ExactTransform.
  Local Open Scope R_scope.

Ltac trs_fields :=
  cbn [Transform.position Transform.rotation Transform.scale
       Transform._matrix Transform._dirty
       Quat.x Quat.y Quat.z Quat.w Vec3.x Vec3.y Vec3.z
       Mat4.m00 Mat4.m01 Mat4.m02 Mat4.m03 Mat4.m04 Mat4.m05 Mat4.m06
       Mat4.m07 Mat4.m08 Mat4.m09 Mat4.m10 Mat4.m11 Mat4.m12 Mat4.m13
       Mat4.m14 Mat4.m15
       fadd fsub fmul fdiv fneg fofZ fsin fcos fsqrt Exact.arith Exact.trig].

(** X22: under exact real arithmetic the matrix written by
    [computeMatrix] is the product T R S of the translation matrix of
    [position], the rotation matrix of [rotation] and the scaling matrix
    of [scale], and [getTranslation] reads the position back from it;
    for a unit rotation, transforming a point by that matrix is
    [transformPoint], and [getScaling] reads back the absolute values of
    the scale. *)
Theorem Transform_computeMatrix_TRS :
  forall (a : Transform.t R) (out : Mat4.t R),
    Transform.computeMatrix a out
    = Mat4.multiply_static
        (Mat4.multiply_static
           (Mat4.fromTranslation (Vec3.x (Transform.position a))
              (Vec3.y (Transform.position a)) (Vec3.z (Transform.position a)))
           (Quat.toMat4 (Transform.rotation a)))
        (Mat4.fromScaling (Vec3.x (Transform.scale a))
           (Vec3.y (Transform.scale a)) (Vec3.z (Transform.scale a)))
    /\ Mat4.getTranslation (Transform.computeMatrix a out)
       = Transform.position a
    /\ (Spec.unit_quat (Transform.rotation a) ->
        (forall v : Vec3.t R,
           Mat4.transformVec3 (Transform.computeMatrix a out) v
           = Transform.transformPoint a v)
        /\ Mat4.getScaling (Transform.computeMatrix a out)
           = Vec3.mk (Rabs (Vec3.x (Transform.scale a)))
                     (Rabs (Vec3.y (Transform.scale a)))
                     (Rabs (Vec3.z (Transform.scale a)))).
Proof.
  intros [[px py pz] [qx qy qz qw] [sx sy sz] mt d] out.
  split; [|split].
  - unfold Transform.computeMatrix, Mat4.multiply_static, Mat4.fromTranslation,
      Mat4.fromScaling, Quat.toMat4.
    trs_fields. apply Mat4_mk_eq; ring.
  - reflexivity.
  - unfold Spec.unit_quat. trs_fields. intros Hq. split.
    + intros [vx vy vz].
      unfold Transform.computeMatrix, Mat4.transformVec3,
        Transform.transformPoint.
      trs_fields.
      replace (0 * vx + 0 * vy + 0 * vz + 1) with 1 by ring.
      unfold Rdiv. rewrite Rinv_1.
      f_equal; nsatz.
    + unfold Transform.computeMatrix, Mat4.getScaling. trs_fields.
      apply Vec3_mk_eq.
      * rewrite <- sqrt_Rsqr_abs. f_equal. unfold Rsqr. nsatz.
      * rewrite <- sqrt_Rsqr_abs. f_equal. unfold Rsqr. nsatz.
      * rewrite <- sqrt_Rsqr_abs. f_equal. unfold Rsqr. nsatz.
Qed.

Lemma invert_unit_uniform (px py pz qx qy qz qw s : R) mt d :
  qx * qx + qy * qy + qz * qz + qw * qw = 1 ->
  Transform.invert
    (Transform.mk (Vec3.mk px py pz) (Quat.mk qx qy qz qw) (Vec3.mk s s s) mt d)
  = Transform.mk
      (Quat.transformVec3 (Quat.mk (- qx) (- qy) (- qz) qw)
         (Vec3.mk ((- px + 0) * (1 / s)) ((- py + 0) * (1 / s))
                  ((- pz + 0) * (1 / s))))
      (Quat.mk (- qx) (- qy) (- qz) qw)
      (Vec3.mk (1 / s) (1 / s) (1 / s)) mt true.
Proof.
  intros Hq. unfold Transform.invert, Quat.invert. trs_fields.
  cbn [flt Exact.arith]. rewrite Hq.
  replace (Exact.ltb 1 Constants.EPSILON) with false
    by (symmetry; apply ExactFacts.ltb_false;
        rewrite ExactFacts.EPSILON_real; lra).
  unfold Vec3.mulScalar. trs_fields.
  replace (1 / 1) with 1 by field.
  f_equal.
  - f_equal; [apply Quat_mk_eq; ring | apply Vec3_mk_eq; ring].
  - apply Quat_mk_eq; ring.
Qed.

(** X23: under exact real arithmetic, for a transform with a unit
    rotation and a uniform non-zero scale, [invert] returns the inverse
    transform: transforming a point by the transform and then by its
    inverse, or the other way round, gives the point back. *)
Theorem Transform_invert_round_trip (a : Transform.t R) (v : Vec3.t R) :
  Spec.unit_quat (Transform.rotation a) ->
  Vec3.x (Transform.scale a) <> 0 ->
  Vec3.y (Transform.scale a) = Vec3.x (Transform.scale a) ->
  Vec3.z (Transform.scale a) = Vec3.x (Transform.scale a) ->
  Transform.transformPoint (Transform.invert a) (Transform.transformPoint a v) = v
  /\ Transform.transformPoint a (Transform.transformPoint (Transform.invert a) v) = v.
Proof.
  destruct a as [[px py pz] [qx qy qz qw] [sx sy sz] mt d].
  destruct v as [vx vy vz].
  unfold Spec.unit_quat. trs_fields. intros Hq Hs -> ->.
  rewrite (invert_unit_uniform px py pz qx qy qz qw sx mt d Hq).
  assert (Hd : sx * (1 / sx) = 1) by (field; exact Hs).
  revert Hd. generalize (1 / sx). intros r Hd.
  cbv [Transform.transformPoint Quat.transformVec3
       Transform.position Transform.rotation Transform.scale
       Quat.x Quat.y Quat.z Quat.w Vec3.x Vec3.y Vec3.z
       fadd fsub fmul fneg Exact.arith].
  split; apply Vec3_mk_eq; nsatz.
Qed.

Lemma Transform_invert_round_trip_witness :
  let a : Transform.t R :=
    Transform.mk (Vec3.mk 1 2 3) (Quat.mk 0 1 0 0) (Vec3.mk 2 2 2) None true in
  let v : Vec3.t R := Vec3.mk 1 0 0 in
  Transform.transformPoint (Transform.invert a) (Transform.transformPoint a v) = v
  /\ Transform.transformPoint a (Transform.transformPoint (Transform.invert a) v) = v.
Proof.
  intros a v. apply (Transform_invert_round_trip a v).
  - unfold Spec.unit_quat, a. trs_fields. ring.
  - unfold a. trs_fields. lra.
  - reflexivity.
  - reflexivity.
Defined.

(** X24: [rotateAxisAngle] does not compose with the rotation the
    transform had: it overwrites [rotation] with the axis-angle
    quaternion and multiplies that by itself, so the result is the same
    for every previous rotation; under exact real arithmetic and for an
    axis of length 1 it is the rotation by twice the angle. *)
Theorem Transform_rotateAxisAngle_overwrites :
  forall (a : Transform.t R) (axis : Vec3.t R) (radians : R),
    (forall q : Quat.t R,
       Transform.rotation
         (Transform.rotateAxisAngle (Transform.setRotationQuat a q) axis radians)
       = Transform.rotation (Transform.rotateAxisAngle a axis radians))
    /\ (Vec3.lengthSq axis = 1 ->
        Transform.rotation (Transform.rotateAxisAngle a axis radians)
        = Quat.fromAxisAngle axis (2 * radians)).
Proof.
  intros a [ax ay az] radians. split.
  - intros q. reflexivity.
  - unfold Vec3.lengthSq. trs_fields. intros Hax.
    unfold Transform.rotateAxisAngle, Quat.setFromAxisAngle,
      Quat.fromAxisAngle, Quat.multiply.
    trs_fields. rewrite dec_5_1.
    replace (2 * radians * (1 / 2)) with (2 * (radians * (1 / 2))) by ring.
    rewrite sin_2a, cos_2a.
    generalize (radians * (1 / 2)). intros h.
    pose proof (sin2_cos2 h) as Hh. unfold Rsqr in Hh.
    apply Quat_mk_eq; nsatz.
Qed.

(** X25: under exact real arithmetic [a.compose(b)] leaves position,
    rotation and scale of [a] unchanged when [b] is the identity
    transform.  It is the composition of the two point transformations
    when the rotations have unit length, [a] has a uniform scale and
    [b] has position zero.  With the identity as receiver the result does
    not have the position of [b] but that position rotated by the rotation
    of [b] and scaled by the scale of [b]. *)
Theorem Transform_compose_laws :
  forall a b : Transform.t R,
    (Transform.position (Transform.compose a Transform.new) = Transform.position a
     /\ Transform.rotation (Transform.compose a Transform.new) = Transform.rotation a
     /\ Transform.scale (Transform.compose a Transform.new) = Transform.scale a)
    /\ (Spec.unit_quat (Transform.rotation a) ->
        Spec.unit_quat (Transform.rotation b) ->
        Vec3.y (Transform.scale a) = Vec3.x (Transform.scale a) ->
        Vec3.z (Transform.scale a) = Vec3.x (Transform.scale a) ->
        Transform.position b = Vec3.mk 0 0 0 ->
        forall v : Vec3.t R,
          Transform.transformPoint (Transform.compose a b) v
          = Transform.transformPoint a (Transform.transformPoint b v))
    /\ Transform.position (Transform.compose Transform.new b)
       = (let p := Quat.transformVec3 (Transform.rotation b)
                     (Transform.position b) in
          Vec3.mk (Vec3.x p * Vec3.x (Transform.scale b))
                  (Vec3.y p * Vec3.y (Transform.scale b))
                  (Vec3.z p * Vec3.z (Transform.scale b))).
Proof.
  intros [[px py pz] [qx qy qz qw] [sx sy sz] mt d]
         [[px' py' pz'] [qx' qy' qz' qw'] [sx' sy' sz'] mt' d'].
  split; [|split].
  - unfold Transform.compose, Transform.new, Quat.multiply,
      Quat.transformVec3. trs_fields.
    repeat split.
    + apply Vec3_mk_eq; ring.
    + apply Quat_mk_eq; ring.
    + apply Vec3_mk_eq; ring.
  - unfold Spec.unit_quat. trs_fields. intros Ha Hb -> -> Hp.
    injection Hp as -> -> ->. intros [vx vy vz].
    unfold Transform.compose, Transform.transformPoint, Quat.multiply,
      Quat.transformVec3. trs_fields.
    apply Vec3_mk_eq; nsatz.
  - unfold Transform.compose, Transform.new, Quat.multiply,
      Quat.transformVec3. trs_fields.
    apply Vec3_mk_eq; ring.
Qed.

End ExactTransform.

(** ** Ray under exact real arithmetic *)

Section ExactRay.
  Local Open Scope R_scope.

Ltac ray_fields :=
  cbn [Ray.origin Ray.direction Vec3.x Vec3.y Vec3.z
       fadd fsub fmul fdiv fneg fofZ fsqrt flt fle Exact.arith] in *.

(** The roots of [a t^2 + b t + c] with [a > 0] and discriminant
    [D >= 0], as [intersectSphere] computes them. *)
Lemma quadratic_roots (a b c s : R) :
  0 < a -> 0 <= b * b - 4 * a * c ->
  let sd := sqrt (b * b - 4 * a * c) in
  let t1 := (- b - sd) / (2 * a) in
  let t2 := (- b + sd) / (2 * a) in
  t1 <= t2
  /\ a * (s * s) + b * s + c = a * ((s - t1) * (s - t2)).
Proof.
  intros Ha HD sd t1 t2.
  assert (Hsd : 0 <= sd) by apply sqrt_pos.
  assert (Hss : sd * sd = b * b - 4 * a * c) by (apply sqrt_sqrt; exact HD).
  assert (Hi : 2 * a * (1 / (2 * a)) = 1) by (field; lra).
  assert (Hip : 0 < 1 / (2 * a)).
  { unfold Rdiv. rewrite Rmult_1_l. apply Rinv_0_lt_compat. lra. }
  assert (E1 : t1 = (- b - sd) * (1 / (2 * a))) by (unfold t1; field; lra).
  assert (E2 : t2 = (- b + sd) * (1 / (2 * a))) by (unfold t2; field; lra).
  revert Hi Hip E1 E2. generalize (1 / (2 * a)). intros i Hi Hip E1 E2.
  split.
  - rewrite E1, E2. nra.
  - rewrite E1, E2. clear E1 E2.
    assert (Hc : 4 * a * c = b * b - sd * sd) by lra.
    assert (Hai : a * i = 1 / 2) by lra.
    nsatz.
Qed.

(** X26: under exact real arithmetic, for a ray whose direction is not
    the zero vector, [intersectSphere] returns the parameter of the
    first point of the ray on the sphere: a result [t >= 0] is a
    parameter at which [getPoint(t)] is at distance [radius] from the
    centre, no smaller parameter [s >= 0] has that property, and when
    some point of the ray lies on the sphere the result is not the
    sentinel -1. *)
Theorem Ray_intersectSphere_first_hit
    (r : Ray.t R) (cx cy cz radius : R) :
  0 < Vec3.lengthSq (Ray.direction r) ->
  let on_sphere (s : R) :=
    Vec3.distanceToSq (Ray.getPoint r s) (Vec3.mk cx cy cz) = radius * radius in
  let t := Ray.intersectSphere r cx cy cz radius in
  (0 <= t -> on_sphere t)
  /\ (forall s, 0 <= s -> on_sphere s -> 0 <= t <= s).
Proof.
  destruct r as [[ox oy oz] [dx dy dz]].
  intros Ha on_sphere t. unfold Vec3.lengthSq in Ha. ray_fields.
  set (a := dx * dx + dy * dy + dz * dz) in *.
  set (b := 2 * ((ox - cx) * dx + (oy - cy) * dy + (oz - cz) * dz)).
  set (c := (ox - cx) * (ox - cx) + (oy - cy) * (oy - cy)
            + (oz - cz) * (oz - cz) - radius * radius).
  assert (Hq : forall s, on_sphere s <-> a * (s * s) + b * s + c = 0).
  { intros s. unfold on_sphere, Vec3.distanceToSq, Ray.getPoint, a, b, c.
    ray_fields. split; intros Hs; nsatz. }
  assert (Ht : t = if Exact.ltb (b * b - 4 * a * c) 0 then -1
                   else if Exact.leb 0 ((- b - sqrt (b * b - 4 * a * c)) / (2 * a))
                        then (- b - sqrt (b * b - 4 * a * c)) / (2 * a)
                        else if Exact.leb 0 ((- b + sqrt (b * b - 4 * a * c)) / (2 * a))
                             then (- b + sqrt (b * b - 4 * a * c)) / (2 * a)
                             else -1) by reflexivity.
  clearbody t. subst t.
  destruct (Exact.ltb (b * b - 4 * a * c) 0) eqn:ED.
  - apply ExactFacts.ltb_true in ED. split; [intros; lra|].
    intros s _ Hs. apply Hq in Hs. exfalso.
    assert (0 <= (2 * a * s + b) * (2 * a * s + b)) by apply Rle_0_sqr.
    nra.
  - apply ExactFacts.ltb_false in ED.
    destruct (quadratic_roots a b c 0 Ha ED) as [Hle _].
    assert (Hf : forall s, a * (s * s) + b * s + c
                 = a * ((s - (- b - sqrt (b * b - 4 * a * c)) / (2 * a))
                        * (s - (- b + sqrt (b * b - 4 * a * c)) / (2 * a))))
      by (intros s; apply (quadratic_roots a b c s Ha ED)).
    cbv zeta in Hle.
    revert Hle Hf.
    generalize ((- b - sqrt (b * b - 4 * a * c)) / (2 * a)).
    generalize ((- b + sqrt (b * b - 4 * a * c)) / (2 * a)).
    intros t2 t1 Hle Hf.
    assert (Hroot : forall s, on_sphere s <-> s = t1 \/ s = t2).
    { intros s. rewrite Hq, Hf. split.
      - intros Hs. apply Rmult_integral in Hs. destruct Hs as [Hs | Hs]; [lra|].
        apply Rmult_integral in Hs. destruct Hs; [left | right]; lra.
      - intros [-> | ->]; ring. }
    destruct (Exact.leb 0 t1) eqn:E1.
    + apply ExactFacts.leb_true in E1. split.
      * intros _. apply Hroot. left. reflexivity.
      * intros s Hs0 Hs. apply Hroot in Hs. destruct Hs; lra.
    + apply ExactFacts.leb_false in E1.
      destruct (Exact.leb 0 t2) eqn:E2.
      * apply ExactFacts.leb_true in E2. split.
        -- intros _. apply Hroot. right. reflexivity.
        -- intros s Hs0 Hs. apply Hroot in Hs. destruct Hs; lra.
      * apply ExactFacts.leb_false in E2. split; [intros; lra|].
        intros s Hs0 Hs. apply Hroot in Hs. destruct Hs; lra.
Qed.

Lemma Ray_intersectSphere_first_hit_witness :
  let r : Ray.t R := Ray.mk (Vec3.mk 0 0 (-5)) (Vec3.mk 0 0 1) in
  let on_sphere (s : R) :=
    Vec3.distanceToSq (Ray.getPoint r s) (Vec3.mk 0 0 0) = 1 * 1 in
  let t := Ray.intersectSphere r 0 0 0 1 in
  (0 <= t -> on_sphere t)
  /\ (forall s, 0 <= s -> on_sphere s -> 0 <= t <= s).
Proof.
  intros r. apply (Ray_intersectSphere_first_hit r 0 0 0 1).
  unfold Vec3.lengthSq, r. ray_fields. lra.
Defined.

(** The test [denom > -EPSILON && denom < EPSILON] on the reals. *)
Lemma near_zero_test (x : R) :
  (Exact.ltb (- Constants.EPSILON) x && Exact.ltb x Constants.EPSILON = true
   <-> Rabs x < Constants.EPSILON).
Proof.
  rewrite andb_true_iff, !ExactFacts.ltb_true. split.
  - intros [? ?]. apply Rabs_def1; lra.
  - intros Hd. apply Rabs_def2 in Hd. lra.
Qed.

(** X27: under exact real arithmetic [intersectPlane] returns the
    parameter at which the ray meets the plane [n . p + d = 0]: a result
    [t >= 0] is a parameter of a point of the plane; when the ray is not
    nearly parallel to the plane (|n . direction| >= 1e-6) and meets it
    at a parameter [s >= 0], the result is [s]; when it is nearly
    parallel the result is -1. *)
Theorem Ray_intersectPlane_hit :
  forall (r : Ray.t R) (nx ny nz d : R),
    let on_plane (s : R) :=
      nx * Vec3.x (Ray.getPoint r s) + ny * Vec3.y (Ray.getPoint r s)
      + nz * Vec3.z (Ray.getPoint r s) + d = 0 in
    let denom := nx * Vec3.x (Ray.direction r) + ny * Vec3.y (Ray.direction r)
                 + nz * Vec3.z (Ray.direction r) in
    let t := Ray.intersectPlane r nx ny nz d in
    (0 <= t -> on_plane t)
    /\ (Constants.EPSILON <= Rabs denom ->
        forall s, 0 <= s -> on_plane s -> t = s)
    /\ (Rabs denom < Constants.EPSILON -> t = -1).
Proof.
  intros [[ox oy oz] [dx dy dz]] nx ny nz d on_plane denom t.
  pose proof ExactFacts.EPSILON_pos as He.
  unfold on_plane, Ray.getPoint. ray_fields.
  assert (Ht : t = if Exact.ltb (- Constants.EPSILON) denom
                      && Exact.ltb denom Constants.EPSILON
                   then -1
                   else if Exact.leb 0 (- (nx * ox + ny * oy + nz * oz + d) / denom)
                        then - (nx * ox + ny * oy + nz * oz + d) / denom
                        else -1) by reflexivity.
  clearbody t. subst t.
  destruct (Exact.ltb (- Constants.EPSILON) denom
            && Exact.ltb denom Constants.EPSILON) eqn:Eg.
  - apply near_zero_test in Eg. repeat split; intros; lra.
  - assert (Hg : Constants.EPSILON <= Rabs denom).
    { destruct (Rle_dec Constants.EPSILON (Rabs denom)) as [Hle | Hnle];
        [exact Hle | exfalso].
      assert (Hlt : Rabs denom < Constants.EPSILON) by lra.
      apply near_zero_test in Hlt. congruence. }
    assert (Hd : denom <> 0).
    { intros E. rewrite E, Rabs_R0 in Hg. lra. }
    assert (Hi : denom * (1 / denom) = 1) by (field; exact Hd).
    assert (Et : - (nx * ox + ny * oy + nz * oz + d) / denom
                 = - (nx * ox + ny * oy + nz * oz + d) * (1 / denom))
      by (field; exact Hd).
    rewrite Et. clear Et. revert Hi. generalize (1 / denom). intros i Hi.
    unfold denom in Hi.
    split; [|split].
    + destruct (Exact.leb 0 _) eqn:E1; [|intros; lra].
      intros _. nsatz.
    + intros _ s Hs0 Hs.
      assert (Es : s = - (nx * ox + ny * oy + nz * oz + d) * i) by nsatz.
      rewrite <- Es.
      replace (Exact.leb 0 s) with true
        by (symmetry; apply ExactFacts.leb_true; exact Hs0).
      reflexivity.
    + intros Hlt. lra.
Qed.

(** X28: under exact real arithmetic [intersectTriangle] returns the
    parameter at which the ray meets the triangle: for a result
    [t >= 0] the point [getPoint(t)] is [v0 + u (v1 - v0) + v (v2 - v0)]
    with [u >= 0], [v >= 0] and [u + v <= 1]; and when the ray is not
    nearly parallel to the plane of the triangle and meets the triangle
    at a parameter [s >= 0], the result is [s]. *)
Theorem Ray_intersectTriangle_hit :
  forall (r : Ray.t R) (v0 v1 v2 : Vec3.t R),
    let inside (s u v : R) :=
      0 <= u /\ 0 <= v /\ u + v <= 1
      /\ Ray.getPoint r s
         = Vec3.mk
             (Vec3.x v0 + u * (Vec3.x v1 - Vec3.x v0) + v * (Vec3.x v2 - Vec3.x v0))
             (Vec3.y v0 + u * (Vec3.y v1 - Vec3.y v0) + v * (Vec3.y v2 - Vec3.y v0))
             (Vec3.z v0 + u * (Vec3.z v1 - Vec3.z v0) + v * (Vec3.z v2 - Vec3.z v0)) in
    let det :=
      Vec3.dot (Vec3.sub v1 v0)
        (Vec3.cross_static (Ray.direction r) (Vec3.sub v2 v0)) in
    let t := Ray.intersectTriangle r v0 v1 v2 in
    (0 <= t -> exists u v, inside t u v)
    /\ (Constants.EPSILON <= Rabs det ->
        forall s u v, 0 <= s -> inside s u v -> t = s).
Proof.
  intros [[ox oy oz] [dx dy dz]] [ax ay az] [bx by_ bz] [cx cy cz]
         inside det t.
  pose proof ExactFacts.EPSILON_pos as He.
  unfold inside, Ray.getPoint. clear inside.
  unfold Vec3.dot, Vec3.sub, Vec3.cross_static in det. ray_fields.
  set (px := dy * (cz - az) - dz * (cy - ay)) in *.
  set (py := dz * (cx - ax) - dx * (cz - az)) in *.
  set (pz := dx * (cy - ay) - dy * (cx - ax)) in *.
  set (qx := (oy - ay) * (bz - az) - (oz - az) * (by_ - ay)).
  set (qy := (oz - az) * (bx - ax) - (ox - ax) * (bz - az)).
  set (qz := (ox - ax) * (by_ - ay) - (oy - ay) * (bx - ax)).
  assert (Ht : t =
    if Exact.ltb (- Constants.EPSILON) det && Exact.ltb det Constants.EPSILON
    then -1
    else
      let u := ((ox - ax) * px + (oy - ay) * py + (oz - az) * pz) * (1 / det) in
      if Exact.ltb u 0 || Exact.ltb 1 u then -1
      else
        let v := (dx * qx + dy * qy + dz * qz) * (1 / det) in
        if Exact.ltb v 0 || Exact.ltb 1 (u + v) then -1
        else
          let t' := ((cx - ax) * qx + (cy - ay) * qy + (cz - az) * qz)
                    * (1 / det) in
          if Exact.leb 0 t' then t' else -1) by reflexivity.
  clearbody t. subst t. cbv zeta.
  destruct (Exact.ltb (- Constants.EPSILON) det
            && Exact.ltb det Constants.EPSILON) eqn:Eg.
  - apply near_zero_test in Eg. split; intros; lra.
  - assert (Hg : Constants.EPSILON <= Rabs det).
    { destruct (Rle_dec Constants.EPSILON (Rabs det)) as [Hle | Hnle];
        [exact Hle | exfalso].
      assert (Hlt : Rabs det < Constants.EPSILON) by lra.
      apply near_zero_test in Hlt. congruence. }
    assert (Hd : det <> 0).
    { intros E. rewrite E, Rabs_R0 in Hg. lra. }
    assert (Hi : det * (1 / det) = 1) by (field; exact Hd).
    revert Hi. generalize (1 / det). intros i Hi.
    set (u := ((ox - ax) * px + (oy - ay) * py + (oz - az) * pz) * i).
    set (v := (dx * qx + dy * qy + dz * qz) * i).
    set (t' := ((cx - ax) * qx + (cy - ay) * qy + (cz - az) * qz) * i).
    assert (Hpoint :
      ox + dx * t' = ax + u * (bx - ax) + v * (cx - ax)
      /\ oy + dy * t' = ay + u * (by_ - ay) + v * (cy - ay)
      /\ oz + dz * t' = az + u * (bz - az) + v * (cz - az)).
    { unfold u, v, t', qx, qy, qz, px, py, pz.
      unfold det, px, py, pz in Hi.
      repeat split; apply Rminus_diag_uniq.
      - match type of Hi with
        | ?D * _ = 1 =>
            match goal with
            | |- ?L = 0 => replace L with ((ox - ax) * (1 - D * i)) by ring
            end
        end.
        rewrite Hi. ring.
      - match type of Hi with
        | ?D * _ = 1 =>
            match goal with
            | |- ?L = 0 => replace L with ((oy - ay) * (1 - D * i)) by ring
            end
        end.
        rewrite Hi. ring.
      - match type of Hi with
        | ?D * _ = 1 =>
            match goal with
            | |- ?L = 0 => replace L with ((oz - az) * (1 - D * i)) by ring
            end
        end.
        rewrite Hi. ring. }
    split.
    + destruct (Exact.ltb u 0 || Exact.ltb 1 u) eqn:Eu; [intros; lra|].
      destruct (Exact.ltb v 0 || Exact.ltb 1 (u + v)) eqn:Ev; [intros; lra|].
      destruct (Exact.leb 0 t') eqn:Et; [|intros; lra].
      intros _. exists u, v.
      apply orb_false_iff in Eu, Ev. destruct Eu as [Eu1 Eu2], Ev as [Ev1 Ev2].
      apply ExactFacts.ltb_false in Eu1, Ev1, Ev2.
      destruct Hpoint as (H1 & H2 & H3).
      repeat split; try lra. rewrite H1, H2, H3. reflexivity.
    + intros _ s u' v' Hs0 (Hu & Hv & Huv & Hp).
      injection Hp as P1 P2 P3.
      assert (Ox : ox = ax + u' * (bx - ax) + v' * (cx - ax) - dx * s) by lra.
      assert (Oy : oy = ay + u' * (by_ - ay) + v' * (cy - ay) - dy * s) by lra.
      assert (Oz : oz = az + u' * (bz - az) + v' * (cz - az) - dz * s) by lra.
      clear Hpoint P1 P2 P3.
      assert (E : u = u' /\ v = v' /\ t' = s).
      { subst u v t' qx qy qz. unfold px, py, pz.
        unfold det, px, py, pz in Hi.
        clear Eg Hg Hd. subst ox oy oz.
        repeat split;
          match type of Hi with
          | ?D * _ = 1 =>
              match goal with
              | |- ?L = ?X => replace L with (X * (D * i)) by ring
              end
          end; rewrite Hi; ring. }
      destruct E as (Eu & Ev & Es).
      rewrite Eu, Ev, Es.
      replace (Exact.ltb u' 0) with false
        by (symmetry; apply ExactFacts.ltb_false; lra).
      replace (Exact.ltb 1 u') with false
        by (symmetry; apply ExactFacts.ltb_false; lra).
      replace (Exact.ltb v' 0) with false
        by (symmetry; apply ExactFacts.ltb_false; lra).
      replace (Exact.ltb 1 (u' + v')) with false
        by (symmetry; apply ExactFacts.ltb_false; lra).
      replace (Exact.leb 0 s) with true
        by (symmetry; apply ExactFacts.leb_true; lra).
      reflexivity.
Qed.

End ExactRay.

(** ** Vec3 and the scalar helpers under exact real arithmetic *)

Section ExactVec3Algebra.
  Local Open Scope R_scope.

Ltac vec3_fields :=
  cbn [Vec3.x Vec3.y Vec3.z fadd fsub fmul fdiv fneg fofZ fsqrt
       flt fle feq Exact.arith] in *.

(** X29: under exact real arithmetic the cross product is orthogonal to
    both factors, changes sign when the factors are swapped, and
    satisfies |a x b|^2 + (a . b)^2 = |a|^2 |b|^2.  For a normal [n] of
    length 1, [reflect] is an involution that preserves lengths and
    reverses the component along the normal, and [projectOnPlane]
    returns a vector orthogonal to the normal; for a vector [v] of
    squared length at least 1e-6, [a.project(v)] is the multiple of [v]
    whose difference with [a] is orthogonal to [v].  The method and the
    static forms of [cross] and [reflect] agree. *)
Theorem Vec3_products (a n v : Vec3.t R) :
  (Vec3.dot (Vec3.cross_static a v) a = 0
   /\ Vec3.dot (Vec3.cross_static a v) v = 0
   /\ Vec3.cross_static v a = Vec3.negate (Vec3.cross_static a v)
   /\ Vec3.lengthSq (Vec3.cross_static a v) + Vec3.dot a v * Vec3.dot a v
      = Vec3.lengthSq a * Vec3.lengthSq v
   /\ Vec3.cross a v = Vec3.cross_static a v
   /\ Vec3.crossVectors n a v = Vec3.cross_static a v
   /\ Vec3.reflect_static a n = Vec3.reflect a n)
  /\ (Vec3.lengthSq n = 1 ->
      Vec3.reflect (Vec3.reflect a n) n = a
      /\ Vec3.lengthSq (Vec3.reflect a n) = Vec3.lengthSq a
      /\ Vec3.dot (Vec3.reflect a n) n = - Vec3.dot a n
      /\ Vec3.dot (Vec3.projectOnPlane a n) n = 0)
  /\ (Constants.EPSILON <= Vec3.lengthSq v ->
      Vec3.dot (Vec3.sub a (Vec3.project a v)) v = 0
      /\ Vec3.project a v
         = Vec3.mulScalar v (Vec3.dot a v / Vec3.lengthSq v)).
Proof.
  destruct a as [ax ay az], n as [nx ny nz], v as [vx vy vz].
  pose proof ExactFacts.EPSILON_pos as He.
  unfold Vec3.lengthSq. vec3_fields.
  split; [|split].
  - unfold Vec3.cross, Vec3.crossVectors, Vec3.cross_static, Vec3.dot,
      Vec3.lengthSq, Vec3.negate, Vec3.clone, Vec3.reflect,
      Vec3.reflect_static.
    vec3_fields.
    repeat split; try ring.
    apply Vec3_mk_eq; ring.
  - intros Hn.
    unfold Vec3.reflect, Vec3.projectOnPlane, Vec3.dot, Vec3.lengthSq.
    vec3_fields.
    split; [|split; [|split]].
    + apply Vec3_mk_eq; nsatz.
    + nsatz.
    + nsatz.
    + nsatz.
  - intros Hv.
    assert (Hg : Exact.ltb (vx * vx + vy * vy + vz * vz) Constants.EPSILON
                 = false)
      by (apply ExactFacts.ltb_false; exact Hv).
    unfold Vec3.project, Vec3.lengthSq, Vec3.dot. vec3_fields. rewrite Hg.
    unfold Vec3.sub, Vec3.mulScalar. vec3_fields.
    assert (Hi : (vx * vx + vy * vy + vz * vz)
                 * (1 / (vx * vx + vy * vy + vz * vz)) = 1) by (field; lra).
    assert (Ed : forall k, k / (vx * vx + vy * vy + vz * vz)
                           = k * (1 / (vx * vx + vy * vy + vz * vz)))
      by (intros k; field; lra).
    rewrite Ed. clear Ed.
    revert Hi. generalize (1 / (vx * vx + vy * vy + vz * vz)). intros i Hi.
    split; [nsatz | reflexivity].
Qed.

Lemma Vec3_products_witness :
  let a : Vec3.t R := Vec3.mk 1 2 3 in
  let n : Vec3.t R := Vec3.mk 0 1 0 in
  let v : Vec3.t R := Vec3.mk 2 0 0 in
  (Vec3.reflect (Vec3.reflect a n) n = a
   /\ Vec3.lengthSq (Vec3.reflect a n) = Vec3.lengthSq a
   /\ Vec3.dot (Vec3.reflect a n) n = - Vec3.dot a n
   /\ Vec3.dot (Vec3.projectOnPlane a n) n = 0)
  /\ (Vec3.dot (Vec3.sub a (Vec3.project a v)) v = 0
      /\ Vec3.project a v
         = Vec3.mulScalar v (Vec3.dot a v / Vec3.lengthSq v)).
Proof.
  intros a n v.
  destruct (Vec3_products a n v) as (_ & Hr & Hp).
  split.
  - apply Hr. unfold Vec3.lengthSq, n. vec3_fields. ring.
  - apply Hp. unfold Vec3.lengthSq, v. vec3_fields.
    rewrite ExactFacts.EPSILON_real. lra.
Defined.

(** X30: under exact real arithmetic, for [a < b]: [lerp] returns [a] at
    0 and [b] at 1; [lerp(a, b, .)] and [inverseLerp(a, b, .)] are
    inverse to each other; [remap] sends [a] to [toMin] and [b] to
    [toMax]; and [smoothstep(a, b, .)] is 0 up to [a], 1 from [b] on,
    and between 0 and 1 everywhere. *)
Theorem scalar_interpolation (a b : R) :
  a < b ->
  forall t c d : R,
    (Constants.lerp a b 0 = a /\ Constants.lerp a b 1 = b
     /\ Constants.inverseLerp a b (Constants.lerp a b t) = t
     /\ Constants.lerp a b (Constants.inverseLerp a b t) = t
     /\ Constants.remap a a b c d = c /\ Constants.remap b a b c d = d)
    /\ 0 <= Constants.smoothstep a b t <= 1
    /\ (t <= a -> Constants.smoothstep a b t = 0)
    /\ (b <= t -> Constants.smoothstep a b t = 1).
Proof.
  intros He t c d. split.
  - assert (Hz : Exact.eqb (b - a) 0 = false).
    { apply not_true_is_false. intros E. apply ExactFacts.eqb_true in E. lra. }
    unfold Constants.remap, Constants.inverseLerp, Constants.lerp.
    cbv zeta. vec3_fields. rewrite Hz.
    repeat split; field; lra.
  - unfold Constants.smoothstep, Constants.clamp01. vec3_fields.
    assert (Hi : (b - a) * (1 / (b - a)) = 1) by (field; lra).
    assert (Hp : 0 < 1 / (b - a)).
    { unfold Rdiv. rewrite Rmult_1_l. apply Rinv_0_lt_compat. lra. }
    assert (Ed : (t - a) / (b - a) = (t - a) * (1 / (b - a))) by (field; lra).
    rewrite Ed. clear Ed.
    revert Hi Hp. generalize (1 / (b - a)). intros i Hi Hp.
    set (u := (t - a) * i).
    destruct (Exact.ltb u 0) eqn:E0.
    + apply ExactFacts.ltb_true in E0. split; [|split].
      * lra.
      * intros _. ring.
      * intros Hx. exfalso. unfold u in E0. nra.
    + apply ExactFacts.ltb_false in E0.
      destruct (Exact.ltb 1 u) eqn:E1.
      * apply ExactFacts.ltb_true in E1. split; [|split].
        -- lra.
        -- intros Hx. exfalso. unfold u in E1. nra.
        -- intros _. ring.
      * apply ExactFacts.ltb_false in E1. split; [|split].
        -- split; [nra|].
           assert (0 <= (1 - u) * (1 - u) * (1 + 2 * u)) by
             (apply Rmult_le_pos; [apply Rle_0_sqr | lra]).
           nra.
        -- intros Hx. assert (Hu : u = 0) by (unfold u in *; nra).
           rewrite Hu. ring.
        -- intros Hx. assert (Hu : u = 1) by (unfold u in *; nra).
           rewrite Hu. ring.
Qed.

Lemma scalar_interpolation_witness :
  1 < 3
  /\ forall t c d : R,
    (Constants.lerp 1 3 0 = 1 /\ Constants.lerp 1 3 1 = 3
     /\ Constants.inverseLerp 1 3 (Constants.lerp 1 3 t) = t
     /\ Constants.lerp 1 3 (Constants.inverseLerp 1 3 t) = t
     /\ Constants.remap 1 1 3 c d = c /\ Constants.remap 3 1 3 c d = d)
    /\ 0 <= Constants.smoothstep 1 3 t <= 1
    /\ (t <= 1 -> Constants.smoothstep 1 3 t = 0)
    /\ (3 <= t -> Constants.smoothstep 1 3 t = 1).
Proof.
  split; [lra | apply (scalar_interpolation 1 3); lra].
Defined.

End ExactVec3Algebra.
